(** * DataEngineeringA2Notebook: a verified model of the video-game sales notebook

    The notebook [DataEngineeringA2Notebook.py] is a linear sequence of
    PySpark DataFrame calls followed by a few pandas/plotly cells.  This file
    embeds the DataFrame operations the notebook calls (one definition per
    API method, with the semantics PySpark documents for it), then the
    notebook itself, cell by cell and with the notebook's variable names,
    and proves properties of the result. *)

From Stdlib Require Import ZArith Ascii String Sorted.
From Stdlib Require Import PrimFloat SpecFloat FloatOps.
From Stdlib Require Uint63.
From stdpp Require Import base option list gmap strings pretty sorting.

Local Open Scope Z_scope.

(** ** Values

    A Spark cell is either SQL NULL or a value of the column's type.  The
    notebook only ever holds strings (every CSV column is read as a string),
    32-bit integers ([IntegerType]), 64-bit integers ([LongType], the type of
    [monotonically_increasing_id]), dates, doubles (IEEE binary64, here the
    kernel's primitive floats) and booleans (filter conditions). *)

Record date := mkDate { d_year : Z; d_month : Z; d_day : Z }.

Inductive DataType := StringType | IntegerType | LongType | DateType | DoubleType.

Inductive data :=
| DString (s : string)
| DInt (z : Z)
| DLong (z : Z)
| DDate (d : date)
| DDouble (f : float)
| DBool (b : bool).

(** [None] is SQL NULL. *)
Abbreviation cell := (option data).
Abbreviation Row := (list (option data)).

(** A DataFrame: the column names of its schema, and its rows. *)
Record DataFrame := mkDataFrame { columns : list string; rows : list Row }.

(** ** The engine

    What the notebook delegates to Spark and cannot be read off the notebook:
    the string parsers behind [cast], the formatter behind [date_format], the
    text a value is written as in a CSV file, and the physical partitioning
    of a DataFrame, on which [monotonically_increasing_id] depends.  They are
    parameters of the model. *)
Record Engine := mkEngine {
  cast_string_int : string -> option Z;
  cast_string_date : string -> option date;
  cast_string_double : string -> option float;
  format_date : date -> string -> string;
  csv_text : data -> string;
  (** sizes of the leading partitions of a DataFrame with the given rows;
      the rows left over when the list is exhausted form one last partition *)
  partition_sizes : list Row -> list nat;
}.

(** ** Column names

    Spark resolves column names case-insensitively
    ([spark.sql.caseSensitive] is false by default); the notebook relies on
    it when it writes ["year"] for the column ["Year"]. *)
Definition lower_ascii (c : ascii) : ascii :=
  let n := nat_of_ascii c in
  if (65 <=? n)%nat && (n <=? 90)%nat then ascii_of_nat (n + 32) else c.

Fixpoint lower (s : string) : string :=
  match s with
  | EmptyString => EmptyString
  | String c s' => String (lower_ascii c) (lower s')
  end.

Definition resolver (a b : string) : bool := String.eqb (lower a) (lower b).

(** Positions of the columns a name resolves to. *)
Fixpoint matches_from (i : nat) (cols : list string) (name : string) : list nat :=
  match cols with
  | [] => []
  | c :: cols' =>
      if resolver c name then i :: matches_from (S i) cols' name
      else matches_from (S i) cols' name
  end.

(** A reference resolves when exactly one column matches; no match and an
    ambiguous match are both an [AnalysisException]. *)
Definition resolve (cols : list string) (name : string) : option nat :=
  match matches_from 0 cols name with
  | [i] => Some i
  | _ => None
  end.

(** The cell of a row at a position; a row too short reads as NULL. *)
Definition cell_at (i : nat) (r : Row) : cell := default None (r !! i).

(** ** Arithmetic and comparison of values *)

(** Java [long] and [int] arithmetic wraps around (Spark's default, non-ANSI
    mode). *)
Definition wrap64 (z : Z) : Z := (z + 2 ^ 63) mod 2 ^ 64 - 2 ^ 63.
Definition wrap32 (z : Z) : Z := (z + 2 ^ 31) mod 2 ^ 32 - 2 ^ 31.

(** SQL [+]: NULL if either operand is NULL.  The notebook adds doubles
    (the sales columns) and a long to an integer literal
    ([monotonically_increasing_id() + 1]); operand types it never adds are
    given NULL here. *)
Definition sql_add (a b : cell) : cell :=
  match a, b with
  | Some (DDouble x), Some (DDouble y) => Some (DDouble (x + y)%float)
  | Some (DLong x), Some (DLong y) => Some (DLong (wrap64 (x + y)))
  | Some (DLong x), Some (DInt y) => Some (DLong (wrap64 (x + y)))
  | Some (DInt x), Some (DLong y) => Some (DLong (wrap64 (x + y)))
  | Some (DInt x), Some (DInt y) => Some (DInt (wrap32 (x + y)))
  | _, _ => None
  end.

(** Spark's ordering of doubles: the IEEE order on numbers (with
    [-0.0 = 0.0]), and NaN equal to itself and above every number. *)
Definition sf_compare (a b : spec_float) : comparison :=
  match a, b with
  | S754_nan, S754_nan => Eq
  | S754_nan, _ => Gt
  | _, S754_nan => Lt
  | _, _ => default Eq (SFcompare a b)
  end.

Definition double_compare (x y : float) : comparison :=
  sf_compare (Prim2SF x) (Prim2SF y).

Definition date_compare (a b : date) : comparison :=
  match d_year a ?= d_year b with
  | Eq => match d_month a ?= d_month b with
          | Eq => d_day a ?= d_day b
          | c => c
          end
  | c => c
  end.

Definition type_rank (d : data) : Z :=
  match d with
  | DString _ => 0 | DInt _ => 1 | DLong _ => 2
  | DDate _ => 3 | DDouble _ => 4 | DBool _ => 5
  end.

(** The ordering [orderBy] sorts by.  The values of one column have one
    type; values of different types never meet and are ordered by type only
    to keep the comparison total. *)
Definition data_compare (a b : data) : comparison :=
  match a, b with
  | DString x, DString y => String.compare x y
  | DInt x, DInt y => x ?= y
  | DLong x, DLong y => x ?= y
  | DDate x, DDate y => date_compare x y
  | DDouble x, DDouble y => double_compare x y
  | DBool x, DBool y => Z.b2z x ?= Z.b2z y
  | _, _ => type_rank a ?= type_rank b
  end.

(** Equality of grouping and join keys (NULL is handled by the callers). *)
Definition data_eqb (a b : data) : bool :=
  match data_compare a b with Eq => true | _ => false end.

(** [cast]: a string that does not parse becomes NULL (Spark's default,
    non-ANSI [cast]); a value already of the target type is unchanged.
    Conversions the notebook never asks for are given NULL. *)
Definition cast_data (E : Engine) (t : DataType) (d : data) : cell :=
  match t, d with
  | StringType, DString _ => Some d
  | IntegerType, DString s => DInt <$> cast_string_int E s
  | IntegerType, DInt _ => Some d
  | LongType, DLong _ => Some d
  | LongType, DInt z => Some (DLong z)
  | DateType, DString s => DDate <$> cast_string_date E s
  | DateType, DDate _ => Some d
  | DoubleType, DString s => DDouble <$> cast_string_double E s
  | DoubleType, DDouble _ => Some d
  | _, _ => None
  end.

Definition date_format_data (E : Engine) (fmt : string) (d : data) : cell :=
  match d with
  | DDate x => Some (DString (format_date E x fmt))
  | _ => None
  end.

(** [>=]: NULL if either side is NULL.  A date compared with a string
    literal has the literal cast to a date first. *)
Definition sql_ge (E : Engine) (a b : cell) : cell :=
  match a, b with
  | Some (DDate x), Some (DString s) =>
      y ← cast_string_date E s;
      Some (DBool (match date_compare x y with Lt => false | _ => true end))
  | Some x, Some y =>
      Some (DBool (match data_compare x y with Lt => false | _ => true end))
  | _, _ => None
  end.

(** ** Column expressions *)

Inductive Column :=
| col (name : string)
| lit (d : data)
| cast (c : Column) (t : DataType)
| alias (c : Column) (name : string)
| plus (c1 c2 : Column)
| date_format (c : Column) (fmt : string)
| monotonically_increasing_id
| ge (c1 c2 : Column).

(** Every column reference of the expression resolves (otherwise Spark
    raises an [AnalysisException] when the DataFrame is built). *)
Fixpoint analyze (cols : list string) (c : Column) : bool :=
  match c with
  | col name => bool_decide (is_Some (resolve cols name))
  | lit _ | monotonically_increasing_id => true
  | cast c _ | alias c _ | date_format c _ => analyze cols c
  | plus a b | ge a b => analyze cols a && analyze cols b
  end.

(** The value of an expression on a row; [id] is the value
    [monotonically_increasing_id()] has on that row. *)
Fixpoint eval (E : Engine) (cols : list string) (id : Z) (r : Row) (c : Column) : cell :=
  match c with
  | col name =>
      match resolve cols name with
      | Some i => cell_at i r
      | None => None
      end
  | lit d => Some d
  | cast c t => eval E cols id r c ≫= cast_data E t
  | alias c _ => eval E cols id r c
  | plus a b => sql_add (eval E cols id r a) (eval E cols id r b)
  | date_format c fmt => eval E cols id r c ≫= date_format_data E fmt
  | monotonically_increasing_id => Some (DLong id)
  | ge a b => sql_ge E (eval E cols id r a) (eval E cols id r b)
  end.

(** The name Spark gives an expression selected without an alias. *)
Definition type_name (t : DataType) : string :=
  match t with
  | StringType => "STRING" | IntegerType => "INT" | LongType => "BIGINT"
  | DateType => "DATE" | DoubleType => "DOUBLE"
  end.

Fixpoint output_name (c : Column) : string :=
  match c with
  | col name => name
  | lit _ => "lit"
  | cast c t => "CAST(" ++ output_name c ++ " AS " ++ type_name t ++ ")"
  | alias _ name => name
  | plus a b => "(" ++ output_name a ++ " + " ++ output_name b ++ ")"
  | date_format c fmt => "date_format(" ++ output_name c ++ ", " ++ fmt ++ ")"
  | monotonically_increasing_id => "monotonically_increasing_id()"
  | ge a b => "(" ++ output_name a ++ " >= " ++ output_name b ++ ")"
  end.

(** ** [monotonically_increasing_id]

    PySpark: "The generated ID is guaranteed to be monotonically increasing
    and unique, but not consecutive.  The current implementation puts the
    partition ID in the upper 31 bits, and the record number within each
    partition in the lower 33 bits."  Rows are dealt to the partitions in
    order; partition [p] numbers its rows [p << 33], [(p << 33) + 1], ... *)
Definition partition_ids (p : Z) (k : nat) : list Z :=
  (fun i : nat => wrap64 (Z.shiftl p 33 + Z.of_nat i)) <$> seq 0 k.

Fixpoint mono_ids (sizes : list nat) (p : Z) (n : nat) : list Z :=
  match sizes with
  | [] => partition_ids p n
  | s :: sizes' => partition_ids p (Nat.min s n) ++ mono_ids sizes' (p + 1) (n - s)
  end.

Definition row_ids (E : Engine) (rs : list Row) : list Z :=
  mono_ids (partition_sizes E rs) 0 (length rs).

(** ** DataFrame operations

    Each returns a new DataFrame and leaves its argument as it was
    (DataFrames are immutable).  [None] is an [AnalysisException]. *)

(** Rows paired with the value [monotonically_increasing_id()] has on them. *)
Definition with_ids (E : Engine) (rs : list Row) : list (Z * Row) :=
  zip (row_ids E rs) rs.

(** A row with the column(s) called [name] set to [v], or with [v] appended
    when the DataFrame has no such column. *)
Definition put (cols : list string) (name : string) (v : cell) (r : Row) : Row :=
  if existsb (fun x => resolver x name) cols
  then zip_with (fun x old => if resolver x name then v else old) cols r
  else r ++ [v].

Definition put_name (cols : list string) (name : string) : list string :=
  if existsb (fun x => resolver x name) cols
  then (fun x => if resolver x name then name else x) <$> cols
  else cols ++ [name].

(** [df.withColumn(colName, c)] *)
Definition withColumn (E : Engine) (colName : string) (c : Column) (df : DataFrame)
  : option DataFrame :=
  if analyze (columns df) c then
    Some {| columns := put_name (columns df) colName;
            rows := (fun ir : Z * Row =>
                       put (columns df) colName (eval E (columns df) ir.1 ir.2 c) ir.2)
                    <$> with_ids E (rows df) |}
  else None.

(** [df.withColumnRenamed(existing, new)]; a no-op when the column is absent. *)
Definition withColumnRenamed (existing new : string) (df : DataFrame) : DataFrame :=
  {| columns := (fun x => if resolver x existing then new else x) <$> columns df;
     rows := rows df |}.

(** [df.dropna()]: the rows without any NULL and without any NaN. *)
Definition dropna (df : DataFrame) : DataFrame :=
  {| columns := columns df;
     rows := List.filter
               (forallb (fun c : cell =>
                           match c with
                           | None => false
                           | Some (DDouble x) => negb (PrimFloat.is_nan x)
                           | Some _ => true
                           end))
               (rows df) |}.

(** [df.select(c1, ..., cn)] *)
Definition select (E : Engine) (cs : list Column) (df : DataFrame) : option DataFrame :=
  if forallb (analyze (columns df)) cs then
    Some {| columns := output_name <$> cs;
            rows := (fun ir : Z * Row => (eval E (columns df) ir.1 ir.2) <$> cs)
                    <$> with_ids E (rows df) |}
  else None.

(** [df.filter(c)]: the rows on which the condition is true (not false, not
    NULL). *)
Definition filter_rows (E : Engine) (c : Column) (df : DataFrame) : option DataFrame :=
  if analyze (columns df) c then
    Some {| columns := columns df;
            rows := snd <$> List.filter
                      (fun ir : Z * Row =>
                         match eval E (columns df) ir.1 ir.2 c with
                         | Some (DBool true) => true
                         | _ => false
                         end)
                      (with_ids E (rows df)) |}
  else None.

(** [df.limit(n)] *)
Definition limit (n : nat) (df : DataFrame) : DataFrame :=
  {| columns := columns df; rows := take n (rows df) |}.

(** *** [orderBy]

    [desc] sorts descending with NULLs last, [asc] ascending with NULLs
    first (Spark's defaults).  The sort is stable: rows with equal keys keep
    their input order. *)
Inductive SortOrder := asc (name : string) | desc (name : string).

(** [before_desc a b]: key [a] sorts strictly before key [b]. *)
Definition before_desc (a b : cell) : bool :=
  match a, b with
  | Some x, Some y => match data_compare x y with Gt => true | _ => false end
  | Some _, None => true
  | None, _ => false
  end.

Definition before_asc (a b : cell) : bool :=
  match a, b with
  | Some x, Some y => match data_compare x y with Lt => true | _ => false end
  | None, Some _ => true
  | _, None => false
  end.

Section Sort.
Context {A : Type} (before : A -> A -> bool).

Fixpoint insert_sorted (x : A) (l : list A) : list A :=
  match l with
  | [] => [x]
  | y :: l' => if before y x then y :: insert_sorted x l' else x :: y :: l'
  end.

Definition stable_sort (l : list A) : list A := foldr insert_sorted [] l.
End Sort.

Definition orderBy (o : SortOrder) (df : DataFrame) : option DataFrame :=
  match o with
  | asc name =>
      i ← resolve (columns df) name;
      Some {| columns := columns df;
              rows := stable_sort (fun a b => before_asc (cell_at i a) (cell_at i b)) (rows df) |}
  | desc name =>
      i ← resolve (columns df) name;
      Some {| columns := columns df;
              rows := stable_sort (fun a b => before_desc (cell_at i a) (cell_at i b)) (rows df) |}
  end.

(** *** [groupBy(...).agg(sum(...).alias(...), ...)] *)

(** Spark's [sum] skips NULLs and is NULL when every input is NULL; on
    doubles it starts from [0.0] at the first number. *)
Definition sum_step (acc c : cell) : cell :=
  match c with
  | Some (DDouble x) =>
      Some (DDouble (match acc with Some (DDouble s) => s | _ => 0 end + x)%float)
  | _ => acc
  end.

Definition sql_sum (cs : list cell) : cell := foldl sum_step None cs.

(** Grouping puts all NULL keys in one group. *)
Definition group_eqb (a b : cell) : bool :=
  match a, b with
  | None, None => true
  | Some x, Some y => data_eqb x y
  | _, _ => false
  end.

(** The distinct keys, in order of first appearance. *)
Fixpoint distinct (ks : list cell) : list cell :=
  match ks with
  | [] => []
  | k :: ks' => k :: List.filter (fun k' => negb (group_eqb k k')) (distinct ks')
  end.

Record GroupedData := mkGroupedData { grouping : string; grouped : DataFrame }.

Definition groupBy (name : string) (df : DataFrame) : GroupedData :=
  {| grouping := name; grouped := df |}.

(** [sum(column).alias(name)] *)
Inductive Aggregate := sum_alias (column name : string).

Definition agg_column (a : Aggregate) : string := let 'sum_alias c _ := a in c.
Definition agg_name (a : Aggregate) : string := let 'sum_alias _ n := a in n.

Definition agg (aggs : list Aggregate) (g : GroupedData) : option DataFrame :=
  let df := grouped g in
  i ← resolve (columns df) (grouping g);
  js ← mapM (fun a => resolve (columns df) (agg_column a)) aggs;
  Some {| columns := grouping g :: (agg_name <$> aggs);
          rows := (fun k =>
                     let members := List.filter (fun r => group_eqb (cell_at i r) k) (rows df) in
                     k :: ((fun j => sql_sum (cell_at j <$> members)) <$> js))
                  <$> distinct (cell_at i <$> rows df) |}.

(** *** [df.join(other, on, how)] on one column name

    The output has the join column first (the left one), then the other
    columns of the left side, then the other columns of the right side.  A
    NULL key matches nothing.  A left row without a match is kept once, with
    NULLs for the right side, in a left join. *)
Inductive JoinType := Inner | Left.

Definition join_eqb (a b : cell) : bool :=
  match a, b with
  | Some x, Some y => data_eqb x y
  | _, _ => false
  end.

Definition join_row (i j : nat) (width : nat) (how : JoinType) (right : list Row) (l : Row)
  : list Row :=
  match List.filter (fun r => join_eqb (cell_at i l) (cell_at j r)) right, how with
  | [], Left => [cell_at i l :: delete i l ++ replicate width None]
  | ms, _ => (fun r => cell_at i l :: delete i l ++ delete j r) <$> ms
  end.

Definition join (df other : DataFrame) (on : string) (how : JoinType) : option DataFrame :=
  i ← resolve (columns df) on;
  j ← resolve (columns other) on;
  Some {| columns := default on (columns df !! i)
                     :: delete i (columns df) ++ delete j (columns other);
          rows := mjoin (join_row i j (length (columns other) - 1) how (rows other)
                         <$> rows df) |}.

(** ** Files and tables

    A CSV file is its header line and its records; an empty field is NULL.
    DBFS maps paths to files, the metastore maps table names to tables. *)
Record CsvFile := mkCsvFile { header : list string; records : list (list (option string)) }.

Record World := mkWorld { dbfs : gmap string CsvFile; metastore : gmap string DataFrame }.

(** [spark.read.format("csv").option("header","true").load(path)]: the
    columns are named by the header and every column is a string column; a
    record shorter than the header is padded with NULLs, a longer one is cut. *)
Definition fit (n : nat) (r : list (option string)) : Row :=
  take n (((fun c : option string => DString <$> c) <$> r) ++ replicate n None).

Definition read_csv (f : CsvFile) : DataFrame :=
  {| columns := header f; rows := fit (length (header f)) <$> records f |}.

(** [CREATE TABLE IF NOT EXISTS name USING parquet AS SELECT * FROM view] *)
Definition create_table_if_not_exists (name : string) (view : DataFrame)
    (m : gmap string DataFrame) : gmap string DataFrame :=
  match m !! name with
  | Some _ => m
  | None => <[name := view]> m
  end.

(** [df.write.option("header","true").mode(mode).csv(path)] *)
Inductive SaveMode := Overwrite | Append | ErrorIfExists.

Definition to_csv (E : Engine) (df : DataFrame) : CsvFile :=
  {| header := columns df;
     records := (fun r : Row => (fun c : cell => csv_text E <$> c) <$> r) <$> rows df |}.

Definition write_csv (E : Engine) (mode : SaveMode) (path : string) (df : DataFrame)
    (fs : gmap string CsvFile) : option (gmap string CsvFile) :=
  match mode, fs !! path with
  | Overwrite, _ | _, None => Some (<[path := to_csv E df]> fs)
  | Append, Some old =>
      Some (<[path := {| header := header old;
                         records := records old ++ records (to_csv E df) |}]> fs)
  | ErrorIfExists, Some _ => None
  end.

(** ** The notebook *)

Declare Scope column_scope.
Delimit Scope column_scope with column.
Bind Scope column_scope with Column.
Infix "+" := plus : column_scope.

Definition raw_data : string := "/mnt/project-games-data/raw-data/vgsales.csv".
Definition transformed_data : string := "/mnt/project-games-data/transformed-data/games".

Section Notebook.
Context (E : Engine).

(** Cells "Load games CSV into a dataframe", "Create Spark table from the
    temporary view" and "Load Spark table into a data frame". *)
Definition ingestion (w : World) : option (World * DataFrame) :=
  f ← dbfs w !! raw_data;
  let temp_table := read_csv f in
  let w := {| dbfs := dbfs w;
              metastore := create_table_if_not_exists "gamestb" temp_table (metastore w) |} in
  gamestb ← metastore w !! "gamestb";
  Some (w, gamestb).

(** Cells "Cast the rank column as an integer", "Cast the year column as a
    date" and "Cast the sales columns as doubles". *)
Definition schema_normalizer (gamestb : DataFrame) : option DataFrame :=
  gamestb ← withColumn E "Rank" (cast (col "Rank") IntegerType) gamestb;
  gamestb ← withColumn E "Year" (cast (col "Year") DateType) gamestb;
  gamestb ← withColumn E "NA_Sales" (cast (col "NA_Sales") DoubleType) gamestb;
  gamestb ← withColumn E "EU_Sales" (cast (col "EU_Sales") DoubleType) gamestb;
  gamestb ← withColumn E "JP_Sales" (cast (col "JP_Sales") DoubleType) gamestb;
  gamestb ← withColumn E "Other_Sales" (cast (col "Other_Sales") DoubleType) gamestb;
  withColumn E "Global_Sales" (cast (col "Global_Sales") DoubleType) gamestb.

(** Cell "After finding null values further down this step was added to
    ensure below data is valid": the notebook calls [gamestb.dropna()] and
    does not keep what it returns. *)
Definition drop_null_step (gamestb : DataFrame) : DataFrame :=
  let _ := dropna gamestb in
  gamestb.

(** Cells "Format the year columns datatype as Year", "Validate the Global
    sales values", "Create a new dataframe with rank sorted desc" and
    "Repopulate rank based on Global_Sales and row pointer". *)
Definition data_corrector (gamestb : DataFrame) : option DataFrame :=
  let gamestb := drop_null_step gamestb in
  gamestb ← withColumn E "year" (date_format (col "year") "yyyy") gamestb;
  gamestb ← withColumn E "Global_Sales"
              (col "NA_Sales" + col "EU_Sales" + col "JP_Sales" + col "Other_Sales") gamestb;
  sorted_gamestb ← orderBy (desc "Global_Sales") gamestb;
  withColumn E "Rank" (monotonically_increasing_id + lit (DInt 1)) sorted_gamestb.

(** The five sums every rollup computes. *)
Definition sales_sums : list Aggregate :=
  [ sum_alias "NA_Sales" "Total_NA_Sales";
    sum_alias "EU_Sales" "Total_EU_Sales";
    sum_alias "JP_Sales" "Total_JP_Sales";
    sum_alias "Other_Sales" "Total_Other_Sales";
    sum_alias "Global_Sales" "Total_Global_Sales" ].

Definition regional_total : Column :=
  (col "Total_NA_Sales" + col "Total_EU_Sales" + col "Total_JP_Sales"
   + col "Total_Other_Sales")%column.

(** Cells "Create dataframe to aggregate sales by name" and "Calculate
    total sales per game". *)
Definition total_sales_df (gamestb : DataFrame) : option DataFrame :=
  total_sales_df ← agg sales_sums (groupBy "Name" gamestb);
  withColumn E "Game_Total_Sales" regional_total total_sales_df.

Definition gamestb_with_totals (gamestb : DataFrame) : option DataFrame :=
  total_sales_df ← total_sales_df gamestb;
  totals ← select E [col "Name"; col "Game_Total_Sales"] total_sales_df;
  join gamestb totals "Name" Left.

(** Cells "Create dataframe to aggregate sales by publisher" and
    "Calculate total sales by publisher". *)
Definition publisher_sales_df (gamestb : DataFrame) : option DataFrame :=
  publisher_sales_df ← agg sales_sums (groupBy "Publisher" gamestb);
  withColumn E "Total_Sales" regional_total publisher_sales_df.

Definition df_with_totals_and_publisher_sales (gamestb : DataFrame) : option DataFrame :=
  gamestb_with_totals ← gamestb_with_totals gamestb;
  publisher_sales_df ← publisher_sales_df gamestb;
  totals ← select E [col "Publisher"; col "Total_Sales"] publisher_sales_df;
  join gamestb_with_totals
       (withColumnRenamed "Total_Sales" "Publisher_Total_Sales" totals)
       "Publisher" Left.

(** Cells "Create a new dataframe to aggregate sales by platform" and
    "Calculate total sales by publisher" (the second cell of that title). *)
Definition platform_sales_df (gamestb : DataFrame) : option DataFrame :=
  platform_sales_df ← agg sales_sums (groupBy "Platform" gamestb);
  withColumn E "Platform_Total_Sales" regional_total platform_sales_df.

Definition df_with_totals_publisher_platform (gamestb : DataFrame) : option DataFrame :=
  df_with_totals_and_publisher_sales ← df_with_totals_and_publisher_sales gamestb;
  platform_sales_df ← platform_sales_df gamestb;
  totals ← select E [col "Platform"; col "Platform_Total_Sales"] platform_sales_df;
  join df_with_totals_and_publisher_sales totals "Platform" Left.

(** Cells "Create a new dataframe to aggregate sales by Genre" and
    "Calculate total sales by genre". *)
Definition genre_sales_df (gamestb : DataFrame) : option DataFrame :=
  genre_sales_df ← agg sales_sums (groupBy "Genre" gamestb);
  withColumn E "Genre_Total_Sales" regional_total genre_sales_df.

Definition df_with_totals_publisher_platform_genre (gamestb : DataFrame)
  : option DataFrame :=
  df_with_totals_publisher_platform ← df_with_totals_publisher_platform gamestb;
  genre_sales_df ← genre_sales_df gamestb;
  totals ← select E [col "Genre"; col "Genre_Total_Sales"] genre_sales_df;
  join df_with_totals_publisher_platform totals "Genre" Left.

(** Cell "Reorder the dataframe". *)
Definition reorder : list Column :=
  [ col "Rank"; col "Name"; col "Platform";
    alias (cast (col "year") DateType) "Year";
    col "Genre"; col "Publisher";
    col "NA_Sales"; col "EU_Sales"; col "JP_Sales"; col "Other_Sales";
    col "Global_Sales"; col "Game_Total_Sales"; col "Publisher_Total_Sales";
    col "Platform_Total_Sales"; col "Genre_Total_Sales" ].

(** The table the notebook exports, from the table it loaded. *)
Definition finalgames (gamestb : DataFrame) : option DataFrame :=
  gamestb ← schema_normalizer gamestb;
  gamestb ← data_corrector gamestb;
  df_with_totals_publisher_platform_genre ← df_with_totals_publisher_platform_genre gamestb;
  select E reorder df_with_totals_publisher_platform_genre.

(** Cell "Copy the dataframe into transformed-data". *)
Definition exporter (finalgames : DataFrame) (w : World) : option World :=
  fs ← write_csv E Overwrite transformed_data finalgames (dbfs w);
  Some {| dbfs := fs; metastore := metastore w |}.

(** One run of the notebook, up to the export.  A failing cell aborts the
    run; what earlier cells persisted stays. *)
Definition run (w : World) : World * bool :=
  match ingestion w with
  | None => (w, false)
  | Some (w1, gamestb) =>
      match finalgames gamestb ≫= (fun fg => exporter fg w1) with
      | None => (w1, false)
      | Some w2 => (w2, true)
      end
  end.
End Notebook.

(** ** A reference engine

    A concrete engine to run the notebook on concrete files.  Its parsers
    accept the plain forms found in [vgsales.csv] (decimal numbers, a year,
    a [yyyy-MM-dd] date) and reject every other string; its partitioning
    is given by the caller.  The theorems below hold for every engine;
    this one only serves to evaluate the notebook on examples. *)
Module Reference.

Definition digit_of (c : ascii) : option Z :=
  let n := nat_of_ascii c in
  if (48 <=? n)%nat && (n <=? 57)%nat then Some (Z.of_nat (n - 48)) else None.

Fixpoint parse_digits (acc : Z) (s : string) : option Z :=
  match s with
  | EmptyString => Some acc
  | String c s' => d ← digit_of c; parse_digits (10 * acc + d) s'
  end.

Definition parse_nat (s : string) : option Z :=
  match s with
  | EmptyString => None
  | _ => parse_digits 0 s
  end.

Definition parse_signed {A} (parse : string -> option A) (neg : A -> A) (s : string)
  : option A :=
  match s with
  | String "-" s' => neg <$> parse s'
  | _ => parse s
  end.

Definition cast_int (s : string) : option Z :=
  z ← parse_signed parse_nat Z.opp s;
  if (- 2 ^ 31 <=? z) && (z <? 2 ^ 31) then Some z else None.

(** The text before the first ["."], and the text after it if there is one. *)
Fixpoint split_dot (s : string) : string * option string :=
  match s with
  | EmptyString => (EmptyString, None)
  | String "." s' => (EmptyString, Some s')
  | String c s' => let '(a, b) := split_dot s' in (String c a, b)
  end.

Definition float_of_Z (z : Z) : float := of_uint63 (Uint63.of_Z z).

(** [digits.digits] as the nearest double: both the digits, read as an
    integer below 2^53, and the power of ten, at most 10^22, are doubles,
    and the division rounds to nearest. *)
Definition parse_decimal (s : string) : option float :=
  let '(ip, fp) := split_dot s in
  i ← parse_nat ip;
  f ← match fp with
      | None => Some (0, 0%nat)
      | Some fs => (fun v => (v, String.length fs)) <$> parse_nat fs
      end;
  let m := i * 10 ^ Z.of_nat f.2 + f.1 in
  if (m <? 2 ^ 53) && (f.2 <=? 22)%nat
  then Some (float_of_Z m / float_of_Z (10 ^ Z.of_nat f.2))%float
  else None.

Definition cast_double (s : string) : option float :=
  parse_signed parse_decimal PrimFloat.opp s.

Definition leap (y : Z) : bool :=
  ((y mod 4 =? 0) && negb (y mod 100 =? 0)) || (y mod 400 =? 0).

Definition days_in_month (y m : Z) : Z :=
  if m =? 2 then (if leap y then 29 else 28)
  else if (m =? 4) || (m =? 6) || (m =? 9) || (m =? 11) then 30 else 31.

Definition cast_date (s : string) : option date :=
  match String.length s with
  | 4%nat => (fun y => mkDate y 1 1) <$> parse_nat s
  | 10%nat =>
      y ← parse_nat (substring 0 4 s);
      m ← parse_nat (substring 5 2 s);
      d ← parse_nat (substring 8 2 s);
      if String.eqb (substring 4 1 s) "-" && String.eqb (substring 7 1 s) "-"
         && (1 <=? m) && (m <=? 12) && (1 <=? d) && (d <=? days_in_month y m)
      then Some (mkDate y m d) else None
  | _ => None
  end.

Fixpoint zeros (n : nat) : string :=
  match n with
  | O => EmptyString
  | S n' => String "0" (zeros n')
  end.

Definition pad_left (n : nat) (s : string) : string :=
  zeros (n - String.length s) ++ s.

Definition show_digits (width : nat) (z : Z) : string := pad_left width (pretty z).

Definition show_date (d : date) : string :=
  show_digits 4 (d_year d) ++ "-" ++ show_digits 2 (d_month d) ++ "-"
  ++ show_digits 2 (d_day d).

Definition format_date (d : date) (fmt : string) : string :=
  if String.eqb fmt "yyyy" then show_digits 4 (d_year d) else show_date d.

Fixpoint strip_zeros (rev_digits : list ascii) : list ascii :=
  match rev_digits with
  | "0"%char :: (_ :: _) as l => strip_zeros l
  | l => l
  end.

(** The exact decimal expansion of a double. *)
Definition show_double (x : float) : string :=
  match Prim2SF x with
  | S754_zero s => if s then "-0.0" else "0.0"
  | S754_infinity s => if s then "-Infinity" else "Infinity"
  | S754_nan => "NaN"
  | S754_finite s m e =>
      (if s then "-" else "") ++
      (if 0 <=? e then pretty (Z.pos m * 2 ^ e) ++ ".0"
       else
         let k := Z.to_nat (- e) in
         let frac := show_digits k ((Z.pos m mod 2 ^ (- e)) * 5 ^ (- e)) in
         pretty (Z.pos m / 2 ^ (- e)) ++ "."
         ++ string_of_list_ascii (rev (strip_zeros (rev (list_ascii_of_string frac)))))
  end.

Definition csv_text (d : data) : string :=
  match d with
  | DString s => s
  | DInt z | DLong z => pretty z
  | DDate x => show_date x
  | DDouble x => show_double x
  | DBool b => if b then "true" else "false"
  end.

(** The reference engine whose DataFrames all have the given leading
    partition sizes. *)
Definition engine (sizes : list nat) : Engine :=
  mkEngine cast_int cast_date cast_double format_date csv_text (fun _ => sizes).

End Reference.

(** The header of [vgsales.csv]. *)
Definition vgsales_header : list string :=
  [ "Rank"; "Name"; "Platform"; "Year"; "Genre"; "Publisher";
    "NA_Sales"; "EU_Sales"; "JP_Sales"; "Other_Sales"; "Global_Sales" ].

Definition vgsales (recs : list (list (option string))) : CsvFile :=
  {| header := vgsales_header; records := recs |}.

(** ** pandas

    What the two "Top Ranked Games" chart cells use of pandas: a frame with
    a row index, a column taken out of it as a series, [Series.map] with a
    dict, and the assignment of a series to a column, which aligns the
    series with the frame on the index labels. *)
Record Series := mkSeries { s_index : list Z; s_values : list cell }.

Record PandasFrame := mkPandasFrame {
  pd_columns : list string;
  pd_index : list Z;
  pd_rows : list Row;
}.

(** [df.toPandas()]: the rows, labelled 0, 1, 2, ... *)
Definition toPandas (df : DataFrame) : PandasFrame :=
  {| pd_columns := columns df;
     pd_index := Z.of_nat <$> seq 0 (length (rows df));
     pd_rows := rows df |}.

(** Position of the column with exactly this name. *)
Definition position (name : string) (cols : list string) : option nat :=
  fst <$> list_find (fun c => c = name) cols.

(** [frame[name]]; [None] is a [KeyError]. *)
Definition getitem (name : string) (pf : PandasFrame) : option Series :=
  i ← position name (pd_columns pf);
  Some {| s_index := pd_index pf; s_values := cell_at i <$> pd_rows pf |}.

(** [series.map(d)] for a dict [d]: a value that is not a key of the dict
    becomes NaN, here NULL. *)
Definition dict_get (d : gmap string string) (c : cell) : cell :=
  match c with
  | Some (DString k) => DString <$> d !! k
  | _ => None
  end.

Definition series_map (d : gmap string string) (s : Series) : Series :=
  {| s_index := s_index s; s_values := dict_get d <$> s_values s |}.

(** The value of a series at a label, NaN when the label is not in its index. *)
Definition series_at (s : Series) (label : Z) : cell :=
  match list_find (fun l => l = label) (s_index s) with
  | Some (i, _) => cell_at i (s_values s)
  | None => None
  end.

(** [frame[name] = series]: row by row, the value the series has at the
    row's label. *)
Definition setitem (name : string) (s : Series) (pf : PandasFrame) : PandasFrame :=
  match position name (pd_columns pf) with
  | Some i =>
      {| pd_columns := pd_columns pf;
         pd_index := pd_index pf;
         pd_rows := zip_with (fun label r => <[i := series_at s label]> r)
                             (pd_index pf) (pd_rows pf) |}
  | None =>
      {| pd_columns := pd_columns pf ++ [name];
         pd_index := pd_index pf;
         pd_rows := zip_with (fun label r => r ++ [series_at s label])
                             (pd_index pf) (pd_rows pf) |}
  end.

(** ** The two "Top Ranked Games" chart cells *)

(** [platform_colors] as the cell "Top Ranked Games Visualisation with
    Plotly" binds it. *)
Definition platform_colors : gmap string string :=
  list_to_map
    [ ("Wii", "blue"); ("NES", "green"); ("Gameboy", "red"); ("DS", "purple");
      ("Mobile", "orange"); ("Switch", "yellow") ].

(** [platform_colors] as the cell "Top 10 Ranked since 2010 Visualisation
    with Plotly" binds it again. *)
Definition platform_colors_2010 : gmap string string :=
  list_to_map
    [ ("PS3", "blue"); ("X360", "green"); ("PS4", "red"); ("DS", "purple");
      ("3DS", "orange") ].

Section Charts.
Context (E : Engine).

(** Cell "Top Ranked Games". *)
Definition top_ranked_games (finalgames : DataFrame) : option DataFrame :=
  selected ← select E [col "Rank"; col "Name"; col "Platform"; col "Global_Sales";
                       col "Year"] finalgames;
  ordered ← orderBy (asc "Rank") selected;
  Some (limit 10 ordered).

(** Cell "Top Ranked Games Visualisation with Plotly": the frame
    [top_ranked_games_pd] as the cell leaves it.  (The figure itself is
    drawn from the [Platform] column with [color_discrete_map]; drawing
    changes no variable.) *)
Definition top_ranked_games_pd (finalgames : DataFrame) : option PandasFrame :=
  top_ranked_games ← top_ranked_games finalgames;
  let top_ranked_games_pd := toPandas top_ranked_games in
  platform ← getitem "Platform" top_ranked_games_pd;
  Some (setitem "Color" (series_map platform_colors platform) top_ranked_games_pd).

(** Cell "Top 10 Ranked Games since 2010". *)
Definition top_ranked_games_2010 (finalgames : DataFrame) : option DataFrame :=
  selected ← select E [col "Rank"; col "Name"; col "Platform"; col "Global_Sales";
                       col "Year"] finalgames;
  since ← filter_rows E (ge (col "Year") (lit (DString "2010-01-01"))) selected;
  ordered ← orderBy (asc "Rank") since;
  Some (limit 10 ordered).

(** Cell "Top 10 Ranked since 2010 Visualisation with Plotly": the frame
    [top_ranked_games_2010_pd] as the cell leaves it.  The right-hand side
    of the assignment reads [top_ranked_games_pd], the frame of the
    earlier cell. *)
Definition top_ranked_games_2010_pd (finalgames : DataFrame) : option PandasFrame :=
  top_ranked_games_pd ← top_ranked_games_pd finalgames;
  top_ranked_games_2010 ← top_ranked_games_2010 finalgames;
  let top_ranked_games_2010_pd := toPandas top_ranked_games_2010 in
  platform ← getitem "Platform" top_ranked_games_pd;
  Some (setitem "Color" (series_map platform_colors_2010 platform)
                top_ranked_games_2010_pd).
End Charts.

(** ** Vocabulary of the statements *)

(** The expression does not call [monotonically_increasing_id]. *)
Fixpoint pure (c : Column) : bool :=
  match c with
  | col _ | lit _ => true
  | monotonically_increasing_id => false
  | cast c _ | alias c _ | date_format c _ => pure c
  | plus a b | ge a b => pure a && pure b
  end.

(** The cell of a DataFrame at a row number and a column name. *)
Definition lookup_cell (df : DataFrame) (n : nat) (name : string) : option cell :=
  r ← rows df !! n;
  p ← resolve (columns df) name;
  Some (cell_at p r).

(** Every row has one cell per column. *)
Definition well_formed (df : DataFrame) : Prop :=
  Forall (fun r : Row => length r = length (columns df)) (rows df).

(** The cell the CSV reader makes of field [i] of a record. *)
Definition raw_cell (i : nat) (r : list (option string)) : cell :=
  DString <$> mjoin (r !! i).

Definition cast_cell (E : Engine) (t : DataType) (c : cell) : cell :=
  c ≫= cast_data E t.

(** The row the Schema Normalizer makes of a record of [vgsales.csv]. *)
Definition normalized_row (E : Engine) (r : list (option string)) : Row :=
  [ cast_cell E IntegerType (raw_cell 0 r);
    raw_cell 1 r; raw_cell 2 r;
    cast_cell E DateType (raw_cell 3 r);
    raw_cell 4 r; raw_cell 5 r;
    cast_cell E DoubleType (raw_cell 6 r);
    cast_cell E DoubleType (raw_cell 7 r);
    cast_cell E DoubleType (raw_cell 8 r);
    cast_cell E DoubleType (raw_cell 9 r);
    cast_cell E DoubleType (raw_cell 10 r) ].

(** The columns of the corrected table. *)
Definition corrected_header : list string :=
  [ "Rank"; "Name"; "Platform"; "year"; "Genre"; "Publisher";
    "NA_Sales"; "EU_Sales"; "JP_Sales"; "Other_Sales"; "Global_Sales" ].

(** [NA_Sales + EU_Sales + JP_Sales + Other_Sales] of a record. *)
Definition recomputed_global (E : Engine) (r : list (option string)) : cell :=
  sql_add (sql_add (sql_add (cast_cell E DoubleType (raw_cell 6 r))
                            (cast_cell E DoubleType (raw_cell 7 r)))
                   (cast_cell E DoubleType (raw_cell 8 r)))
          (cast_cell E DoubleType (raw_cell 9 r)).

(** The year of a record as [date_format(..., "yyyy")] leaves it. *)
Definition year_text (E : Engine) (r : list (option string)) : cell :=
  cast_cell E DateType (raw_cell 3 r) ≫= date_format_data E "yyyy".

(** The row of a record once the year is formatted and the global sales
    are recomputed, before the rank is reassigned. *)
Definition unranked_row (E : Engine) (r : list (option string)) : Row :=
  [ cast_cell E IntegerType (raw_cell 0 r);
    raw_cell 1 r; raw_cell 2 r; year_text E r; raw_cell 4 r; raw_cell 5 r;
    cast_cell E DoubleType (raw_cell 6 r);
    cast_cell E DoubleType (raw_cell 7 r);
    cast_cell E DoubleType (raw_cell 8 r);
    cast_cell E DoubleType (raw_cell 9 r);
    recomputed_global E r ].

(** The records in the order [orderBy(col("Global_Sales").desc())] puts
    them. *)
Definition sorted_records (E : Engine) (recs : list (list (option string)))
  : list (list (option string)) :=
  stable_sort (fun x y => before_desc (recomputed_global E x) (recomputed_global E y)) recs.

(** The ids [monotonically_increasing_id()] gives the sorted rows. *)
Definition rank_ids (E : Engine) (recs : list (list (option string))) : list Z :=
  row_ids E (unranked_row E <$> sorted_records E recs).

(** The row of a record in the corrected table, given its id. *)
Definition ranked_row (E : Engine) (id : Z) (r : list (option string)) : Row :=
  [ Some (DLong (wrap64 (id + 1)));
    raw_cell 1 r; raw_cell 2 r; year_text E r; raw_cell 4 r; raw_cell 5 r;
    cast_cell E DoubleType (raw_cell 6 r);
    cast_cell E DoubleType (raw_cell 7 r);
    cast_cell E DoubleType (raw_cell 8 r);
    cast_cell E DoubleType (raw_cell 9 r);
    recomputed_global E r ].

Definition corrected_rows (E : Engine) (recs : list (list (option string))) : list Row :=
  (fun ir => ranked_row E ir.1 ir.2) <$> zip (rank_ids E recs) (sorted_records E recs).

(** The corrected table of a file: what the Schema Normalizer and the Data
    Corrector make of it. *)
Definition corrected (E : Engine) (f : CsvFile) : option DataFrame :=
  schema_normalizer E (read_csv f) ≫= data_corrector E.

(** What decides whether two values are equal as grouping or join keys:
    doubles are compared as numbers, all other values as they are. *)
Inductive key :=
| KString (s : string) | KInt (z : Z) | KLong (z : Z) | KDate (d : date)
| KZero | KInfinity (s : bool) | KNaN | KFinite (s : bool) (m : positive) (e : Z)
| KBool (b : bool).

Definition data_key (d : data) : key :=
  match d with
  | DString s => KString s
  | DInt z => KInt z
  | DLong z => KLong z
  | DDate x => KDate x
  | DDouble x =>
      match Prim2SF x with
      | S754_zero _ => KZero
      | S754_infinity s => KInfinity s
      | S754_nan => KNaN
      | S754_finite s m e => KFinite s m e
      end
  | DBool b => KBool b
  end.

(** The sum of column [j] over the rows whose column [i] is the key [k]. *)
Definition group_sum (i j : nat) (rs : list Row) (k : cell) : cell :=
  sql_sum (cell_at j <$> List.filter (fun r => group_eqb (cell_at i r) k) rs).

(** The total a rollup of the corrected table gives a key: the sum of the
    four regional sums of its group. *)
Definition rollup_total (i : nat) (rs : list Row) (k : cell) : cell :=
  sql_add (sql_add (sql_add (group_sum i 6 rs k) (group_sum i 7 rs k))
                   (group_sum i 8 rs k))
          (group_sum i 9 rs k).

(** The total a left join finds for a row whose key is [c]. *)
Definition lookup_total (t : cell -> cell) (keys : list cell) (c : cell) : cell :=
  match List.find (join_eqb c) keys with
  | Some k => t k
  | None => None
  end.

(** The rollup column of the corrected table [rs], grouped on column [i],
    at a row whose key is [c]. *)
Definition rollup (i : nat) (rs : list Row) (c : cell) : cell :=
  lookup_total (rollup_total i rs) (distinct (cell_at i <$> rs)) c.

(** The row a left join on column [i] makes of a left row, when the right
    side holds one total per key: the key first, then the other cells, then
    the total found for the key. *)
Definition joined_row (i : nat) (total : cell -> cell) (l : Row) : Row :=
  cell_at i l :: delete i l ++ [total (cell_at i l)].

(** The columns of the exported table. *)
Definition final_header : list string :=
  [ "Rank"; "Name"; "Platform"; "Year"; "Genre"; "Publisher";
    "NA_Sales"; "EU_Sales"; "JP_Sales"; "Other_Sales"; "Global_Sales";
    "Game_Total_Sales"; "Publisher_Total_Sales"; "Platform_Total_Sales";
    "Genre_Total_Sales" ].

(** The row of a record in the exported table, given its id and the rows
    [rs] of the corrected table. *)
Definition final_row (E : Engine) (rs : list Row) (id : Z) (r : list (option string)) : Row :=
  [ Some (DLong (wrap64 (id + 1)));
    raw_cell 1 r; raw_cell 2 r;
    cast_cell E DateType (year_text E r);
    raw_cell 4 r; raw_cell 5 r;
    cast_cell E DoubleType (raw_cell 6 r);
    cast_cell E DoubleType (raw_cell 7 r);
    cast_cell E DoubleType (raw_cell 8 r);
    cast_cell E DoubleType (raw_cell 9 r);
    recomputed_global E r;
    rollup 1 rs (raw_cell 1 r);
    rollup 5 rs (raw_cell 5 r);
    rollup 2 rs (raw_cell 2 r);
    rollup 4 rs (raw_cell 4 r) ].

Definition final_rows (E : Engine) (recs : list (list (option string))) : list Row :=
  (fun ir => final_row E (corrected_rows E recs) ir.1 ir.2)
  <$> zip (rank_ids E recs) (sorted_records E recs).

(** The casts of the Schema Normalizer: column and target type. *)
Definition cast_targets : list (string * DataType) :=
  [ ("Rank", IntegerType); ("Year", DateType);
    ("NA_Sales", DoubleType); ("EU_Sales", DoubleType); ("JP_Sales", DoubleType);
    ("Other_Sales", DoubleType); ("Global_Sales", DoubleType) ].

(** The cell of a row of a DataFrame under a column name. *)
Definition row_cell (df : DataFrame) (name : string) (r : Row) : cell :=
  match resolve (columns df) name with
  | Some p => cell_at p r
  | None => None
  end.

(** Where a join on column [i] puts the cell that was at position [p]. *)
Definition moved (i p : nat) : nat :=
  if decide (p = i) then 0%nat else if decide (p < i)%nat then S p else p.

(** Every column of [cols] resolves in [cols] and in [cols'], and in
    [cols'] at the position a join on column [i] moves it to. *)
Definition columns_moved (i : nat) (cols cols' : list string) : bool :=
  forallb
    (fun c =>
       match resolve cols c, resolve cols' c with
       | Some p, Some p' => bool_decide (p' = moved i p) && bool_decide (p < length cols)%nat
       | _, _ => false
       end)
    cols.

(** [after] is [before] with one more column, called [name]: the same
    number of rows, and every cell [before] has, row by row and column by
    column, unchanged. *)
Definition adds_one_column (name : string) (before after : DataFrame) : Prop :=
  (name ∉ columns before) /\
  (columns after ≡ₚ columns before ++ [name]) /\
  length (rows after) = length (rows before) /\
  forall n c, (n < length (rows before))%nat -> c ∈ columns before ->
    exists v, lookup_cell before n c = Some v /\ lookup_cell after n c = Some v.

(** The world of a first run on the file [f]: the file is at the raw-data
    path, and no table [gamestb] exists yet. *)
Definition fresh_world (f : CsvFile) (fs : gmap string CsvFile)
    (ms : gmap string DataFrame) : World :=
  {| dbfs := <[raw_data := f]> fs; metastore := delete "gamestb" ms |}.

(** The raw file replaced by [f]. *)
Definition upload (f : CsvFile) (w : World) : World :=
  {| dbfs := <[raw_data := f]> (dbfs w); metastore := metastore w |}.

(** ** Example files *)

(** A file whose second record has no release year ([N/A], as in
    [vgsales.csv]). *)
Definition null_year_file : CsvFile :=
  vgsales
    [ [ Some "1"; Some "Alpha"; Some "Wii"; Some "2006"; Some "Sports"; Some "Acme";
        Some "1.0"; Some "2.0"; Some "0.0"; Some "0.5"; Some "99.0" ];
      [ Some "2"; Some "Beta"; Some "PS3"; Some "N/A"; Some "Action"; Some "Acme";
        Some "4.0"; Some "2.0"; Some "0.0"; Some "0.5"; Some "6.5" ] ].

(** Two complete records. *)
Definition two_games_file : CsvFile :=
  vgsales
    [ [ Some "1"; Some "Wii Sports"; Some "Wii"; Some "2006"; Some "Sports";
        Some "Nintendo"; Some "41.49"; Some "29.02"; Some "3.77"; Some "8.46";
        Some "82.74" ];
      [ Some "2"; Some "Grand Theft Auto V"; Some "PS3"; Some "2013"; Some "Action";
        Some "Take-Two Interactive"; Some "7.01"; Some "9.27"; Some "0.97";
        Some "4.14"; Some "21.4" ] ].

(** Two records of one publisher with global sales 1.0 and 2.0. *)
Definition acme_file : CsvFile :=
  vgsales
    [ [ Some "1"; Some "Alpha"; Some "Wii"; Some "2006"; Some "Sports"; Some "Acme";
        Some "1.0"; Some "0.0"; Some "0.0"; Some "0.0"; Some "1.0" ];
      [ Some "2"; Some "Beta"; Some "PS3"; Some "2007"; Some "Action"; Some "Acme";
        Some "2.0"; Some "0.0"; Some "0.0"; Some "0.0"; Some "2.0" ] ].

(** The same two records, the first with an [EU_Sales] field that is not a
    number. *)
Definition acme_file_bad_cell : CsvFile :=
  vgsales
    [ [ Some "1"; Some "Alpha"; Some "Wii"; Some "2006"; Some "Sports"; Some "Acme";
        Some "1.0"; Some "abc"; Some "0.0"; Some "0.0"; Some "1.0" ];
      [ Some "2"; Some "Beta"; Some "PS3"; Some "2007"; Some "Action"; Some "Acme";
        Some "2.0"; Some "0.0"; Some "0.0"; Some "0.0"; Some "2.0" ] ].

(** The [Color] column of a pandas frame made of a five-column query. *)
Definition color_column (pf : PandasFrame) : list cell := cell_at 5 <$> pd_rows pf.

(** The reading of the since-2010 chart cell under which its [Color] column
    is taken from the [Color] column the first chart cell computed: every
    colour of the since-2010 frame is the colour the first frame has in the
    row with the same label. *)
Definition colors_read_from_first_color_column (E : Engine) (finalgames : DataFrame) : Prop :=
  forall first since,
    top_ranked_games_pd E finalgames = Some first ->
    top_ranked_games_2010_pd E finalgames = Some since ->
    forall n c, color_column since !! n = Some c -> color_column first !! n = Some c.

(** The table the notebook exports for a file on the reference engine with
    one partition (the empty table if the notebook fails). *)
Definition exported (f : CsvFile) : DataFrame :=
  default (mkDataFrame [] []) (finalgames (Reference.engine []) (read_csv f)).

(** The results of the two top-ranked queries on that table. *)
Definition all_time_query (f : CsvFile) : DataFrame :=
  default (mkDataFrame [] []) (top_ranked_games (Reference.engine []) (exported f)).

Definition since_2010_query (f : CsvFile) : DataFrame :=
  default (mkDataFrame [] []) (top_ranked_games_2010 (Reference.engine []) (exported f)).

(** [r2] may follow [r1] in descending order of [Global_Sales], NULLs last:
    [r2] does not sort strictly before [r1]. *)
Definition may_follow (df : DataFrame) (r1 r2 : Row) : Prop :=
  before_desc (row_cell df "Global_Sales" r2) (row_cell df "Global_Sales" r1) = false.

(** The rows of a table with a given key in a column. *)
Definition group_rows (df : DataFrame) (name : string) (k : cell) : list Row :=
  List.filter (fun r => group_eqb (row_cell df name r) k) (rows df).

(** The sum of the four regional sums over some rows of a table. *)
Definition regional_sums (df : DataFrame) (group : list Row) : cell :=
  sql_add (sql_add (sql_add (sql_sum (row_cell df "NA_Sales" <$> group))
                            (sql_sum (row_cell df "EU_Sales" <$> group)))
                   (sql_sum (row_cell df "JP_Sales" <$> group)))
          (sql_sum (row_cell df "Other_Sales" <$> group)).

(** The four rollups: grouping column and total column. *)
Definition rollups : list (string * string) :=
  [ ("Name", "Game_Total_Sales"); ("Publisher", "Publisher_Total_Sales");
    ("Platform", "Platform_Total_Sales"); ("Genre", "Genre_Total_Sales") ].

(** A later run: the raw file is replaced by [f], then the notebook runs. *)
Definition rerun (E : Engine) (w : World) (f : CsvFile) : World :=
  (run E (upload f w)).1.

(** ** Report queries

    The cells after the export, and the two "All time top 10" cells before
    the correction.  They call, beyond the operations above, [filter] with
    the conditions [==], [contains] and [&], [distinct()], [groupBy] on two
    columns and [countDistinct]. *)

(** [==]: NULL if either side is NULL.  As for [>=], a date compared with a
    string literal has the literal cast to a date first. *)
Definition sql_eq (E : Engine) (a b : cell) : cell :=
  match a, b with
  | Some (DDate x), Some (DString s) =>
      y ← cast_string_date E s;
      Some (DBool (match date_compare x y with Eq => true | _ => false end))
  | Some x, Some y => Some (DBool (data_eqb x y))
  | _, _ => None
  end.

(** [sub] occurs in [s]. *)
Fixpoint occurs_in (sub s : string) : bool :=
  String.prefix sub s
  || match s with
     | EmptyString => false
     | String _ s' => occurs_in sub s'
     end.

(** The string operand of [contains]: a string as it is, a date cast to a
    string, [yyyy-MM-dd] (Spark casts the operands of [contains] to
    strings).  Values of the other types are never given to [contains] by
    the notebook and read as NULL. *)
Definition string_operand (c : cell) : option string :=
  match c with
  | Some (DString s) => Some s
  | Some (DDate d) => Some (Reference.show_date d)
  | _ => None
  end.

(** [contains]: NULL if either side is NULL. *)
Definition sql_contains (a b : cell) : cell :=
  s ← string_operand a;
  sub ← string_operand b;
  Some (DBool (occurs_in sub s)).

(** [&]: SQL's three-valued conjunction. *)
Definition sql_and (a b : cell) : cell :=
  match a, b with
  | Some (DBool false), _ | _, Some (DBool false) => Some (DBool false)
  | Some (DBool true), Some (DBool true) => Some (DBool true)
  | _, _ => None
  end.

(** The conditions the report cells filter on. *)
Inductive Condition :=
| equals (c1 c2 : Column)
| contains (c1 c2 : Column)
| both (p q : Condition).

Fixpoint analyze_condition (cols : list string) (p : Condition) : bool :=
  match p with
  | equals a b | contains a b => analyze cols a && analyze cols b
  | both p q => analyze_condition cols p && analyze_condition cols q
  end.

Fixpoint eval_condition (E : Engine) (cols : list string) (id : Z) (r : Row)
    (p : Condition) : cell :=
  match p with
  | equals a b => sql_eq E (eval E cols id r a) (eval E cols id r b)
  | contains a b => sql_contains (eval E cols id r a) (eval E cols id r b)
  | both p q => sql_and (eval_condition E cols id r p) (eval_condition E cols id r q)
  end.

(** [df.filter(p)] for such a condition: the rows on which it is true. *)
Definition filter_where (E : Engine) (p : Condition) (df : DataFrame) : option DataFrame :=
  if analyze_condition (columns df) p then
    Some {| columns := columns df;
            rows := snd <$> List.filter
                      (fun ir : Z * Row =>
                         match eval_condition E (columns df) ir.1 ir.2 p with
                         | Some (DBool true) => true
                         | _ => false
                         end)
                      (with_ids E (rows df)) |}
  else None.

(** Two rows are the same row to [distinct()] and the same key to
    [groupBy]: equal cell by cell, NULL equal to NULL. *)
Fixpoint row_eqb (r1 r2 : Row) : bool :=
  match r1, r2 with
  | [], [] => true
  | a :: r1', b :: r2' => group_eqb a b && row_eqb r1' r2'
  | _, _ => false
  end.

(** The distinct rows, in order of first appearance. *)
Fixpoint distinct_rows (rs : list Row) : list Row :=
  match rs with
  | [] => []
  | r :: rs' => r :: List.filter (fun r' => negb (row_eqb r r')) (distinct_rows rs')
  end.

(** [df.distinct()], which is [df.dropDuplicates()]. *)
Definition dropDuplicates (df : DataFrame) : DataFrame :=
  {| columns := columns df; rows := distinct_rows (rows df) |}.

(** [parent[name]] used on a DataFrame selected from [parent] with the
    select list [cs]: the reference is to the parent's column, which the
    selection holds under the name the select list gives it. *)
Fixpoint refers_to (name : string) (c : Column) : bool :=
  match c with
  | col n => resolver n name
  | alias c _ => refers_to name c
  | _ => false
  end.

Definition selected_as (cs : list Column) (name : string) : option string :=
  output_name <$> List.find (refers_to name) cs.

(** *** [groupBy(name, ...).agg(...)] with [sum] and [countDistinct] *)

Inductive AggregateFunction :=
| sum_of (column : string)
| countDistinct (column : string).

(** [f.alias(name)] *)
Record NamedAggregate := aliased { agg_function : AggregateFunction; agg_alias : string }.

Definition agg_source (a : NamedAggregate) : string :=
  match agg_function a with sum_of c | countDistinct c => c end.

(** [countDistinct] counts the distinct values that are not NULL. *)
Definition count_distinct (cs : list cell) : cell :=
  Some (DLong (Z.of_nat (length (distinct
    (List.filter (fun c : cell => bool_decide (is_Some c)) cs))))).

Definition apply_aggregate (a : NamedAggregate) (cs : list cell) : cell :=
  match agg_function a with
  | sum_of _ => sql_sum cs
  | countDistinct _ => count_distinct cs
  end.

Record GroupedColumns := mkGroupedColumns { grouping_columns : list string; grouped_frame : DataFrame }.

Definition groupByColumns (names : list string) (df : DataFrame) : GroupedColumns :=
  {| grouping_columns := names; grouped_frame := df |}.

(** The cells of a row at the positions [ps]. *)
Definition key_of (ps : list nat) (r : Row) : Row := (fun i => cell_at i r) <$> ps.

Definition aggregate (aggs : list NamedAggregate) (g : GroupedColumns) : option DataFrame :=
  let df := grouped_frame g in
  ps ← mapM (resolve (columns df)) (grouping_columns g);
  js ← mapM (fun a => resolve (columns df) (agg_source a)) aggs;
  Some {| columns := grouping_columns g ++ (agg_alias <$> aggs);
          rows := (fun k =>
                     let members := List.filter (fun r => row_eqb (key_of ps r) k) (rows df) in
                     k ++ ((fun aj : NamedAggregate * nat =>
                              apply_aggregate aj.1 (cell_at aj.2 <$> members))
                           <$> zip aggs js))
                  <$> distinct_rows (key_of ps <$> rows df) |}.

Section Reports.
Context (E : Engine).

(** Cell "All time top 10 sales": the table the cell shows. *)
Definition top_10_highest_sales (gamestb : DataFrame) : option DataFrame :=
  ordered ← orderBy (asc "Rank") gamestb;
  Some (limit 10 ordered).

(** Cell "All time top 10 action games": the table the cell shows. *)
Definition top_10_action_games (gamestb : DataFrame) : option DataFrame :=
  ordered ← orderBy (asc "Rank") gamestb;
  action ← filter_where E (contains (col "Genre") (lit (DString "Action"))) ordered;
  Some (limit 10 action).

(** Cell "Game Popularity". *)
Definition all_time_top_10 (finalgames : DataFrame) : option DataFrame :=
  let cs := [col "Name"; alias (col "Game_Total_Sales") "Total Sales"] in
  selected ← select E cs finalgames;
  key ← selected_as cs "Game_Total_Sales";
  ordered ← orderBy (desc key) (dropDuplicates selected);
  Some (limit 10 ordered).

(** Cell "Genre Popularity". *)
Definition all_time_genre (finalgames : DataFrame) : option DataFrame :=
  let cs := [col "Genre"; alias (col "Genre_Total_Sales") "Total Sales"] in
  selected ← select E cs finalgames;
  key ← selected_as cs "Genre_Total_Sales";
  orderBy (desc key) (dropDuplicates selected).

(** Cell "Platform Popularity". *)
Definition all_time_top_10_platform (finalgames : DataFrame) : option DataFrame :=
  let cs := [col "Platform"; col "Platform_Total_Sales"] in
  selected ← select E cs finalgames;
  key ← selected_as cs "Platform_Total_Sales";
  ordered ← orderBy (desc key) (dropDuplicates selected);
  Some (limit 10 ordered).

(** Cell "Publisher Popularity". *)
Definition all_time_top_10_publisher (finalgames : DataFrame) : option DataFrame :=
  let cs := [col "Publisher"; col "Publisher_Total_Sales"] in
  selected ← select E cs finalgames;
  key ← selected_as cs "Publisher_Total_Sales";
  ordered ← orderBy (desc key) (dropDuplicates selected);
  Some (limit 10 ordered).

(** Cell "Top 10 PS4 Games". *)
Definition top_10_ps4 (finalgames : DataFrame) : option DataFrame :=
  let cs := [col "Name"; col "Platform"; col "Global_Sales"] in
  selected ← select E cs finalgames;
  ps4 ← filter_where E (equals (col "Platform") (lit (DString "PS4"))) selected;
  key ← selected_as cs "Global_Sales";
  ordered ← orderBy (desc key) ps4;
  Some (limit 10 ordered).

(** Cell "Top 10 Games in 2001". *)
Definition top_10_2001 (finalgames : DataFrame) : option DataFrame :=
  let cs := [col "Name"; col "Year"; col "Game_Total_Sales"] in
  selected ← select E cs finalgames;
  in_2001 ← filter_where E (contains (col "Year") (lit (DString "2001"))) selected;
  key ← selected_as cs "Game_Total_Sales";
  ordered ← orderBy (desc key) (dropDuplicates in_2001);
  Some (limit 10 ordered).

(** Cell "Top 10 Action Games in 2010". *)
Definition action_games_2010 (finalgames : DataFrame) : option DataFrame :=
  filter_where E (both (equals (col "Year") (lit (DString "2010")))
                       (equals (col "Genre") (lit (DString "Action")))) finalgames.

Definition action_sales_2010 (finalgames : DataFrame) : option DataFrame :=
  action_games_2010 ← action_games_2010 finalgames;
  agg [sum_alias "Global_Sales" "Total Sales"] (groupBy "Name" action_games_2010).

Definition top_10_action_2010 (finalgames : DataFrame) : option DataFrame :=
  action_sales_2010 ← action_sales_2010 finalgames;
  ordered ← orderBy (desc "Total Sales") action_sales_2010;
  Some (limit 10 ordered).

(** Cell "Top 10 Games in the EU in 2012". *)
Definition games_2012 (finalgames : DataFrame) : option DataFrame :=
  filter_where E (equals (col "Year") (lit (DString "2012"))) finalgames.

Definition eu_sales_by_game (finalgames : DataFrame) : option DataFrame :=
  games_2012 ← games_2012 finalgames;
  agg [sum_alias "EU_Sales" "Total EU Sales"] (groupBy "Name" games_2012).

Definition top_10_eu_2012 (finalgames : DataFrame) : option DataFrame :=
  eu_sales_by_game ← eu_sales_by_game finalgames;
  ordered ← orderBy (desc "Total EU Sales") eu_sales_by_game;
  Some (limit 10 ordered).

(** Cell "Activision Performance Over Time". *)
Definition publisher_performance_over_time (finalgames : DataFrame) : option DataFrame :=
  sums ← aggregate [aliased (sum_of "Global_Sales") "Total Sales"]
                   (groupByColumns ["Year"; "Publisher"] finalgames);
  activision ← filter_where E (equals (col "Publisher") (lit (DString "Activision"))) sums;
  orderBy (desc "Year") activision.

(** Cell "Validation One Year per Game". *)
Definition just_cause_2_df (finalgames : DataFrame) : option DataFrame :=
  selected ← select E [col "Name"; col "Year"] finalgames;
  filter_where E (equals (col "Name") (lit (DString "Just Cause 2"))) selected.

(** Cell "Games Released Per Year". *)
Definition games_released_per_year (finalgames : DataFrame) : option DataFrame :=
  counts ← aggregate [aliased (countDistinct "Name") "Games Released"]
                     (groupByColumns ["Year"] finalgames);
  orderBy (desc "Year") counts.
End Reports.

(** ** Vocabulary of the statements on the report queries *)

(** The condition does not call [monotonically_increasing_id]. *)
Fixpoint pure_condition (p : Condition) : bool :=
  match p with
  | equals a b | contains a b => pure a && pure b
  | both p q => pure_condition p && pure_condition q
  end.

(** The condition is true on a row of a table with the columns [cols]. *)
Definition holds (E : Engine) (cols : list string) (p : Condition) (r : Row) : bool :=
  match eval_condition E cols 0 r p with
  | Some (DBool true) => true
  | _ => false
  end.

(** Row [r1] sorts strictly before row [r2] in the order [o] of a table
    with the columns [cols]. *)
Definition sorts_before (o : SortOrder) (cols : list string) (r1 r2 : Row) : bool :=
  match o with
  | asc name =>
      match resolve cols name with
      | Some i => before_asc (cell_at i r1) (cell_at i r2)
      | None => false
      end
  | desc name =>
      match resolve cols name with
      | Some i => before_desc (cell_at i r1) (cell_at i r2)
      | None => false
      end
  end.

(** [result] holds the first [n] rows of [candidates] in the order [o], all
    of them when there are fewer: it has the columns of [candidates], it is
    in order, and the rows of [candidates] are its rows and rows none of
    which sorts strictly before one of its rows. *)
Definition top_rows (n : nat) (o : SortOrder) (candidates result : DataFrame) : Prop :=
  columns result = columns candidates /\
  length (rows result) = Nat.min n (length (rows candidates)) /\
  Sorted (fun r1 r2 => sorts_before o (columns candidates) r2 r1 = false) (rows result) /\
  exists rest, rows candidates ≡ₚ rows result ++ rest /\
    forall r r', r ∈ rows result -> r' ∈ rest ->
      sorts_before o (columns candidates) r' r = false.

(** A popularity table of the file [recs] on the key column [i] of
    [vgsales.csv]: every row is the key of a record and the rollup total of
    that key, and no key is listed twice. *)
Definition lists_totals (E : Engine) (recs : list (list (option string))) (i : nat)
    (df : DataFrame) : Prop :=
  NoDup (cell_at 0 <$> rows df) /\
  forall row, row ∈ rows df ->
    exists r, r ∈ recs /\
      row = [raw_cell i r; rollup i (corrected_rows E recs) (raw_cell i r)].

(** The table lists the key of every record. *)
Definition lists_every_key (E : Engine) (recs : list (list (option string))) (i : nat)
    (df : DataFrame) : Prop :=
  forall r, r ∈ recs ->
    [raw_cell i r; rollup i (corrected_rows E recs) (raw_cell i r)] ∈ rows df.

(** The rows whose cell in column [i] is the key [k], NULL being a key as
    it is to [groupBy]. *)
Definition rows_of_key (i : nat) (k : cell) (rs : list Row) : list Row :=
  List.filter (fun r => group_eqb (cell_at i r) k) rs.


(** * Properties *)

(** ** Row ids *)

Lemma length_partition_ids p k : length (partition_ids p k) = k.
Proof. unfold partition_ids. by rewrite length_fmap, length_seq. Qed.

Lemma length_mono_ids sizes p n : length (mono_ids sizes p n) = n.
Proof.
  revert p n. induction sizes as [|s sizes IH]; intros p n; simpl.
  - apply length_partition_ids.
  - rewrite length_app, length_partition_ids, IH. lia.
Qed.

Lemma length_row_ids E rs : length (row_ids E rs) = length rs.
Proof. apply length_mono_ids. Qed.

Lemma length_with_ids E rs : length (with_ids E rs) = length rs.
Proof. unfold with_ids. rewrite length_zip, length_row_ids. lia. Qed.

Lemma snd_with_ids E rs : (with_ids E rs).*2 = rs.
Proof. unfold with_ids. apply snd_zip. rewrite length_row_ids. lia. Qed.

(** An operation that ignores the ids maps over the rows. *)
Lemma fmap_with_ids {B} E (f : Z * Row -> B) (g : Row -> B) rs :
  (forall id r, f (id, r) = g r) ->
  f <$> with_ids E rs = g <$> rs.
Proof.
  intros Hfg. rewrite <- (snd_with_ids E rs) at 2.
  rewrite <- list_fmap_compose. apply list_fmap_ext.
  intros _ [id r] _. apply Hfg.
Qed.

Lemma lookup_with_ids E rs i r :
  rs !! i = Some r ->
  exists id, row_ids E rs !! i = Some id /\ with_ids E rs !! i = Some (id, r).
Proof.
  intros Hr. unfold with_ids.
  destruct (row_ids E rs !! i) as [id|] eqn:Hid.
  - exists id. split; [done|]. rewrite lookup_zip_with, Hid. simpl. by rewrite Hr.
  - apply lookup_ge_None in Hid. rewrite length_row_ids in Hid.
    apply lookup_lt_Some in Hr. lia.
Qed.

(** ** Stable sort *)

Section SortFacts.
Context {A : Type} (before : A -> A -> bool).

Lemma insert_sorted_Permutation x l : insert_sorted before x l ≡ₚ x :: l.
Proof.
  induction l as [|y l IH]; simpl; [done|].
  destruct (before y x); [|done].
  rewrite IH. apply Permutation_swap.
Qed.

Lemma stable_sort_Permutation l : stable_sort before l ≡ₚ l.
Proof.
  induction l as [|x l IH]; simpl; [done|].
  rewrite insert_sorted_Permutation. by rewrite IH.
Qed.

Lemma length_stable_sort l : length (stable_sort before l) = length l.
Proof. by rewrite stable_sort_Permutation. Qed.

Lemma elem_of_stable_sort x l : x ∈ stable_sort before l <-> x ∈ l.
Proof. by rewrite stable_sort_Permutation. Qed.

End SortFacts.

Lemma stable_sort_fmap {A B} (h : A -> B) (before : B -> B -> bool) l :
  stable_sort before (h <$> l)
  = h <$> stable_sort (fun a b => before (h a) (h b)) l.
Proof.
  unfold stable_sort. induction l as [|x l IH]; csimpl; [done|].
  rewrite IH. clear IH.
  induction (foldr (insert_sorted (fun a b => before (h a) (h b))) [] l)
    as [|y l' IH]; csimpl; [done|].
  destruct (before (h y) (h x)); csimpl; [by rewrite IH|done].
Qed.

(** ** Expressions *)

Lemma eval_pure E cols id id' r c :
  pure c = true -> eval E cols id r c = eval E cols id' r c.
Proof.
  induction c; simpl; intros Hp; try done.
  - by rewrite IHc.
  - by apply IHc.
  - apply andb_prop in Hp as [??]. by rewrite IHc1, IHc2.
  - by rewrite IHc.
  - apply andb_prop in Hp as [??]. by rewrite IHc1, IHc2.
Qed.

Lemma bind_some {A B} (f : A -> option B) (x : A) : Some x ≫= f = f x.
Proof. done. Qed.

(** ** [withColumn] and [select] on mapped rows *)

Lemma withColumn_fmap {X} E name c cols cols' (h h' : X -> Row) xs :
  analyze cols c = true ->
  pure c = true ->
  put_name cols name = cols' ->
  (forall x, put cols name (eval E cols 0 (h x) c) (h x) = h' x) ->
  withColumn E name c (mkDataFrame cols (h <$> xs))
  = Some (mkDataFrame cols' (h' <$> xs)).
Proof.
  intros Ha Hp <- Hh. unfold withColumn. simpl. rewrite Ha. do 2 f_equal.
  rewrite (fmap_with_ids E _
             (fun r => put cols name (eval E cols 0 r c) r)).
  - rewrite <- list_fmap_compose. apply list_fmap_ext. intros _ x _. apply Hh.
  - intros id r. simpl. by rewrite (eval_pure E cols id 0).
Qed.

Lemma select_fmap {X} E cs cols cols' (h h' : X -> Row) xs :
  forallb (analyze cols) cs = true ->
  forallb pure cs = true ->
  output_name <$> cs = cols' ->
  (forall x, eval E cols 0 (h x) <$> cs = h' x) ->
  select E cs (mkDataFrame cols (h <$> xs))
  = Some (mkDataFrame cols' (h' <$> xs)).
Proof.
  intros Ha Hp <- Hh. unfold select. simpl. rewrite Ha. do 2 f_equal.
  rewrite (fmap_with_ids E _ (fun r => eval E cols 0 r <$> cs)).
  - rewrite <- list_fmap_compose. apply list_fmap_ext. intros _ x _. apply Hh.
  - intros id r. simpl. apply list_fmap_ext. intros i c Hc.
    apply eval_pure. rewrite forallb_forall in Hp. apply Hp.
    apply list_elem_of_In. by eapply list_elem_of_lookup_2.
Qed.

(** ** The CSV reader *)

Lemma fit_raw_cells n r : fit n r = (fun i => raw_cell i r) <$> seq 0 n.
Proof.
  apply list_eq. intros i. unfold fit.
  destruct (decide (i < n)%nat) as [Hi|Hi].
  - rewrite lookup_take_lt by done.
    rewrite list_lookup_fmap, lookup_seq_lt by done. simpl.
    unfold raw_cell.
    destruct (r !! i) as [c|] eqn:Hr.
    + rewrite lookup_app_l by (rewrite length_fmap; by eapply lookup_lt_Some).
      by rewrite list_lookup_fmap, Hr.
    + apply lookup_ge_None in Hr.
      rewrite lookup_app_r by (rewrite length_fmap; lia).
      rewrite lookup_replicate_2; [done|]. rewrite length_fmap. lia.
  - rewrite lookup_take_ge by lia.
    rewrite list_lookup_fmap, lookup_seq_ge by lia. done.
Qed.

Lemma read_csv_vgsales recs :
  read_csv (vgsales recs)
  = mkDataFrame vgsales_header
      ((fun r => (fun i => raw_cell i r) <$> seq 0 11) <$> recs).
Proof.
  unfold read_csv. simpl. f_equal. apply list_fmap_ext. intros _ r _.
  apply fit_raw_cells.
Qed.

(** ** The Schema Normalizer in closed form *)

Ltac with_column_step :=
  erewrite withColumn_fmap;
  [ rewrite bind_some
  | vm_compute; reflexivity
  | reflexivity
  | cbv; reflexivity
  | intros ?; cbv -[cast_data sql_add date_format_data raw_cell]; reflexivity ].

Lemma schema_normalizer_vgsales E recs :
  schema_normalizer E (read_csv (vgsales recs))
  = Some (mkDataFrame vgsales_header (normalized_row E <$> recs)).
Proof.
  rewrite read_csv_vgsales. unfold schema_normalizer.
  do 6 with_column_step.
  erewrite withColumn_fmap;
    [ reflexivity | vm_compute; reflexivity | reflexivity | cbv; reflexivity
    | intros ?; cbv -[cast_data sql_add date_format_data raw_cell]; reflexivity ].
Qed.

(** ** The Data Corrector in closed form *)

Lemma fmap_zip_fmap {X B} (f : Z * Row -> B) (h : X -> Row) ids xs :
  f <$> zip ids (h <$> xs) = (fun ix => f (ix.1, h ix.2)) <$> zip ids xs.
Proof.
  revert ids. induction xs as [|x xs IH]; intros [|id ids]; csimpl; try done.
  by rewrite IH.
Qed.

Lemma withColumn_ids_fmap {X} E name c cols cols' (h : X -> Row) (h' : Z -> X -> Row) xs :
  analyze cols c = true ->
  put_name cols name = cols' ->
  (forall id x, put cols name (eval E cols id (h x) c) (h x) = h' id x) ->
  withColumn E name c (mkDataFrame cols (h <$> xs))
  = Some (mkDataFrame cols'
            ((fun ix => h' ix.1 ix.2) <$> zip (row_ids E (h <$> xs)) xs)).
Proof.
  intros Ha <- Hh. unfold withColumn. simpl. rewrite Ha. do 2 f_equal.
  unfold with_ids. rewrite fmap_zip_fmap. apply list_fmap_ext.
  intros _ [id x] _. simpl. apply Hh.
Qed.

Lemma orderBy_desc_fmap {X} name cols i (h : X -> Row) xs :
  resolve cols name = Some i ->
  orderBy (desc name) (mkDataFrame cols (h <$> xs))
  = Some (mkDataFrame cols
            (h <$> stable_sort
                     (fun x y => before_desc (cell_at i (h x)) (cell_at i (h y))) xs)).
Proof.
  intros Hi. unfold orderBy. simpl. rewrite Hi. simpl.
  by rewrite stable_sort_fmap.
Qed.

Lemma data_corrector_normalized E recs :
  data_corrector E (mkDataFrame vgsales_header (normalized_row E <$> recs))
  = Some (mkDataFrame corrected_header (corrected_rows E recs)).
Proof.
  unfold data_corrector, drop_null_step.
  do 2 with_column_step.
  erewrite orderBy_desc_fmap by (vm_compute; reflexivity).
  rewrite bind_some.
  erewrite withColumn_ids_fmap;
    [ reflexivity | vm_compute; reflexivity | cbv; reflexivity
    | intros ??; cbv -[cast_data sql_add date_format_data raw_cell wrap64 Z.add];
      reflexivity ].
Qed.

Lemma corrected_vgsales E recs :
  corrected E (vgsales recs)
  = Some (mkDataFrame corrected_header (corrected_rows E recs)).
Proof.
  unfold corrected. rewrite schema_normalizer_vgsales, bind_some.
  apply data_corrector_normalized.
Qed.

(** ** Key equality *)

Lemma sf_compare_Eq x y :
  double_compare x y = Eq <-> data_key (DDouble x) = data_key (DDouble y).
Proof.
  unfold double_compare, data_key.
  destruct (Prim2SF x) as [s1|s1| |s1 m1 e1], (Prim2SF y) as [s2|s2| |s2 m2 e2];
    simpl; try (split; (done || by destruct s1) || by destruct s2).
  - destruct s1, s2; simpl; split; done.
  - destruct s1, s2; simpl; try (split; done);
      destruct (Z.compare_spec e1 e2) as [->| |]; simpl;
      try (split; [done|intros [= ? ?]; lia]);
      change (Pos.compare_cont Eq m1 m2) with (Pos.compare m1 m2);
      destruct (Pos.compare_spec m1 m2) as [->| |]; simpl;
      try (split; [done|intros [= ?]; lia]); done.
Qed.

Lemma date_compare_Eq a b : date_compare a b = Eq <-> a = b.
Proof.
  destruct a as [y1 m1 d1], b as [y2 m2 d2]. unfold date_compare. simpl.
  destruct (Z.compare_spec y1 y2) as [->| |]; [|split; [done|intros [= ???]; lia]..].
  destruct (Z.compare_spec m1 m2) as [->| |]; [|split; [done|intros [= ??]; lia]..].
  destruct (Z.compare_spec d1 d2) as [->| |]; [|split; [done|intros [= ?]; lia]..].
  done.
Qed.

Lemma string_compare_refl s : String.compare s s = Eq.
Proof.
  pose proof (String.compare_antisym s s) as H.
  destruct (String.compare s s); simpl in H; done.
Qed.

Lemma data_compare_Eq a b : data_compare a b = Eq <-> data_key a = data_key b.
Proof.
  destruct a as [s1|z1|z1|d1|x1|b1], b as [s2|z2|z2|d2|x2|b2];
    try (simpl; split; [done|];
         repeat match goal with |- context [Prim2SF ?x] => destruct (Prim2SF x) end;
         done).
  - unfold data_compare, data_key.
    split; [by intros ->%String.compare_eq_iff|intros [= ->]; apply string_compare_refl].
  - unfold data_compare, data_key. rewrite Z.compare_eq_iff.
    split; [by intros ->|by intros [= ->]].
  - unfold data_compare, data_key. rewrite Z.compare_eq_iff.
    split; [by intros ->|by intros [= ->]].
  - unfold data_compare, data_key. rewrite date_compare_Eq.
    split; [by intros ->|by intros [= ->]].
  - apply sf_compare_Eq.
  - simpl. destruct b1, b2; simpl; split; done.
Qed.

Lemma data_eqb_key a b : data_eqb a b = true <-> data_key a = data_key b.
Proof.
  rewrite <- data_compare_Eq. unfold data_eqb.
  destruct (data_compare a b); split; done.
Qed.

(** Two keys that both join with [c] are in one group. *)
Lemma join_eqb_group c a b :
  join_eqb c a = true -> join_eqb c b = true -> group_eqb a b = true.
Proof.
  destruct c as [c|], a as [a|], b as [b|]; simpl; try done.
  rewrite !data_eqb_key. congruence.
Qed.

(** ** Grouping *)

Lemma length_filter_filter {A} (p q : A -> bool) l :
  (length (List.filter p (List.filter q l)) <= length (List.filter p l))%nat.
Proof.
  induction l as [|a l IH]; simpl; [done|].
  destruct (q a), (p a) eqn:Hp; simpl; rewrite ?Hp; simpl; lia.
Qed.

Lemma filter_join_excluded c k l :
  join_eqb c k = true ->
  List.filter (join_eqb c) (List.filter (fun k' => negb (group_eqb k k')) l) = [].
Proof.
  intros Hk. induction l as [|a l IH]; simpl; [done|].
  destruct (group_eqb k a) eqn:Hg; simpl; [done|].
  destruct (join_eqb c a) eqn:Ha; [|done].
  by rewrite (join_eqb_group c k a) in Hg.
Qed.

(** At most one of the distinct keys joins with a given key. *)
Lemma filter_distinct_le c ks :
  (length (List.filter (join_eqb c) (distinct ks)) <= 1)%nat.
Proof.
  induction ks as [|k ks IH]; simpl; [lia|].
  destruct (join_eqb c k) eqn:Hk; simpl.
  - by rewrite filter_join_excluded.
  - etrans; [apply length_filter_filter|done].
Qed.

Lemma find_head_filter {A} (p : A -> bool) l : List.find p l = head (List.filter p l).
Proof. induction l as [|a l IH]; simpl; [done|]. by destruct (p a). Qed.

Lemma agg_sums key cols i js aggs rs :
  resolve cols key = Some i ->
  mapM (fun a => resolve cols (agg_column a)) aggs = Some js ->
  agg aggs (groupBy key (mkDataFrame cols rs))
  = Some (mkDataFrame (key :: (agg_name <$> aggs))
            ((fun k => k :: ((fun j => group_sum i j rs k) <$> js))
             <$> distinct (cell_at i <$> rs))).
Proof. intros Hi Hjs. unfold agg. simpl. by rewrite Hi, Hjs. Qed.

(** ** Left join with one total per key *)

Lemma filter_totals c (t : cell -> cell) D :
  List.filter (fun r => join_eqb c (cell_at 0 r)) ((fun k => [k; t k]) <$> D)
  = (fun k => [k; t k]) <$> List.filter (join_eqb c) D.
Proof.
  induction D as [|k D IH]; csimpl; [done|].
  change (cell_at 0 [k; t k]) with k.
  destruct (join_eqb c k); csimpl; by rewrite IH.
Qed.

Lemma join_row_totals i (t : cell -> cell) ks l :
  join_row i 0 1 Left ((fun k => [k; t k]) <$> distinct ks) l
  = [joined_row i (lookup_total t (distinct ks)) l].
Proof.
  unfold join_row, joined_row, lookup_total.
  rewrite filter_totals, find_head_filter.
  pose proof (filter_distinct_le (cell_at i l) ks) as Hle.
  destruct (List.filter (join_eqb (cell_at i l)) (distinct ks)) as [|k [|k' D]];
    simpl in *; [done|done|lia].
Qed.

Lemma mjoin_singletons {A B} (f : A -> B) l : mjoin ((fun x => [f x]) <$> l) = f <$> l.
Proof. induction l as [|x l IH]; csimpl; [done|]. by rewrite IH. Qed.

Lemma join_left_totals on cols cols' i kn n (t : cell -> cell) ks rs :
  resolve cols on = Some i ->
  resolve [kn; n] on = Some 0%nat ->
  default on (cols !! i) :: delete i cols ++ [n] = cols' ->
  join (mkDataFrame cols rs)
       (mkDataFrame [kn; n] ((fun k => [k; t k]) <$> distinct ks)) on Left
  = Some (mkDataFrame cols' (joined_row i (lookup_total t (distinct ks)) <$> rs)).
Proof.
  intros Hi Hj <-. unfold join. simpl. rewrite Hi, Hj. simpl. do 2 f_equal.
  rewrite <- (mjoin_singletons (joined_row i (lookup_total t (distinct ks))) rs).
  f_equal. apply list_fmap_ext. intros _ l _.
  apply join_row_totals.
Qed.

(** ** The Rollup Aggregator in closed form *)

Lemma withColumnRenamed_mk existing new cols cols' rs :
  (fun x => if resolver x existing then new else x) <$> cols = cols' ->
  withColumnRenamed existing new (mkDataFrame cols rs) = mkDataFrame cols' rs.
Proof. by intros <-. Qed.

Ltac pointwise :=
  intros; cbv -[cast_data sql_add date_format_data raw_cell wrap64 Z.add group_sum];
  reflexivity.

Ltac totals_steps :=
  erewrite agg_sums by (cbv; reflexivity);
  rewrite bind_some;
  (erewrite withColumn_fmap;
   [ rewrite bind_some | vm_compute; reflexivity | reflexivity | cbv; reflexivity
   | pointwise ]);
  (erewrite select_fmap;
   [ rewrite bind_some | vm_compute; reflexivity | reflexivity | cbv; reflexivity
   | pointwise ]);
  try (erewrite withColumnRenamed_mk by (cbv; reflexivity)).

Ltac join_step :=
  erewrite join_left_totals;
  [ reflexivity | cbv; reflexivity | cbv; reflexivity | cbv; reflexivity ].

Lemma gamestb_with_totals_closed E rs :
  gamestb_with_totals E (mkDataFrame corrected_header rs)
  = Some (mkDataFrame
            [ "Name"; "Rank"; "Platform"; "year"; "Genre"; "Publisher";
              "NA_Sales"; "EU_Sales"; "JP_Sales"; "Other_Sales"; "Global_Sales";
              "Game_Total_Sales" ]
            (joined_row 1 (rollup 1 rs) <$> rs)).
Proof.
  unfold gamestb_with_totals, total_sales_df.
  totals_steps. join_step.
Qed.

Lemma df_with_totals_and_publisher_sales_closed E rs :
  df_with_totals_and_publisher_sales E (mkDataFrame corrected_header rs)
  = Some (mkDataFrame
            [ "Publisher"; "Name"; "Rank"; "Platform"; "year"; "Genre";
              "NA_Sales"; "EU_Sales"; "JP_Sales"; "Other_Sales"; "Global_Sales";
              "Game_Total_Sales"; "Publisher_Total_Sales" ]
            (joined_row 5 (rollup 5 rs) <$> (joined_row 1 (rollup 1 rs) <$> rs))).
Proof.
  unfold df_with_totals_and_publisher_sales.
  rewrite gamestb_with_totals_closed, bind_some.
  unfold publisher_sales_df.
  totals_steps. join_step.
Qed.

Lemma df_with_totals_publisher_platform_closed E rs :
  df_with_totals_publisher_platform E (mkDataFrame corrected_header rs)
  = Some (mkDataFrame
            [ "Platform"; "Publisher"; "Name"; "Rank"; "year"; "Genre";
              "NA_Sales"; "EU_Sales"; "JP_Sales"; "Other_Sales"; "Global_Sales";
              "Game_Total_Sales"; "Publisher_Total_Sales"; "Platform_Total_Sales" ]
            (joined_row 3 (rollup 2 rs)
             <$> (joined_row 5 (rollup 5 rs) <$> (joined_row 1 (rollup 1 rs) <$> rs)))).
Proof.
  unfold df_with_totals_publisher_platform.
  rewrite df_with_totals_and_publisher_sales_closed, bind_some.
  unfold platform_sales_df.
  totals_steps. join_step.
Qed.

Lemma df_with_totals_publisher_platform_genre_closed E rs :
  df_with_totals_publisher_platform_genre E (mkDataFrame corrected_header rs)
  = Some (mkDataFrame
            [ "Genre"; "Platform"; "Publisher"; "Name"; "Rank"; "year";
              "NA_Sales"; "EU_Sales"; "JP_Sales"; "Other_Sales"; "Global_Sales";
              "Game_Total_Sales"; "Publisher_Total_Sales"; "Platform_Total_Sales";
              "Genre_Total_Sales" ]
            (joined_row 5 (rollup 4 rs)
             <$> (joined_row 3 (rollup 2 rs)
                  <$> (joined_row 5 (rollup 5 rs) <$> (joined_row 1 (rollup 1 rs) <$> rs))))).
Proof.
  unfold df_with_totals_publisher_platform_genre.
  rewrite df_with_totals_publisher_platform_closed, bind_some.
  unfold genre_sales_df.
  totals_steps. join_step.
Qed.

(** ** The exported table in closed form *)

Lemma select_reorder_closed {X} E rs (h : X -> Row) (h' : X -> Row) xs :
  (forall x,
     eval E [ "Genre"; "Platform"; "Publisher"; "Name"; "Rank"; "year";
              "NA_Sales"; "EU_Sales"; "JP_Sales"; "Other_Sales"; "Global_Sales";
              "Game_Total_Sales"; "Publisher_Total_Sales"; "Platform_Total_Sales";
              "Genre_Total_Sales" ] 0
       (joined_row 5 (rollup 4 rs)
          (joined_row 3 (rollup 2 rs)
             (joined_row 5 (rollup 5 rs) (joined_row 1 (rollup 1 rs) (h x)))))
     <$> reorder = h' x) ->
  select E reorder
    (mkDataFrame
       [ "Genre"; "Platform"; "Publisher"; "Name"; "Rank"; "year";
         "NA_Sales"; "EU_Sales"; "JP_Sales"; "Other_Sales"; "Global_Sales";
         "Game_Total_Sales"; "Publisher_Total_Sales"; "Platform_Total_Sales";
         "Genre_Total_Sales" ]
       (joined_row 5 (rollup 4 rs)
        <$> (joined_row 3 (rollup 2 rs)
             <$> (joined_row 5 (rollup 5 rs)
                  <$> (joined_row 1 (rollup 1 rs) <$> (h <$> xs))))))
  = Some (mkDataFrame final_header (h' <$> xs)).
Proof.
  intros Hh. rewrite <- !list_fmap_compose.
  erewrite select_fmap;
    [ reflexivity | vm_compute; reflexivity | reflexivity | cbv; reflexivity | ].
  intros x. rewrite <- Hh. reflexivity.
Qed.

Lemma finalgames_vgsales E recs :
  finalgames E (read_csv (vgsales recs))
  = Some (mkDataFrame final_header (final_rows E recs)).
Proof.
  unfold finalgames.
  rewrite schema_normalizer_vgsales, bind_some.
  rewrite data_corrector_normalized, bind_some.
  rewrite df_with_totals_publisher_platform_genre_closed, bind_some.
  apply (select_reorder_closed E (corrected_rows E recs)
           (fun ir => ranked_row E ir.1 ir.2)
           (fun ir => final_row E (corrected_rows E recs) ir.1 ir.2)
           (zip (rank_ids E recs) (sorted_records E recs))).
  intros [id r].
  cbv -[cast_data sql_add date_format_data raw_cell wrap64 Z.add rollup corrected_rows].
  reflexivity.
Qed.

(** ** Ingestion and the run *)

Lemma raw_data_ne_transformed_data : raw_data ≠ transformed_data.
Proof. done. Qed.

Lemma ingestion_existing w f t :
  dbfs w !! raw_data = Some f ->
  metastore w !! "gamestb" = Some t ->
  ingestion w = Some (w, t).
Proof.
  intros Hf Ht. unfold ingestion, create_table_if_not_exists.
  rewrite Hf. simpl. rewrite Ht. simpl. rewrite Ht. simpl. by destruct w.
Qed.

Lemma ingestion_new w f :
  dbfs w !! raw_data = Some f ->
  metastore w !! "gamestb" = None ->
  ingestion w
  = Some (mkWorld (dbfs w) (<["gamestb" := read_csv f]> (metastore w)), read_csv f).
Proof.
  intros Hf Ht. unfold ingestion, create_table_if_not_exists.
  rewrite Hf. simpl. rewrite Ht. simpl. by rewrite lookup_insert_eq.
Qed.

Lemma ingestion_Some w w1 t :
  ingestion w = Some (w1, t) ->
  dbfs w1 = dbfs w /\ metastore w1 !! "gamestb" = Some t /\
  is_Some (dbfs w !! raw_data).
Proof.
  unfold ingestion. destruct (dbfs w !! raw_data) as [f|] eqn:Hf; [|done].
  simpl. intros H.
  destruct (create_table_if_not_exists "gamestb" (read_csv f) (metastore w) !! "gamestb")
    as [t'|] eqn:Ht; simpl in H; [|done].
  injection H as <- <-. simpl. eauto.
Qed.

Lemma exporter_Some E fg w :
  exporter E fg w
  = Some (mkWorld (<[transformed_data := to_csv E fg]> (dbfs w)) (metastore w)).
Proof. done. Qed.

(** What a run leaves behind and reports, in terms of the table it
    consumed. *)
Lemma run_consumes E w w1 t :
  ingestion w = Some (w1, t) ->
  run E w
  = match finalgames E t with
    | Some fg =>
        (mkWorld (<[transformed_data := to_csv E fg]> (dbfs w1)) (metastore w1), true)
    | None => (w1, false)
    end.
Proof.
  intros Hi. unfold run. rewrite Hi.
  destruct (finalgames E t) as [fg|]; done.
Qed.

(** A second run changes nothing. *)
Lemma run_run E w : run E (run E w).1 = run E w.
Proof.
  destruct (ingestion w) as [[w1 t]|] eqn:Hi.
  - apply ingestion_Some in Hi as Hi'. destruct Hi' as (Hfs & Ht & [f Hf]).
    rewrite (run_consumes E w w1 t Hi).
    destruct (finalgames E t) as [fg|] eqn:Hfg; simpl.
    + erewrite run_consumes; last first.
      { apply (ingestion_existing _ f); simpl; [|done].
        rewrite lookup_insert_ne by (symmetry; apply raw_data_ne_transformed_data).
        by rewrite Hfs. }
      rewrite Hfg. simpl. by rewrite insert_insert_eq.
    + erewrite run_consumes; last first.
      { apply (ingestion_existing _ f); [by rewrite Hfs|done]. }
      by rewrite Hfg.
  - unfold run. rewrite Hi. simpl. by rewrite Hi.
Qed.

Lemma run_keeps_raw_data E w : dbfs (run E w).1 !! raw_data = dbfs w !! raw_data.
Proof.
  destruct (ingestion w) as [[w1 t]|] eqn:Hi.
  - apply ingestion_Some in Hi as Hi'. destruct Hi' as (Hfs & _ & _).
    rewrite (run_consumes E w w1 t Hi).
    destruct (finalgames E t); simpl; rewrite ?Hfs; [|done].
    by rewrite lookup_insert_ne by (symmetry; apply raw_data_ne_transformed_data).
  - unfold run. by rewrite Hi.
Qed.

Lemma select_columns E cs df d :
  select E cs df = Some d -> columns d = output_name <$> cs.
Proof.
  unfold select. destruct (forallb (analyze (columns df)) cs); [|done].
  by intros [= <-].
Qed.

Lemma finalgames_columns E t fg : finalgames E t = Some fg -> columns fg = final_header.
Proof.
  unfold finalgames. intros H.
  destruct (schema_normalizer E t) as [n|]; [|done]. simpl in H.
  destruct (data_corrector E n) as [c|]; [|done]. simpl in H.
  destruct (df_with_totals_publisher_platform_genre E c) as [j|]; [|done]. simpl in H.
  by apply select_columns in H.
Qed.

Lemma run_fresh_vgsales E recs fs ms :
  run E (fresh_world (vgsales recs) fs ms)
  = (mkWorld
       (<[transformed_data := to_csv E (mkDataFrame final_header (final_rows E recs))]>
          (<[raw_data := vgsales recs]> fs))
       (<["gamestb" := read_csv (vgsales recs)]> (delete "gamestb" ms)),
     true).
Proof.
  erewrite run_consumes; last first.
  { apply ingestion_new; simpl; [apply lookup_insert_eq|apply lookup_delete_eq]. }
  by rewrite finalgames_vgsales.
Qed.

Lemma length_final_rows E recs : length (final_rows E recs) = length recs.
Proof.
  unfold final_rows, rank_ids, sorted_records.
  rewrite length_fmap, length_zip, length_row_ids, length_fmap, length_stable_sort.
  lia.
Qed.

Lemma run_keeps_table E w t :
  metastore w !! "gamestb" = Some t ->
  metastore (run E w).1 !! "gamestb" = Some t.
Proof.
  intros Ht. destruct (ingestion w) as [[w1 t']|] eqn:Hi.
  - destruct (ingestion_Some w w1 t' Hi) as (_ & _ & [f Hf]).
    rewrite (ingestion_existing w f t Hf Ht) in Hi. injection Hi as <- <-.
    erewrite run_consumes by by apply (ingestion_existing w f t).
    by destruct (finalgames E t).
  - unfold run. by rewrite Hi.
Qed.

Lemma reruns_keep_table E w t uploads :
  metastore w !! "gamestb" = Some t ->
  metastore (foldl (rerun E) w uploads) !! "gamestb" = Some t.
Proof.
  revert w. induction uploads as [|f uploads IH]; intros w Ht; simpl; [done|].
  apply IH. unfold rerun. by apply run_keeps_table.
Qed.

(** C10: ingestion creates the table [gamestb] from the raw file only when
    no table of that name exists; an existing table is left as it is and is
    the table the run consumes; so every run after the first one, whatever
    files were uploaded in between and whatever the raw file then holds,
    consumes the table the first run created, and writes the export of that
    table. *)
Theorem create_table_only_when_absent (E : Engine) (f : CsvFile)
    (fs : gmap string CsvFile) (ms : gmap string DataFrame) (t : DataFrame) :
  ingestion (fresh_world f fs ms)
  = Some (mkWorld (<[raw_data := f]> fs)
            (<["gamestb" := read_csv f]> (delete "gamestb" ms)),
          read_csv f)
  /\ (let w := mkWorld (<[raw_data := f]> fs) (<["gamestb" := t]> ms) in
      ingestion w = Some (w, t))
  /\ (forall uploads f',
        let first := run E (fresh_world f fs ms) in
        let before := upload f' (foldl (rerun E) first.1 uploads) in
        ingestion before = Some (before, read_csv f)
        /\ metastore (run E before).1 !! "gamestb" = Some (read_csv f)
        /\ run E before
           = match finalgames E (read_csv f) with
             | Some exported =>
                 (mkWorld (<[transformed_data := to_csv E exported]> (dbfs before))
                    (metastore before), true)
             | None => (before, false)
             end).
Proof.
  assert (Hnew : ingestion (fresh_world f fs ms)
                 = Some (mkWorld (<[raw_data := f]> fs)
                           (<["gamestb" := read_csv f]> (delete "gamestb" ms)),
                         read_csv f)).
  { apply ingestion_new; simpl; [apply lookup_insert_eq|apply lookup_delete_eq]. }
  split; [done|]. split.
  { simpl. apply (ingestion_existing _ f); simpl; apply lookup_insert_eq. }
  intros uploads f'. cbv zeta.
  set (before := upload f' (foldl (rerun E) (run E (fresh_world f fs ms)).1 uploads)).
  assert (Htable : metastore before !! "gamestb" = Some (read_csv f)).
  { unfold before. simpl. apply reruns_keep_table.
    rewrite (run_consumes E _ _ _ Hnew).
    destruct (finalgames E (read_csv f)); simpl; apply lookup_insert_eq. }
  assert (Hbefore : ingestion before = Some (before, read_csv f)).
  { apply (ingestion_existing _ f'); [apply lookup_insert_eq|done]. }
  split; [done|]. split; [by apply run_keeps_table|].
  by apply run_consumes.
Qed.

(** C5 fails on the notebook.  The exported [Rank] is
    [monotonically_increasing_id() + 1], which depends on how Spark has
    partitioned the sorted table, and that is no function of the input
    file: the same two-record file, read in the same order by the same
    parsers and sorted by the same stable sort, is exported with the ranks
    1 and 2 by a run that has the sorted table in one partition, and with
    the ranks 1 and 2^33 + 1 by a second run that has it in two.  The
    second run consumes the same table and overwrites the export, so the
    two exported files differ.  Only a rerun with the partitioning
    unchanged leaves the export as it was. *)
Theorem rerun_export_depends_on_partition_layout :
  let one_partition := Reference.engine [] in
  let two_partitions := Reference.engine [1%nat] in
  let first := run one_partition (fresh_world two_games_file ∅ ∅) in
  let second := run two_partitions first.1 in
  let ranks (w : World) :=
    out ← dbfs w !! transformed_data;
    Some ((fun r : list (option string) => r !! 0%nat) <$> records out) in
  (cast_string_int one_partition, cast_string_date one_partition,
   cast_string_double one_partition, format_date one_partition,
   csv_text one_partition)
  = (cast_string_int two_partitions, cast_string_date two_partitions,
     cast_string_double two_partitions, format_date two_partitions,
     csv_text two_partitions)
  /\ first.2 = true /\ second.2 = true
  /\ dbfs first.1 !! raw_data = Some two_games_file
  /\ dbfs second.1 !! raw_data = Some two_games_file
  /\ metastore second.1 !! "gamestb" = metastore first.1 !! "gamestb"
  /\ ranks first.1 = Some [Some (Some "1"); Some (Some "2")]
  /\ ranks second.1 = Some [Some (Some "1"); Some (Some "8589934593")]
  /\ dbfs second.1 !! transformed_data <> dbfs first.1 !! transformed_data
  /\ (forall (E : Engine) (w : World), run E (run E w).1 = run E w).
Proof.
  intros E1 E2 first second ranks.
  assert (Hfirst : first
          = (mkWorld
               (<[transformed_data :=
                    to_csv E1 (mkDataFrame final_header
                                 (final_rows E1 (records two_games_file)))]>
                  (<[raw_data := two_games_file]> ∅))
               (<["gamestb" := read_csv two_games_file]> (delete "gamestb" ∅)),
             true)).
  { apply (run_fresh_vgsales E1 (records two_games_file)). }
  assert (Hsecond : second
          = (mkWorld
               (<[transformed_data :=
                    to_csv E2 (mkDataFrame final_header
                                 (final_rows E2 (records two_games_file)))]>
                  (dbfs first.1))
               (metastore first.1),
             true)).
  { unfold second. rewrite Hfirst. cbn [fst].
    erewrite run_consumes; last first.
    { apply (ingestion_existing _ two_games_file).
      - cbn [dbfs]. rewrite lookup_insert_ne by done. apply lookup_insert_eq.
      - cbn [metastore]. apply lookup_insert_eq. }
    change (read_csv two_games_file) with (read_csv (vgsales (records two_games_file))).
    by rewrite finalgames_vgsales. }
  split; [reflexivity|].
  split; [by rewrite Hfirst|]. split; [by rewrite Hsecond|].
  split.
  { rewrite Hfirst. cbn [fst dbfs]. rewrite lookup_insert_ne by done.
    apply lookup_insert_eq. }
  split.
  { rewrite Hsecond. cbn [fst dbfs]. rewrite lookup_insert_ne by done.
    rewrite Hfirst. cbn [fst dbfs]. rewrite lookup_insert_ne by done.
    apply lookup_insert_eq. }
  split; [by rewrite Hsecond|].
  assert (Hr1 : ranks first.1 = Some [Some (Some "1"); Some (Some "2")]).
  { unfold ranks. rewrite Hfirst. cbn [fst dbfs]. rewrite lookup_insert_eq.
    vm_compute. reflexivity. }
  assert (Hr2 : ranks second.1 = Some [Some (Some "1"); Some (Some "8589934593")]).
  { unfold ranks. rewrite Hsecond. cbn [fst dbfs]. rewrite lookup_insert_eq.
    vm_compute. reflexivity. }
  split; [done|]. split; [done|]. split.
  - intros Heq. unfold ranks in Hr1, Hr2. rewrite Heq, Hr1 in Hr2. discriminate Hr2.
  - apply run_run.
Qed.

(** C9: the export is a CSV file with a header line, written at the
    transformed-data path, which is not the raw-data path, in place of
    whatever was there; its header is [Rank, Name, Platform, Year, Genre,
    Publisher, NA_Sales, EU_Sales, JP_Sales, Other_Sales, Global_Sales,
    Game_Total_Sales, Publisher_Total_Sales, Platform_Total_Sales,
    Genre_Total_Sales], and every record has these fifteen fields.  The
    header is the same for every run that finishes, whatever table it
    consumed. *)
Theorem export_has_canonical_layout (E : Engine) (recs : list (list (option string)))
    (fs : gmap string CsvFile) (ms : gmap string DataFrame) :
  let after := run E (fresh_world (vgsales recs) fs ms) in
  let out := to_csv E (mkDataFrame final_header (final_rows E recs)) in
  after.2 = true
  /\ dbfs after.1 !! transformed_data = Some out
  /\ dbfs after.1 !! raw_data = Some (vgsales recs)
  /\ transformed_data ≠ raw_data
  /\ header out
     = [ "Rank"; "Name"; "Platform"; "Year"; "Genre"; "Publisher";
         "NA_Sales"; "EU_Sales"; "JP_Sales"; "Other_Sales"; "Global_Sales";
         "Game_Total_Sales"; "Publisher_Total_Sales"; "Platform_Total_Sales";
         "Genre_Total_Sales" ]
  /\ length (records out) = length recs
  /\ Forall (fun r => length r = 15%nat) (records out)
  /\ (forall w, (run E w).2 = true ->
        exists out', dbfs (run E w).1 !! transformed_data = Some out'
                     /\ header out' = header out).
Proof.
  simpl. rewrite run_fresh_vgsales. simpl.
  split; [done|]. split; [apply lookup_insert_eq|]. split.
  { rewrite lookup_insert_ne by (symmetry; apply raw_data_ne_transformed_data).
    apply lookup_insert_eq. }
  split; [done|]. split; [done|]. split.
  { by rewrite length_fmap, length_final_rows. }
  split.
  { apply Forall_fmap, Forall_forall. intros r Hr. simpl. rewrite length_fmap.
    unfold final_rows in Hr. apply list_elem_of_fmap in Hr as ([id x] & -> & _).
    done. }
  intros w Hw.
  destruct (ingestion w) as [[w1 t]|] eqn:Hi.
  - rewrite (run_consumes E w w1 t Hi) in *.
    destruct (finalgames E t) as [fg|] eqn:Hfg; [|done]. simpl.
    exists (to_csv E fg). split; [apply lookup_insert_eq|].
    simpl. by apply finalgames_columns in Hfg.
  - unfold run in Hw. by rewrite Hi in Hw.
Qed.

(** ** The Schema Normalizer *)

Lemma lookup_cell_fmap {X} cols (h : X -> Row) xs n name :
  lookup_cell (mkDataFrame cols (h <$> xs)) n name
  = x ← xs !! n; p ← resolve cols name; Some (cell_at p (h x)).
Proof.
  unfold lookup_cell. simpl. rewrite list_lookup_fmap.
  by destruct (xs !! n).
Qed.

Lemma normalized_cells E recs n name t :
  (name, t) ∈ cast_targets ->
  lookup_cell (mkDataFrame vgsales_header (normalized_row E <$> recs)) n name
  = cast_cell E t <$> lookup_cell (read_csv (vgsales recs)) n name.
Proof.
  intros Hin. rewrite read_csv_vgsales, !lookup_cell_fmap.
  destruct (recs !! n) as [r|]; [|done]. simpl.
  unfold cast_targets in Hin.
  repeat (apply elem_of_cons in Hin as [[= -> ->]|Hin]; [reflexivity|]).
  by apply elem_of_nil in Hin.
Qed.

Lemma bad_cell_is_null_and_run_completes :
  let E0 := Reference.engine [] in
  cast_string_double E0 "abc" = None
  /\ (normalized ← schema_normalizer E0 (read_csv acme_file_bad_cell);
      Some ((fun name => lookup_cell normalized 0 name)
            <$> ["Rank"; "Year"; "NA_Sales"; "EU_Sales"]))
     = Some [ Some (Some (DInt 1)); Some (Some (DDate (mkDate 2006 1 1)));
              Some (Some (DDouble 1)); Some None ]
  /\ (run E0 (fresh_world acme_file_bad_cell ∅ ∅)).2 = true.
Proof.
  split; [reflexivity|]. split.
  - vm_compute. reflexivity.
  - unfold acme_file_bad_cell. by rewrite run_fresh_vgsales.
Qed.

(** C8: every cell the Schema Normalizer casts holds what Spark's parser
    for the target type makes of the raw text: the integer [Rank] the
    result of the integer parser, the date [Year] that of the date parser,
    the five sales columns that of the double parser; so where the parser
    fails on the text the cell is NULL, and where the raw cell is NULL it
    stays NULL.  The four columns that are not cast are as they were.
    Whatever the parsers fail on, the normalizer returns a table with the
    same columns and as many rows, and the run goes on to write an export
    with one record per input record.  On the reference engine the text
    [abc] in [EU_Sales] is such a failure: the cell is NULL, the other
    cells of the row are parsed, and the run completes. *)
Theorem cast_failures_become_null (E : Engine) (recs : list (list (option string))) :
  let raw := read_csv (vgsales recs) in
  exists normalized,
    schema_normalizer E raw = Some normalized
    /\ columns normalized = columns raw
    /\ length (rows normalized) = length (rows raw)
    /\ (forall n s,
          lookup_cell raw n "Rank" = Some (Some (DString s)) ->
          lookup_cell normalized n "Rank" = Some (DInt <$> cast_string_int E s)
          /\ (cast_string_int E s = None ->
              lookup_cell normalized n "Rank" = Some None))
    /\ (forall n s,
          lookup_cell raw n "Year" = Some (Some (DString s)) ->
          lookup_cell normalized n "Year" = Some (DDate <$> cast_string_date E s)
          /\ (cast_string_date E s = None ->
              lookup_cell normalized n "Year" = Some None))
    /\ (forall n name s,
          name ∈ ["NA_Sales"; "EU_Sales"; "JP_Sales"; "Other_Sales"; "Global_Sales"] ->
          lookup_cell raw n name = Some (Some (DString s)) ->
          lookup_cell normalized n name = Some (DDouble <$> cast_string_double E s)
          /\ (cast_string_double E s = None ->
              lookup_cell normalized n name = Some None))
    /\ (forall n name t, (name, t) ∈ cast_targets ->
          lookup_cell raw n name = Some None ->
          lookup_cell normalized n name = Some None)
    /\ (forall n name, name ∈ ["Name"; "Platform"; "Genre"; "Publisher"] ->
          lookup_cell normalized n name = lookup_cell raw n name)
    /\ (forall fs ms,
          let after := run E (fresh_world (vgsales recs) fs ms) in
          after.2 = true
          /\ exists out, dbfs after.1 !! transformed_data = Some out
                         /\ length (records out) = length recs)
    /\ (let E0 := Reference.engine [] in
        cast_string_double E0 "abc" = None
        /\ (normalized ← schema_normalizer E0 (read_csv acme_file_bad_cell);
            Some ((fun name => lookup_cell normalized 0 name)
                  <$> ["Rank"; "Year"; "NA_Sales"; "EU_Sales"]))
           = Some [ Some (Some (DInt 1)); Some (Some (DDate (mkDate 2006 1 1)));
                    Some (Some (DDouble 1)); Some None ]
        /\ (run E0 (fresh_world acme_file_bad_cell ∅ ∅)).2 = true).
Proof.
  intros raw. subst raw.
  exists (mkDataFrame vgsales_header (normalized_row E <$> recs)).
  split; [apply schema_normalizer_vgsales|]. split; [done|]. split.
  { cbn [rows]. rewrite read_csv_vgsales. cbn [rows]. by rewrite !length_fmap. }
  split.
  { intros n s Hraw.
    rewrite (normalized_cells E recs n "Rank" IntegerType), Hraw
      by (unfold cast_targets; repeat first [left | right]).
    split; [reflexivity|]. intros Hfail.
    cbn [fmap option_fmap option_map cast_cell mbind option_bind cast_data].
    by rewrite Hfail. }
  split.
  { intros n s Hraw.
    rewrite (normalized_cells E recs n "Year" DateType), Hraw
      by (unfold cast_targets; repeat first [left | right]).
    split; [reflexivity|]. intros Hfail.
    cbn [fmap option_fmap option_map cast_cell mbind option_bind cast_data].
    by rewrite Hfail. }
  split.
  { intros n name s Hin Hraw.
    assert ((name, DoubleType) ∈ cast_targets) as Ht.
    { unfold cast_targets.
      repeat (apply elem_of_cons in Hin as [->|Hin]; [repeat first [left | right]|]).
      by apply elem_of_nil in Hin. }
    rewrite (normalized_cells E recs n name DoubleType Ht), Hraw.
    split; [reflexivity|]. intros Hfail.
    cbn [fmap option_fmap option_map cast_cell mbind option_bind cast_data].
    by rewrite Hfail. }
  split.
  { intros n name t Hin Hraw. by rewrite (normalized_cells E recs n name t Hin), Hraw. }
  split.
  { intros n name Hin. rewrite read_csv_vgsales, !lookup_cell_fmap.
    destruct (recs !! n) as [r|]; [|done]. cbn [mbind option_bind].
    repeat (apply elem_of_cons in Hin as [->|Hin]; [reflexivity|]).
    by apply elem_of_nil in Hin. }
  split; [|apply bad_cell_is_null_and_run_completes].
  intros fs ms. rewrite run_fresh_vgsales. cbn [fst snd dbfs]. split; [done|].
  eexists. split; [apply lookup_insert_eq|].
  cbn [records to_csv rows]. by rewrite length_fmap, length_final_rows.
Qed.

(** ** The Data Corrector *)

Section SortRelated.
Context {A B : Type} (R : A -> B -> Prop).
Context (beforeA : A -> A -> bool) (beforeB : B -> B -> bool).
Hypothesis before_related :
  forall a b a' b', R a a' -> R b b' -> beforeA a b = beforeB a' b'.

Lemma insert_sorted_Forall2 x y l l' :
  R x y -> Forall2 R l l' ->
  Forall2 R (insert_sorted beforeA x l) (insert_sorted beforeB y l').
Proof.
  intros Hxy Hl. induction Hl as [|a b l l' Hab Hl IH]; simpl.
  - by repeat constructor.
  - rewrite (before_related a x b y Hab Hxy).
    destruct (beforeB b y); repeat constructor; done.
Qed.

Lemma stable_sort_Forall2 l l' :
  Forall2 R l l' -> Forall2 R (stable_sort beforeA l) (stable_sort beforeB l').
Proof.
  induction 1 as [|a b l l' Hab Hl IH]; simpl; [constructor|].
  by apply insert_sorted_Forall2.
Qed.
End SortRelated.

Lemma fmap_zip_related {X C} (R : X -> X -> Prop) (f : Z -> X -> C) ids l l' :
  Forall2 R l l' ->
  (forall id x y, R x y -> f id x = f id y) ->
  (fun ix => f ix.1 ix.2) <$> zip ids l = (fun ix => f ix.1 ix.2) <$> zip ids l'.
Proof.
  intros Hl Hf. revert ids.
  induction Hl as [|x y l l' Hxy Hl IH]; intros [|id ids]; csimpl; try done.
  by rewrite (Hf id x y Hxy), IH.
Qed.

Lemma fmap_related {X C} (R : X -> X -> Prop) (f : X -> C) l l' :
  Forall2 R l l' -> (forall x y, R x y -> f x = f y) -> f <$> l = f <$> l'.
Proof.
  intros Hl Hf. induction Hl as [|x y l l' Hxy Hl IH]; csimpl; [done|].
  by rewrite (Hf x y Hxy), IH.
Qed.

(** Records that agree on their first ten fields, that is, on every field
    but [Global_Sales]. *)
Lemma raw_cell_take r r' i :
  take 10 r = take 10 r' -> (i < 10)%nat -> raw_cell i r = raw_cell i r'.
Proof.
  intros Ht Hi. unfold raw_cell.
  by rewrite <- (lookup_take_lt r 10 i), Ht, lookup_take_lt by done.
Qed.

Lemma unranked_row_take E r r' :
  take 10 r = take 10 r' -> unranked_row E r = unranked_row E r'.
Proof.
  intros Ht. unfold unranked_row, recomputed_global, year_text.
  by rewrite !(raw_cell_take r r' _ Ht) by lia.
Qed.

Lemma recomputed_global_take E r r' :
  take 10 r = take 10 r' -> recomputed_global E r = recomputed_global E r'.
Proof.
  intros Ht. unfold recomputed_global.
  by rewrite !(raw_cell_take r r' _ Ht) by lia.
Qed.

Lemma ranked_row_take E id r r' :
  take 10 r = take 10 r' -> ranked_row E id r = ranked_row E id r'.
Proof.
  intros Ht. unfold ranked_row, recomputed_global, year_text.
  by rewrite !(raw_cell_take r r' _ Ht) by lia.
Qed.

Lemma corrected_rows_take E recs recs' :
  Forall2 (fun r r' => take 10 r = take 10 r') recs recs' ->
  corrected_rows E recs = corrected_rows E recs'.
Proof.
  intros Hrecs.
  assert (Hsorted : Forall2 (fun r r' => take 10 r = take 10 r')
                      (sorted_records E recs) (sorted_records E recs')).
  { apply stable_sort_Forall2; [|done].
    intros a b a' b' Ha Hb.
    by rewrite (recomputed_global_take E a a' Ha), (recomputed_global_take E b b' Hb). }
  unfold corrected_rows, rank_ids.
  rewrite (fmap_related _ (unranked_row E) _ _ Hsorted (unranked_row_take E)).
  apply (fmap_zip_related _ (ranked_row E) _ _ _ Hsorted).
  intros id x y. apply ranked_row_take.
Qed.

(** C3: in every row of the corrected table, [Global_Sales] is
    [NA_Sales + EU_Sales + JP_Sales + Other_Sales] (SQL addition of doubles),
    and so it is in every row of the exported table; the corrected table
    does not depend on the [Global_Sales] field of the file; and a record
    with NA 1.0, EU 2.0, JP 0.0, Other 0.5 gets 3.5, whatever its other
    fields and its own [Global_Sales] are. *)
Theorem global_sales_is_recomputed (E : Engine) (recs : list (list (option string))) :
  (exists gamestb,
     corrected E (vgsales recs) = Some gamestb
     /\ (forall r, r ∈ rows gamestb ->
           row_cell gamestb "Global_Sales" r
           = sql_add (sql_add (sql_add (row_cell gamestb "NA_Sales" r)
                                       (row_cell gamestb "EU_Sales" r))
                              (row_cell gamestb "JP_Sales" r))
                     (row_cell gamestb "Other_Sales" r))
     /\ (forall recs',
           Forall2 (fun r r' => take 10 r = take 10 r') recs recs' ->
           corrected E (vgsales recs') = Some gamestb))
  /\ (exists exported,
        finalgames E (read_csv (vgsales recs)) = Some exported
        /\ forall r, r ∈ rows exported ->
             row_cell exported "Global_Sales" r
             = sql_add (sql_add (sql_add (row_cell exported "NA_Sales" r)
                                         (row_cell exported "EU_Sales" r))
                                (row_cell exported "JP_Sales" r))
                       (row_cell exported "Other_Sales" r))
  /\ (forall rank name platform year genre publisher source_global,
        (gamestb ← corrected (Reference.engine [])
                     (vgsales [[rank; name; platform; year; genre; publisher;
                                Some "1.0"; Some "2.0"; Some "0.0"; Some "0.5";
                                source_global]]);
         lookup_cell gamestb 0 "Global_Sales")
        = Some (Some (DDouble 3.5))).
Proof.
  split; [|split].
  - exists (mkDataFrame corrected_header (corrected_rows E recs)).
    split; [apply corrected_vgsales|]. split.
    + intros r Hr. simpl in Hr. unfold corrected_rows in Hr.
      apply list_elem_of_fmap in Hr as ([id x] & -> & _). reflexivity.
    + intros recs' Hrecs. rewrite corrected_vgsales.
      by rewrite (corrected_rows_take E recs recs' Hrecs).
  - exists (mkDataFrame final_header (final_rows E recs)).
    split; [apply finalgames_vgsales|].
    intros r Hr. simpl in Hr. unfold final_rows in Hr.
    apply list_elem_of_fmap in Hr as ([id x] & -> & _). reflexivity.
  - intros. rewrite corrected_vgsales. vm_compute. reflexivity.
Qed.

(** ** The rollup joins *)

Lemma length_joined_row i total l :
  (i < length l)%nat -> length (joined_row i total l) = S (length l).
Proof.
  intros Hi. unfold joined_row.
  change (S (length (delete i l ++ [total (cell_at i l)])) = S (length l)).
  rewrite length_app, length_delete by by apply lookup_lt_is_Some.
  simpl. lia.
Qed.

Lemma cell_at_joined_row i total l p :
  (p < length l)%nat -> (i < length l)%nat ->
  cell_at (moved i p) (joined_row i total l) = cell_at p l.
Proof.
  intros Hp Hi. unfold moved, joined_row, cell_at.
  destruct (decide (p = i)) as [->|Hne]; [done|].
  destruct (decide (p < i)%nat) as [Hlt|Hge].
  - change (default None ((delete i l ++ [total (default None (l !! i))]) !! p)
            = default None (l !! p)).
    rewrite lookup_app_l
      by (rewrite length_delete by (by apply lookup_lt_is_Some); lia).
    by rewrite list_lookup_delete_lt.
  - destruct p as [|p]; [lia|].
    change (default None ((delete i l ++ [total (default None (l !! i))]) !! p)
            = default None (l !! S p)).
    rewrite lookup_app_l
      by (rewrite length_delete by (by apply lookup_lt_is_Some); lia).
    by rewrite list_lookup_delete_ge by lia.
Qed.

Lemma Forall_length_joined_row i total n rs :
  (i < n)%nat ->
  Forall (fun l : Row => length l = n) rs ->
  Forall (fun l : Row => length l = S n) (joined_row i total <$> rs).
Proof.
  intros Hi Hrs. apply Forall_fmap. eapply Forall_impl; [exact Hrs|].
  intros l <-. simpl. by apply length_joined_row.
Qed.

Lemma join_adds_one_column name key i total cols cols' rs :
  Forall (fun l : Row => length l = length cols) rs ->
  cols !! i = Some key ->
  name ∉ cols ->
  key :: delete i cols ++ [name] = cols' ->
  columns_moved i cols cols' = true ->
  adds_one_column name (mkDataFrame cols rs)
    (mkDataFrame cols' (joined_row i total <$> rs)).
Proof.
  intros Hwf Hkey Hname <- Hmoved. unfold adds_one_column. simpl.
  split; [done|]. split.
  { rewrite (delete_Permutation cols i key Hkey) at 2. done. }
  split; [by rewrite length_fmap|].
  intros n c Hn Hc.
  destruct (lookup_lt_is_Some_2 rs n Hn) as [l Hl].
  assert (Hlen : length l = length cols).
  { rewrite Forall_forall in Hwf. apply Hwf. by eapply list_elem_of_lookup_2. }
  unfold columns_moved in Hmoved. rewrite forallb_forall in Hmoved.
  specialize (Hmoved c (proj1 (list_elem_of_In _ _) Hc)).
  destruct (resolve cols c) as [p|] eqn:Hp; [|done].
  destruct (resolve (key :: delete i cols ++ [name]) c) as [p'|] eqn:Hp'; [|done].
  apply andb_prop in Hmoved as [Hp'eq Hplt].
  apply bool_decide_eq_true in Hp'eq as ->. apply bool_decide_eq_true in Hplt.
  exists (cell_at p l). unfold lookup_cell. simpl.
  rewrite Hl, Hp, list_lookup_fmap, Hl. simpl. rewrite Hp'. simpl.
  split; [done|]. f_equal. apply cell_at_joined_row; [lia|].
  rewrite Hlen. by eapply lookup_lt_Some.
Qed.

Lemma corrected_rows_length E recs :
  Forall (fun l : Row => length l = 11%nat) (corrected_rows E recs).
Proof.
  unfold corrected_rows. apply Forall_fmap, Forall_forall. by intros [id r] _.
Qed.

Ltac join_frame :=
  eapply join_adds_one_column;
  [ simpl; first [ apply corrected_rows_length
                 | repeat (apply Forall_length_joined_row; [lia|]);
                   apply corrected_rows_length ]
  | reflexivity
  | refine (proj1 (bool_decide_eq_false _) _); vm_compute; reflexivity
  | reflexivity
  | vm_compute; reflexivity ].

(** C7: each of the four rollup left joins (by name, publisher, platform,
    genre), applied one after the other to the corrected table, gives a
    table with the columns it had and one new column, with as many rows,
    and with every cell it had, row by row and column by column,
    unchanged. *)
Theorem rollup_joins_add_one_column (E : Engine) (recs : list (list (option string))) :
  exists gamestb by_name by_publisher by_platform by_genre,
    corrected E (vgsales recs) = Some gamestb
    /\ gamestb_with_totals E gamestb = Some by_name
    /\ df_with_totals_and_publisher_sales E gamestb = Some by_publisher
    /\ df_with_totals_publisher_platform E gamestb = Some by_platform
    /\ df_with_totals_publisher_platform_genre E gamestb = Some by_genre
    /\ adds_one_column "Game_Total_Sales" gamestb by_name
    /\ adds_one_column "Publisher_Total_Sales" by_name by_publisher
    /\ adds_one_column "Platform_Total_Sales" by_publisher by_platform
    /\ adds_one_column "Genre_Total_Sales" by_platform by_genre.
Proof.
  eexists _, _, _, _, _.
  split; [apply corrected_vgsales|].
  split; [apply gamestb_with_totals_closed|].
  split; [apply df_with_totals_and_publisher_sales_closed|].
  split; [apply df_with_totals_publisher_platform_closed|].
  split; [apply df_with_totals_publisher_platform_genre_closed|].
  split; [join_frame|]. split; [join_frame|]. split; join_frame.
Qed.

(** ** The chart cells *)

Lemma select_Some E cs df d :
  select E cs df = Some d ->
  columns d = output_name <$> cs
  /\ Forall (fun r : Row => length r = length cs) (rows d).
Proof.
  unfold select. destruct (forallb (analyze (columns df)) cs); [|done].
  intros [= <-]. simpl. split; [done|].
  apply Forall_fmap, Forall_forall. intros ir _. simpl. by rewrite length_fmap.
Qed.

Lemma orderBy_Some o df d :
  orderBy o df = Some d -> columns d = columns df /\ rows d ≡ₚ rows df.
Proof.
  unfold orderBy. destruct o as [name|name];
    (destruct (resolve (columns df) name) as [i|]; [|done]); simpl;
    intros [= <-]; simpl; (split; [done|]); apply stable_sort_Permutation.
Qed.

Lemma filter_rows_Some E c df d :
  filter_rows E c df = Some d ->
  columns d = columns df /\ forall r, r ∈ rows d -> r ∈ rows df.
Proof.
  unfold filter_rows. destruct (analyze (columns df) c); [|done].
  intros [= <-]. simpl. split; [done|].
  intros r Hr. apply list_elem_of_fmap in Hr as ([id r'] & -> & Hin).
  apply list_elem_of_In, filter_In in Hin as [Hin _].
  apply list_elem_of_In in Hin. unfold with_ids in Hin.
  apply elem_of_zip_r in Hin. done.
Qed.

Lemma top_ranked_games_shape E fg q :
  top_ranked_games E fg = Some q ->
  columns q = ["Rank"; "Name"; "Platform"; "Global_Sales"; "Year"]
  /\ Forall (fun r : Row => length r = 5%nat) (rows q).
Proof.
  unfold top_ranked_games. intros H.
  destruct (select E _ fg) as [s|] eqn:Hs; [|done]. rewrite bind_some in H.
  destruct (orderBy _ s) as [o|] eqn:Ho; [|done]. rewrite bind_some in H.
  injection H as <-.
  apply select_Some in Hs as [Hcols Hrows].
  apply orderBy_Some in Ho as [Hcols' Hperm]. simpl.
  split; [by rewrite Hcols', Hcols|].
  apply Forall_take. by rewrite Hperm.
Qed.

Lemma top_ranked_games_2010_shape E fg q :
  top_ranked_games_2010 E fg = Some q ->
  columns q = ["Rank"; "Name"; "Platform"; "Global_Sales"; "Year"]
  /\ Forall (fun r : Row => length r = 5%nat) (rows q).
Proof.
  unfold top_ranked_games_2010. intros H.
  destruct (select E _ fg) as [s|] eqn:Hs; [|done]. rewrite bind_some in H.
  destruct (filter_rows E _ s) as [f|] eqn:Hf; [|done]. rewrite bind_some in H.
  destruct (orderBy _ f) as [o|] eqn:Ho; [|done]. rewrite bind_some in H.
  injection H as <-.
  apply select_Some in Hs as [Hcols Hrows].
  apply filter_rows_Some in Hf as [Hcols' Hsub].
  apply orderBy_Some in Ho as [Hcols'' Hperm]. simpl.
  split; [by rewrite Hcols'', Hcols', Hcols|].
  apply Forall_take. rewrite Hperm. apply Forall_forall. intros r Hr.
  rewrite Forall_forall in Hrows. by apply Hrows, Hsub.
Qed.

(** The value of a series indexed 0, 1, 2, ... at the label [n]. *)
Lemma series_at_range vals m n :
  series_at (mkSeries (Z.of_nat <$> seq 0 m) vals) (Z.of_nat n)
  = if decide (n < m)%nat then cell_at n vals else None.
Proof.
  unfold series_at. simpl. case_decide as Hn.
  - assert (list_find (fun l => l = Z.of_nat n) (Z.of_nat <$> seq 0 m)
            = Some (n, Z.of_nat n)) as ->; [|done].
    apply list_find_Some. split_and!; [|done|].
    + by rewrite list_lookup_fmap, lookup_seq_lt.
    + intros j y Hy Hj ->. rewrite list_lookup_fmap in Hy.
      apply fmap_Some in Hy as (k & Hk & Heq). apply lookup_seq in Hk as [-> _].
      lia.
  - assert (list_find (fun l => l = Z.of_nat n) (Z.of_nat <$> seq 0 m) = None) as ->;
      [|done].
    apply list_find_None, Forall_fmap, Forall_forall. intros k Hk. simpl.
    apply elem_of_seq in Hk. lia.
Qed.

Lemma cell_at_dict_get d (vals : list cell) n :
  cell_at n (dict_get d <$> vals) = dict_get d (cell_at n vals).
Proof.
  unfold cell_at. rewrite list_lookup_fmap. by destruct (vals !! n).
Qed.

Lemma getitem_platform cols pf :
  pd_columns pf = cols ->
  position "Platform" cols = Some 2%nat ->
  getitem "Platform" pf
  = Some (mkSeries (pd_index pf) (cell_at 2 <$> pd_rows pf)).
Proof. intros Hc Hp. unfold getitem. by rewrite Hc, Hp. Qed.

Lemma setitem_new name s pf :
  position name (pd_columns pf) = None ->
  setitem name s pf
  = mkPandasFrame (pd_columns pf ++ [name]) (pd_index pf)
      (zip_with (fun label r => r ++ [series_at s label]) (pd_index pf) (pd_rows pf)).
Proof. intros Hp. unfold setitem. by rewrite Hp. Qed.

(** The frame the first chart cell leaves. *)
Lemma top_ranked_games_pd_closed E fg q :
  top_ranked_games E fg = Some q ->
  top_ranked_games_pd E fg
  = Some (mkPandasFrame
            ["Rank"; "Name"; "Platform"; "Global_Sales"; "Year"; "Color"]
            (Z.of_nat <$> seq 0 (length (rows q)))
            (zip_with
               (fun label r =>
                  r ++ [series_at
                          (series_map platform_colors
                             (mkSeries (Z.of_nat <$> seq 0 (length (rows q)))
                                (cell_at 2 <$> rows q)))
                          label])
               (Z.of_nat <$> seq 0 (length (rows q))) (rows q))).
Proof.
  intros Hq. destruct (top_ranked_games_shape E fg q Hq) as [Hcols _].
  unfold top_ranked_games_pd. rewrite Hq, bind_some.
  erewrite getitem_platform; [|exact Hcols|reflexivity].
  rewrite bind_some, setitem_new by (simpl; by rewrite Hcols).
  simpl. by rewrite Hcols.
Qed.

Lemma lookup_labelled {C} (f : Z -> Row -> C) (rs : list Row) n r :
  rs !! n = Some r ->
  zip_with f (Z.of_nat <$> seq 0 (length rs)) rs !! n = Some (f (Z.of_nat n) r).
Proof.
  intros Hr. rewrite lookup_zip_with, list_lookup_fmap.
  rewrite lookup_seq_lt by by eapply lookup_lt_Some.
  simpl. by rewrite Hr.
Qed.

(** The platform the first chart's frame has at the label [n]. *)
Lemma first_platform_at E fg q n :
  top_ranked_games E fg = Some q ->
  forall first, top_ranked_games_pd E fg = Some first ->
  series_at (series_map platform_colors_2010
               (mkSeries (pd_index first) (cell_at 2 <$> pd_rows first)))
            (Z.of_nat n)
  = dict_get platform_colors_2010 (row_cell q "Platform" (default [] (rows q !! n))).
Proof.
  intros Hq first Hfirst.
  destruct (top_ranked_games_shape E fg q Hq) as [Hcols Hlen].
  rewrite (top_ranked_games_pd_closed E fg q Hq) in Hfirst.
  injection Hfirst as <-. unfold series_map. simpl.
  rewrite series_at_range, cell_at_dict_get.
  unfold row_cell. rewrite Hcols.
  change (resolve ["Rank"; "Name"; "Platform"; "Global_Sales"; "Year"] "Platform")
    with (Some 2%nat).
  case_decide as Hn.
  - destruct (lookup_lt_is_Some_2 (rows q) n Hn) as [r Hr]. rewrite Hr. simpl.
    f_equal. unfold cell_at at 1. rewrite list_lookup_fmap.
    rewrite (lookup_labelled _ (rows q) n r Hr). simpl.
    assert (length r = 5%nat) as Hr5.
    { rewrite Forall_forall in Hlen. apply Hlen. by eapply list_elem_of_lookup_2. }
    unfold cell_at. by rewrite lookup_app_l by lia.
  - rewrite lookup_ge_None_2 by lia. done.
Qed.

(** C6, as the notebook has it: the [Color] column of the since-2010 frame
    is the colour table of the since-2010 cell (PS3 blue, X360 green, PS4
    red, DS purple, 3DS orange) applied to the [Platform] column of the
    first, all-time query, label by label; the platforms of the since-2010
    query play no part. *)
Theorem since_2010_colors_come_from_first_query (E : Engine)
    (finalgames all_time since_2010 : DataFrame) :
  top_ranked_games E finalgames = Some all_time ->
  top_ranked_games_2010 E finalgames = Some since_2010 ->
  exists frame,
    top_ranked_games_2010_pd E finalgames = Some frame
    /\ pd_columns frame = ["Rank"; "Name"; "Platform"; "Global_Sales"; "Year"; "Color"]
    /\ length (pd_rows frame) = length (rows since_2010)
    /\ forall n r, rows since_2010 !! n = Some r ->
         pd_rows frame !! n
         = Some (r ++ [dict_get platform_colors_2010
                         (row_cell all_time "Platform"
                            (default [] (rows all_time !! n)))]).
Proof.
  intros Hq1 Hq2.
  destruct (top_ranked_games_2010_shape E finalgames since_2010 Hq2) as [Hcols2 _].
  pose proof (top_ranked_games_pd_closed E finalgames all_time Hq1) as Hfirst.
  unfold top_ranked_games_2010_pd.
  rewrite Hfirst, bind_some, Hq2, bind_some.
  erewrite getitem_platform; [|reflexivity|reflexivity].
  rewrite bind_some, setitem_new by (simpl; by rewrite Hcols2).
  eexists. split; [reflexivity|]. simpl. split; [by rewrite Hcols2|]. split.
  { rewrite length_zip_with, length_fmap, length_seq. lia. }
  intros n r Hr. rewrite (lookup_labelled _ (rows since_2010) n r Hr).
  do 2 f_equal. f_equal.
  apply (first_platform_at E finalgames all_time n Hq1 _ Hfirst).
Qed.

Lemma since_2010_colors_come_from_first_query_witness :
  exists frame,
    top_ranked_games_2010_pd (Reference.engine []) (exported two_games_file) = Some frame
    /\ pd_columns frame = ["Rank"; "Name"; "Platform"; "Global_Sales"; "Year"; "Color"]
    /\ length (pd_rows frame) = length (rows (since_2010_query two_games_file))
    /\ forall n r, rows (since_2010_query two_games_file) !! n = Some r ->
         pd_rows frame !! n
         = Some (r ++ [dict_get platform_colors_2010
                         (row_cell (all_time_query two_games_file) "Platform"
                            (default [] (rows (all_time_query two_games_file) !! n)))]).
Proof.
  apply (since_2010_colors_come_from_first_query (Reference.engine [])
           (exported two_games_file) (all_time_query two_games_file)
           (since_2010_query two_games_file)).
  - vm_compute. reflexivity.
  - vm_compute. reflexivity.
Defined.

(** C6, as the claim words it, fails: on the two-game file the first
    chart's [Color] column starts with blue (Wii), while the since-2010
    frame's only colour is NaN: its row is labelled 0, the first query's
    platform at label 0 is Wii, and Wii is no key of the since-2010 colour
    table. *)
Lemma colors_are_not_read_from_first_color_column :
  ~ colors_read_from_first_color_column (Reference.engine []) (exported two_games_file).
Proof.
  intros H.
  set (first := default (mkPandasFrame [] [] [])
                  (top_ranked_games_pd (Reference.engine []) (exported two_games_file))).
  set (since := default (mkPandasFrame [] [] [])
                  (top_ranked_games_2010_pd (Reference.engine [])
                     (exported two_games_file))).
  assert (top_ranked_games_pd (Reference.engine []) (exported two_games_file)
          = Some first) as H1 by (vm_compute; reflexivity).
  assert (top_ranked_games_2010_pd (Reference.engine []) (exported two_games_file)
          = Some since) as H2 by (vm_compute; reflexivity).
  assert (color_column since !! 0%nat = Some None) as H3 by (vm_compute; reflexivity).
  specialize (H first since H1 H2 0%nat None H3).
  vm_compute in H. discriminate H.
Qed.

(** ** The drop-null cell *)

(** C1 fails on the notebook: [gamestb.dropna()] would drop the record
    without a year, but its result is not kept, so the corrected table and
    the exported table still hold that record, with a NULL year. *)
Theorem null_row_reaches_every_later_stage :
  let E := Reference.engine [] in
  let raw := read_csv null_year_file in
  (normalized ← schema_normalizer E raw;
   Some (cell_at 1 <$> rows normalized, cell_at 1 <$> rows (dropna normalized)))
  = Some ([Some (DString "Alpha"); Some (DString "Beta")], [Some (DString "Alpha")])
  /\ (gamestb ← corrected E null_year_file;
      Some ((fun r => (row_cell gamestb "Name" r, row_cell gamestb "year" r))
            <$> rows gamestb))
     = Some [ (Some (DString "Beta"), None);
              (Some (DString "Alpha"), Some (DString "2006")) ]
  /\ (exported ← finalgames E raw;
      Some ((fun r => (row_cell exported "Name" r, row_cell exported "Year" r))
            <$> rows exported))
     = Some [ (Some (DString "Beta"), None);
              (Some (DString "Alpha"), Some (DDate (mkDate 2006 1 1))) ].
Proof. vm_compute. done. Qed.

(** ** Rank reassignment *)

(** C2 fails on the notebook: when the sorted table lies in two partitions
    (here one row each), [monotonically_increasing_id() + 1] gives the two
    rows the ranks 1 and 2^33 + 1, not 1 and 2. *)
Theorem rank_is_not_contiguous_across_partitions :
  (gamestb ← corrected (Reference.engine [1%nat]) two_games_file;
   Some ((fun r => (row_cell gamestb "Rank" r, row_cell gamestb "Name" r))
         <$> rows gamestb))
  = Some [ (Some (DLong 1), Some (DString "Wii Sports"));
           (Some (DLong 8589934593), Some (DString "Grand Theft Auto V")) ].
Proof. vm_compute. done. Qed.

(** ** Rollup totals *)

(** C4 on the notebook: with complete records the two Acme rows (global
    sales 1.0 and 2.0) both get the publisher total 3.0; but when a sales
    cell of one of them does not parse, the record is not dropped, its
    global sales are NULL, and both rows still get 3.0, while the global
    sales of the publisher's rows sum to 2.0. *)
Theorem rollup_differs_from_sum_of_global_sales :
  let E := Reference.engine [] in
  (exported ← finalgames E (read_csv acme_file);
   Some ((fun r => (row_cell exported "Global_Sales" r,
                    row_cell exported "Publisher_Total_Sales" r))
         <$> rows exported))
  = Some [ (Some (DDouble 2), Some (DDouble 3)); (Some (DDouble 1), Some (DDouble 3)) ]
  /\ (exported ← finalgames E (read_csv acme_file_bad_cell);
      Some ((fun r => (row_cell exported "Publisher" r,
                       row_cell exported "Global_Sales" r,
                       row_cell exported "Publisher_Total_Sales" r))
            <$> rows exported,
            sql_sum (row_cell exported "Global_Sales" <$> rows exported)))
     = Some ([ (Some (DString "Acme"), Some (DDouble 2), Some (DDouble 3));
               (Some (DString "Acme"), None, Some (DDouble 3)) ],
             Some (DDouble 2)).
Proof. vm_compute. done. Qed.

(** ** Further properties of the corrected table *)

(** The notebook drops no record: the drop-null cell leaves the working
    table as it was, and every record of the file, complete or not, has its
    row in the exported table. *)
Theorem every_record_is_exported (E : Engine) (recs : list (list (option string))) :
  (forall gamestb, drop_null_step gamestb = gamestb)
  /\ exists table,
       finalgames E (read_csv (vgsales recs)) = Some table
       /\ length (rows table) = length recs
       /\ forall r, r ∈ recs ->
            exists id, final_row E (corrected_rows E recs) id r ∈ rows table.
Proof.
  split; [done|].
  exists (mkDataFrame final_header (final_rows E recs)).
  split; [apply finalgames_vgsales|]. split; [apply length_final_rows|].
  intros r Hr. simpl. unfold final_rows.
  apply (elem_of_stable_sort
           (fun x y => before_desc (recomputed_global E x) (recomputed_global E y)))
    in Hr.
  apply list_elem_of_lookup in Hr as [n Hn].
  destruct (lookup_lt_is_Some_2 (rank_ids E recs) n) as [id Hid].
  { unfold rank_ids. rewrite length_row_ids, length_fmap. by eapply lookup_lt_Some. }
  exists id. apply list_elem_of_fmap. exists (id, r). split; [done|].
  apply (list_elem_of_lookup_2 _ n). rewrite lookup_zip_with, Hid. simpl.
  unfold sorted_records. by rewrite Hn.
Qed.

Lemma wrap64_small z : - 2 ^ 63 <= z < 2 ^ 63 -> wrap64 z = z.
Proof.
  intros Hz. unfold wrap64.
  replace (2 ^ 64) with (2 * 2 ^ 63) by reflexivity.
  rewrite Z.mod_small; lia.
Qed.

Lemma fmap_zip_fst {X C} (f : Z -> C) (ids : list Z) (xs : list X) :
  length ids = length xs ->
  (fun ix : Z * X => f ix.1) <$> zip ids xs = f <$> ids.
Proof.
  revert xs. induction ids as [|id ids IH]; intros [|x xs] Hlen; csimpl; try done.
  rewrite IH; [done|]. simpl in Hlen. lia.
Qed.

Lemma length_sorted_records E recs : length (sorted_records E recs) = length recs.
Proof. apply length_stable_sort. Qed.

Lemma length_rank_ids E recs : length (rank_ids E recs) = length recs.
Proof.
  unfold rank_ids. by rewrite length_row_ids, length_fmap, length_sorted_records.
Qed.

Lemma single_partition_ranks E recs :
  partition_sizes E (unranked_row E <$> sorted_records E recs) = [] ->
  Z.of_nat (length recs) < 2 ^ 63 ->
  (fun ir : Z * list (option string) => Some (DLong (wrap64 (ir.1 + 1))))
  <$> zip (rank_ids E recs) (sorted_records E recs)
  = (fun i : nat => Some (DLong (Z.of_nat i + 1))) <$> seq 0 (length recs).
Proof.
  intros Hsizes Hlen.
  rewrite (fmap_zip_fst (fun id => Some (DLong (wrap64 (id + 1)))))
    by by rewrite length_rank_ids, length_sorted_records.
  unfold rank_ids, row_ids. rewrite Hsizes. simpl. unfold partition_ids.
  rewrite length_fmap, length_sorted_records, <- list_fmap_compose.
  apply list_fmap_ext. intros k i Hi. apply lookup_seq in Hi as [-> Hk]. simpl.
  rewrite Z.shiftl_0_l, Z.add_0_l.
  assert (0 < 2 ^ 63) by done.
  rewrite (wrap64_small (Z.of_nat _)) by lia.
  by rewrite wrap64_small by lia.
Qed.

(** When the sorted table lies in a single partition, the ranks are 1, 2,
    ..., N down the rows of the corrected table. *)
Theorem single_partition_rank_is_row_number (E : Engine)
    (recs : list (list (option string))) :
  partition_sizes E (unranked_row E <$> sorted_records E recs) = [] ->
  Z.of_nat (length recs) < 2 ^ 63 ->
  exists gamestb,
    corrected E (vgsales recs) = Some gamestb
    /\ row_cell gamestb "Rank" <$> rows gamestb
       = (fun i : nat => Some (DLong (Z.of_nat i + 1))) <$> seq 0 (length recs).
Proof.
  intros Hsizes Hlen.
  exists (mkDataFrame corrected_header (corrected_rows E recs)).
  split; [apply corrected_vgsales|]. simpl.
  rewrite <- (single_partition_ranks E recs Hsizes Hlen).
  unfold corrected_rows. rewrite <- list_fmap_compose.
  apply list_fmap_ext. by intros _ [id r] _.
Qed.

Lemma single_partition_rank_is_row_number_witness :
  exists gamestb,
    corrected (Reference.engine []) two_games_file = Some gamestb
    /\ row_cell gamestb "Rank" <$> rows gamestb
       = (fun i : nat => Some (DLong (Z.of_nat i + 1))) <$> seq 0 2.
Proof.
  apply (single_partition_rank_is_row_number (Reference.engine [])
           (records two_games_file)).
  - reflexivity.
  - vm_compute. reflexivity.
Defined.

(** ** Descending order *)

Lemma sf_compare_antisym a b : sf_compare b a = CompOpp (sf_compare a b).
Proof.
  destruct a as [s1|s1| |s1 m1 e1], b as [s2|s2| |s2 m2 e2]; simpl;
    try done; try (by destruct s1); try (by destruct s2);
    try (by destruct s1, s2).
  destruct s1, s2; simpl; try done;
    rewrite (Z.compare_antisym e1 e2); destruct (e1 ?= e2); simpl; try done;
    change (Pos.compare_cont Eq m2 m1) with (Pos.compare m2 m1);
    change (Pos.compare_cont Eq m1 m2) with (Pos.compare m1 m2);
    rewrite (Pos.compare_antisym m1 m2); by destruct (m1 ?= m2)%positive.
Qed.

Lemma date_compare_antisym a b : date_compare b a = CompOpp (date_compare a b).
Proof.
  unfold date_compare.
  rewrite (Z.compare_antisym (d_year a)), (Z.compare_antisym (d_month a)),
    (Z.compare_antisym (d_day a)).
  destruct (d_year a ?= d_year b), (d_month a ?= d_month b), (d_day a ?= d_day b); done.
Qed.

Lemma data_compare_antisym a b : data_compare b a = CompOpp (data_compare a b).
Proof.
  destruct a as [s1|z1|z1|d1|x1|b1], b as [s2|z2|z2|d2|x2|b2]; try done.
  - apply String.compare_antisym.
  - apply Z.compare_antisym.
  - apply Z.compare_antisym.
  - apply date_compare_antisym.
  - apply sf_compare_antisym.
  - by destruct b1, b2.
Qed.

Lemma before_desc_asym a b : before_desc a b = true -> before_desc b a = false.
Proof.
  destruct a as [x|], b as [y|]; simpl; try done.
  rewrite (data_compare_antisym x y). by destruct (data_compare x y).
Qed.

Section SortedFacts.
Context {A : Type} (before : A -> A -> bool).
Hypothesis before_asym : forall a b, before a b = true -> before b a = false.

Let follows (a b : A) : Prop := before b a = false.

Lemma HdRel_insert_sorted y x l :
  follows y x -> HdRel follows y l -> HdRel follows y (insert_sorted before x l).
Proof.
  intros Hyx Hl. destruct l as [|z l]; simpl; [by constructor|].
  destruct (before z x); constructor; [by inversion Hl|done].
Qed.

Lemma insert_sorted_Sorted x l :
  Sorted follows l -> Sorted follows (insert_sorted before x l).
Proof.
  induction 1 as [|y l Hl IH Hhd]; simpl; [by repeat constructor|].
  destruct (before y x) eqn:Hyx.
  - constructor; [done|]. apply HdRel_insert_sorted; [|done].
    by apply before_asym.
  - repeat constructor; done.
Qed.

Lemma stable_sort_Sorted l : Sorted follows (stable_sort before l).
Proof.
  induction l as [|x l IH]; simpl; [constructor|]. by apply insert_sorted_Sorted.
Qed.
End SortedFacts.

Lemma Sorted_fmap_zip {X C} (R : X -> X -> Prop) (R' : C -> C -> Prop)
    (f : Z * X -> C) ids l :
  (forall id id' x y, R x y -> R' (f (id, x)) (f (id', y))) ->
  Sorted R l -> Sorted R' (f <$> zip ids l).
Proof.
  intros Hf Hl. revert ids.
  induction Hl as [|x l Hl IH Hhd]; intros [|id ids]; csimpl; try constructor.
  - apply IH.
  - destruct Hhd as [|y l Hxy]; destruct ids as [|id' ids]; csimpl; constructor.
    by apply Hf.
Qed.

(** The rows of the corrected table are in descending order of the
    recomputed [Global_Sales], NULLs last: no row sorts strictly before the
    row above it. *)
Theorem corrected_rows_are_in_descending_order (E : Engine)
    (recs : list (list (option string))) :
  exists gamestb,
    corrected E (vgsales recs) = Some gamestb
    /\ Sorted (may_follow gamestb) (rows gamestb).
Proof.
  exists (mkDataFrame corrected_header (corrected_rows E recs)).
  split; [apply corrected_vgsales|]. simpl. unfold corrected_rows.
  apply (Sorted_fmap_zip
           (fun x y => before_desc (recomputed_global E y) (recomputed_global E x) = false)).
  - intros id id' x y Hxy. exact Hxy.
  - apply (stable_sort_Sorted
             (fun x y => before_desc (recomputed_global E x) (recomputed_global E y))).
    intros a b. apply before_desc_asym.
Qed.

(** ** What the rollup columns hold *)

Lemma join_eqb_refl c : is_Some c -> join_eqb c c = true.
Proof. intros [d ->]. simpl. by apply data_eqb_key. Qed.

Lemma join_group_trans c k k0 :
  join_eqb c k = true -> group_eqb k0 k = true -> join_eqb c k0 = true.
Proof.
  destruct c as [c|], k as [k|], k0 as [k0|]; simpl; try done.
  rewrite !data_eqb_key. congruence.
Qed.

Lemma group_eqb_join c k x : join_eqb c k = true -> group_eqb x k = group_eqb x c.
Proof.
  destruct c as [c|], k as [k|]; simpl; try done. destruct x as [x|]; [|done].
  simpl. rewrite data_eqb_key. intros Hck.
  destruct (data_eqb x k) eqn:Hk, (data_eqb x c) eqn:Hc; try done.
  - apply data_eqb_key in Hk. rewrite <- Hc. symmetry. apply data_eqb_key. congruence.
  - apply data_eqb_key in Hc. rewrite <- Hk. apply data_eqb_key. congruence.
Qed.

Lemma filter_comm {A} (p q : A -> bool) l :
  List.filter p (List.filter q l) = List.filter q (List.filter p l).
Proof.
  induction l as [|a l IH]; simpl; [done|].
  destruct (q a) eqn:Hq, (p a) eqn:Hp; simpl; rewrite ?Hq, ?Hp, IH; done.
Qed.

(** Exactly one of the distinct keys joins with a key that occurs. *)
Lemma filter_distinct_In c ks :
  is_Some c -> In c ks ->
  exists k, List.filter (join_eqb c) (distinct ks) = [k] /\ join_eqb c k = true.
Proof.
  intros Hc. induction ks as [|k0 ks IH]; simpl; [done|]. intros Hin.
  destruct (join_eqb c k0) eqn:Hk0.
  - exists k0. by rewrite filter_join_excluded.
  - destruct Hin as [->|Hin]; [by rewrite join_eqb_refl in Hk0|].
    destruct (IH Hin) as (k & Hk & Hck). exists k. split; [|done].
    rewrite filter_comm, Hk. simpl.
    destruct (group_eqb k0 k) eqn:Hg; [|done].
    by rewrite (join_group_trans c k k0 Hck Hg) in Hk0.
Qed.

Lemma group_sum_join i j rs c k :
  join_eqb c k = true -> group_sum i j rs k = group_sum i j rs c.
Proof.
  intros Hck. unfold group_sum. do 2 f_equal.
  apply filter_ext. intros r. by apply group_eqb_join.
Qed.

Lemma rollup_present i rs c :
  is_Some c -> In c (cell_at i <$> rs) -> rollup i rs c = rollup_total i rs c.
Proof.
  intros Hc Hin. unfold rollup, lookup_total. rewrite find_head_filter.
  destruct (filter_distinct_In c _ Hc Hin) as (k & -> & Hck). simpl.
  unfold rollup_total. by rewrite !(group_sum_join i _ rs c k Hck).
Qed.

Lemma rollup_null i rs : rollup i rs None = None.
Proof.
  unfold rollup, lookup_total.
  by induction (distinct (cell_at i <$> rs)) as [|k ks IH].
Qed.

Lemma ranked_row_In E recs id r :
  (id, r) ∈ zip (rank_ids E recs) (sorted_records E recs) ->
  In (ranked_row E id r) (corrected_rows E recs).
Proof.
  intros Hin. apply list_elem_of_In. unfold corrected_rows.
  apply list_elem_of_fmap. by exists (id, r).
Qed.

Lemma rollup_column E recs id r i key total :
  let gamestb := mkDataFrame corrected_header (corrected_rows E recs) in
  let table := mkDataFrame final_header (final_rows E recs) in
  let row := final_row E (corrected_rows E recs) id r in
  (id, r) ∈ zip (rank_ids E recs) (sorted_records E recs) ->
  row_cell table total row = rollup i (corrected_rows E recs) (raw_cell i r) ->
  row_cell table key row = raw_cell i r ->
  cell_at i (ranked_row E id r) = raw_cell i r ->
  (forall k, rollup_total i (corrected_rows E recs) (Some k)
             = regional_sums gamestb (group_rows gamestb key (Some k))) ->
  row_cell table total row
  = match row_cell table key row with
    | Some k => regional_sums gamestb (group_rows gamestb key (Some k))
    | None => None
    end.
Proof.
  intros gamestb table row Hin -> -> Hcell Htotal.
  destruct (raw_cell i r) as [k|] eqn:Hkey; [|apply rollup_null].
  rewrite rollup_present; [apply Htotal|done|].
  rewrite <- Hcell. apply in_map_iff. exists (ranked_row E id r).
  split; [done|by apply ranked_row_In].
Qed.

(** Each rollup column of the exported table holds, in a row whose key is
    not NULL, the sum of the four regional sums over the rows of the
    corrected table with that key; in a row whose key is NULL it is NULL. *)
Theorem rollup_total_is_sum_of_regional_sums (E : Engine)
    (recs : list (list (option string))) :
  exists gamestb table,
    corrected E (vgsales recs) = Some gamestb
    /\ finalgames E (read_csv (vgsales recs)) = Some table
    /\ forall row key total, row ∈ rows table -> (key, total) ∈ rollups ->
         row_cell table total row
         = match row_cell table key row with
           | Some k => regional_sums gamestb (group_rows gamestb key (Some k))
           | None => None
           end.
Proof.
  exists (mkDataFrame corrected_header (corrected_rows E recs)),
         (mkDataFrame final_header (final_rows E recs)).
  split; [apply corrected_vgsales|]. split; [apply finalgames_vgsales|].
  intros row key total Hrow Hin. simpl in Hrow. unfold final_rows in Hrow.
  apply list_elem_of_fmap in Hrow as ([id r] & -> & Hzip).
  unfold rollups in Hin.
  apply elem_of_cons in Hin as [[= -> ->]|Hin];
    [by apply (rollup_column E recs id r 1%nat)|].
  apply elem_of_cons in Hin as [[= -> ->]|Hin];
    [by apply (rollup_column E recs id r 5%nat)|].
  apply elem_of_cons in Hin as [[= -> ->]|Hin];
    [by apply (rollup_column E recs id r 2%nat)|].
  apply elem_of_cons in Hin as [[= -> ->]|Hin];
    [by apply (rollup_column E recs id r 4%nat)|].
  by apply elem_of_nil in Hin.
Qed.

(** ** The sort order is a total preorder *)

Lemma sf_compare_trans a b c :
  sf_compare a b <> Gt -> sf_compare b c <> Gt -> sf_compare a c <> Gt.
Proof.
  destruct a as [sa|sa| |sa ma ea], b as [sb|sb| |sb mb eb], c as [sc|sc| |sc mc ec];
    unfold sf_compare, SFcompare; simpl;
    repeat match goal with s : bool |- _ => destruct s end; simpl; try congruence;
    change (PosDef.Pos.compare_cont Eq) with Pos.compare;
    destruct (Z.compare_spec ea eb), (Z.compare_spec eb ec), (Z.compare_spec ea ec);
    try congruence; try lia; subst;
    destruct (Pos.compare_spec ma mb), (Pos.compare_spec mb mc), (Pos.compare_spec ma mc);
    simpl; try congruence; try lia.
Qed.

Lemma date_compare_trans a b c :
  date_compare a b <> Gt -> date_compare b c <> Gt -> date_compare a c <> Gt.
Proof.
  unfold date_compare.
  destruct (Z.compare_spec (d_year a) (d_year b)), (Z.compare_spec (d_year b) (d_year c)),
    (Z.compare_spec (d_year a) (d_year c)); try congruence; try lia;
  destruct (Z.compare_spec (d_month a) (d_month b)), (Z.compare_spec (d_month b) (d_month c)),
    (Z.compare_spec (d_month a) (d_month c)); try congruence; try lia;
  destruct (Z.compare_spec (d_day a) (d_day b)), (Z.compare_spec (d_day b) (d_day c)),
    (Z.compare_spec (d_day a) (d_day c)); try congruence; try lia.
Qed.

Lemma string_compare_trans a b c :
  String.compare a b <> Gt -> String.compare b c <> Gt -> String.compare a c <> Gt.
Proof.
  revert b c. induction a as [|x a IH]; intros [|y b] [|z c]; simpl; try congruence.
  unfold Ascii.compare.
  destruct (N.compare_spec (N_of_ascii x) (N_of_ascii y)) as [Hxy|Hxy|Hxy],
    (N.compare_spec (N_of_ascii y) (N_of_ascii z)) as [Hyz|Hyz|Hyz],
    (N.compare_spec (N_of_ascii x) (N_of_ascii z)) as [Hxz|Hxz|Hxz];
    try congruence; try lia.
  apply IH.
Qed.

Lemma data_compare_trans a b c :
  data_compare a b <> Gt -> data_compare b c <> Gt -> data_compare a c <> Gt.
Proof.
  destruct a as [x|x|x|x|x|x], b as [y|y|y|y|y|y], c as [z|z|z|z|z|z]; simpl;
    repeat match goal with
      | |- context [Pos.compare ?p ?q] =>
          let v := eval vm_compute in (Pos.compare p q) in
          change (Pos.compare p q) with v
      end;
    try congruence.
  - apply string_compare_trans.
  - destruct (Z.compare_spec x y), (Z.compare_spec y z), (Z.compare_spec x z);
      congruence || lia.
  - destruct (Z.compare_spec x y), (Z.compare_spec y z), (Z.compare_spec x z);
      congruence || lia.
  - apply date_compare_trans.
  - apply sf_compare_trans.
  - destruct x, y, z; simpl; congruence.
Qed.

Lemma before_desc_trans a b c :
  before_desc b a = false -> before_desc c b = false -> before_desc c a = false.
Proof.
  destruct a as [x|], b as [y|], c as [z|]; simpl; try done.
  intros Hyx Hzy.
  pose proof (data_compare_trans z y x) as H.
  destruct (data_compare y x) eqn:E1; try done;
    destruct (data_compare z y) eqn:E2; try done;
    destruct (data_compare z x); try done; exfalso; by apply H.
Qed.

Lemma before_asc_trans a b c :
  before_asc b a = false -> before_asc c b = false -> before_asc c a = false.
Proof.
  destruct a as [x|], b as [y|], c as [z|]; simpl; try done.
  intros Hyx Hzy.
  pose proof (data_compare_trans x y z) as H.
  rewrite (data_compare_antisym y x), (data_compare_antisym z y),
    (data_compare_antisym z x) in H.
  destruct (data_compare y x) eqn:E1; try done;
    destruct (data_compare z y) eqn:E2; try done;
    destruct (data_compare z x); try done; exfalso; by apply H.
Qed.

Lemma sorts_before_trans o cols a b c :
  sorts_before o cols b a = false -> sorts_before o cols c b = false ->
  sorts_before o cols c a = false.
Proof.
  destruct o as [name|name]; simpl; destruct (resolve cols name); try done.
  - apply before_asc_trans.
  - apply before_desc_trans.
Qed.

Lemma before_asc_asym a b : before_asc a b = true -> before_asc b a = false.
Proof.
  destruct a as [x|], b as [y|]; simpl; try done.
  rewrite (data_compare_antisym x y). by destruct (data_compare x y).
Qed.

Lemma sorts_before_asym o cols a b :
  sorts_before o cols a b = true -> sorts_before o cols b a = false.
Proof.
  destruct o as [name|name]; simpl; destruct (resolve cols name); try done.
  - apply before_asc_asym.
  - apply before_desc_asym.
Qed.

(** ** [orderBy] followed by [limit] *)

Lemma orderBy_sorts o df d :
  orderBy o df = Some d ->
  columns d = columns df
  /\ rows d = stable_sort (sorts_before o (columns df)) (rows df).
Proof.
  unfold orderBy, sorts_before.
  destruct o as [name|name]; (destruct (resolve (columns df) name) as [i|]; [|done]);
    simpl; intros [= <-]; done.
Qed.

Lemma orderBy_limit_top o df d n :
  orderBy o df = Some d -> top_rows n o df (limit n d).
Proof.
  intros Ho. apply orderBy_sorts in Ho as [Hcols Hrows].
  pose proof (stable_sort_Sorted (sorts_before o (columns df))
                (sorts_before_asym o (columns df)) (rows df)) as Hs.
  rewrite <- Hrows in Hs.
  assert (StronglySorted
            (fun r1 r2 => sorts_before o (columns df) r2 r1 = false) (rows d)) as Hss.
  { apply Sorted_StronglySorted; [|done]. intros a b c. apply sorts_before_trans. }
  assert (rows df ≡ₚ rows d) as Hperm.
  { rewrite Hrows. symmetry. apply stable_sort_Permutation. }
  unfold top_rows. simpl. repeat split.
  - done.
  - rewrite length_take. by rewrite Hperm.
  - apply StronglySorted_Sorted.
    rewrite <- (take_drop n (rows d)) in Hss. by apply StronglySorted_app_1_l in Hss.
  - exists (drop n (rows d)). split; [by rewrite take_drop|].
    intros r r' Hr Hr'. rewrite <- (take_drop n (rows d)) in Hss.
    by eapply (StronglySorted_app_1_elem_of _ _ _ r r') in Hss.
Qed.

(** ** The report queries on a table with the exported layout *)

(** X5.  On every table with the columns of the exported table, whatever
    its rows and the engine, every report query returns a table (no
    reference fails to resolve), with the columns its chart cell reads; so
    do the two "All time top 10" cells on a table with the columns of
    [vgsales.csv]. *)
Theorem report_queries_return_their_columns (E : Engine)
    (gamestb_rows finalgames_rows : list Row) :
  let gamestb := mkDataFrame vgsales_header gamestb_rows in
  let finalgames := mkDataFrame final_header finalgames_rows in
  columns <$> top_10_highest_sales gamestb = Some vgsales_header
  /\ columns <$> top_10_action_games E gamestb = Some vgsales_header
  /\ columns <$> all_time_top_10 E finalgames = Some ["Name"; "Total Sales"]
  /\ columns <$> all_time_genre E finalgames = Some ["Genre"; "Total Sales"]
  /\ columns <$> all_time_top_10_platform E finalgames
     = Some ["Platform"; "Platform_Total_Sales"]
  /\ columns <$> all_time_top_10_publisher E finalgames
     = Some ["Publisher"; "Publisher_Total_Sales"]
  /\ columns <$> top_10_ps4 E finalgames = Some ["Name"; "Platform"; "Global_Sales"]
  /\ columns <$> top_10_2001 E finalgames = Some ["Name"; "Year"; "Game_Total_Sales"]
  /\ columns <$> action_games_2010 E finalgames = Some final_header
  /\ columns <$> top_10_action_2010 E finalgames = Some ["Name"; "Total Sales"]
  /\ columns <$> games_2012 E finalgames = Some final_header
  /\ columns <$> top_10_eu_2012 E finalgames = Some ["Name"; "Total EU Sales"]
  /\ columns <$> publisher_performance_over_time E finalgames
     = Some ["Year"; "Publisher"; "Total Sales"]
  /\ columns <$> just_cause_2_df E finalgames = Some ["Name"; "Year"]
  /\ columns <$> games_released_per_year finalgames = Some ["Year"; "Games Released"].
Proof. repeat split; reflexivity. Qed.

(** X6.  The "top 10" of the grouped and of the filtered queries is a top
    10: on every table with the exported layout, [top_10_action_2010]
    holds the 10 rows of [action_sales_2010] with the greatest
    [Total Sales] (all rows when there are fewer), in descending order,
    NULLs last, and no row left out sorts strictly before a row kept; so
    does [top_10_eu_2012] of [eu_sales_by_game] by [Total EU Sales],
    [top_10_ps4] of the selected PS4 rows by [Global_Sales], and
    [top_10_2001] of the distinct selected rows of 2001 by
    [Game_Total_Sales]. *)
Theorem top_10_queries_keep_the_greatest (E : Engine) (rs : list Row) :
  let finalgames := mkDataFrame final_header rs in
  (exists sales top,
     action_sales_2010 E finalgames = Some sales
     /\ top_10_action_2010 E finalgames = Some top
     /\ top_rows 10 (desc "Total Sales") sales top)
  /\ (exists sales top,
        eu_sales_by_game E finalgames = Some sales
        /\ top_10_eu_2012 E finalgames = Some top
        /\ top_rows 10 (desc "Total EU Sales") sales top)
  /\ (exists ps4 top,
        select E [col "Name"; col "Platform"; col "Global_Sales"] finalgames
          ≫= filter_where E (equals (col "Platform") (lit (DString "PS4")))
        = Some ps4
        /\ top_10_ps4 E finalgames = Some top
        /\ top_rows 10 (desc "Global_Sales") ps4 top)
  /\ (exists in_2001 top,
        select E [col "Name"; col "Year"; col "Game_Total_Sales"] finalgames
          ≫= filter_where E (contains (col "Year") (lit (DString "2001")))
        = Some in_2001
        /\ top_10_2001 E finalgames = Some top
        /\ top_rows 10 (desc "Game_Total_Sales") (dropDuplicates in_2001) top).
Proof.
  intros fg. split; [|split; [|split]].
  - assert (columns <$> top_10_action_2010 E fg = Some ["Name"; "Total Sales"]) as Hc
      by reflexivity.
    unfold top_10_action_2010 in *.
    destruct (action_sales_2010 E fg) as [sales|] eqn:Hs; [|done].
    rewrite bind_some in Hc.
    destruct (orderBy (desc "Total Sales") sales) as [ordered|] eqn:Ho; [|done].
    exists sales, (limit 10 ordered). split; [done|]. split.
    + by rewrite bind_some, Ho.
    + by eapply orderBy_limit_top.
  - assert (columns <$> top_10_eu_2012 E fg = Some ["Name"; "Total EU Sales"]) as Hc
      by reflexivity.
    unfold top_10_eu_2012 in *.
    destruct (eu_sales_by_game E fg) as [sales|] eqn:Hs; [|done].
    rewrite bind_some in Hc.
    destruct (orderBy (desc "Total EU Sales") sales) as [ordered|] eqn:Ho; [|done].
    exists sales, (limit 10 ordered). split; [done|]. split.
    + by rewrite bind_some, Ho.
    + by eapply orderBy_limit_top.
  - assert (columns <$> top_10_ps4 E fg = Some ["Name"; "Platform"; "Global_Sales"])
      as Hc by reflexivity.
    unfold top_10_ps4 in *. cbv zeta in *.
    destruct (select E _ fg) as [selected|] eqn:Hsel; [|done].
    rewrite bind_some in Hc.
    destruct (filter_where E _ selected) as [ps4|] eqn:Hf; [|done].
    rewrite bind_some in Hc.
    change (selected_as _ "Global_Sales") with (Some "Global_Sales") in *.
    rewrite bind_some in Hc.
    destruct (orderBy (desc "Global_Sales") ps4) as [ordered|] eqn:Ho; [|done].
    exists ps4, (limit 10 ordered). split; [by rewrite bind_some|]. split.
    + by rewrite bind_some, Hf, !bind_some, Ho.
    + by eapply orderBy_limit_top.
  - assert (columns <$> top_10_2001 E fg = Some ["Name"; "Year"; "Game_Total_Sales"])
      as Hc by reflexivity.
    unfold top_10_2001 in *. cbv zeta in *.
    destruct (select E _ fg) as [selected|] eqn:Hsel; [|done].
    rewrite bind_some in Hc.
    destruct (filter_where E _ selected) as [in_2001|] eqn:Hf; [|done].
    rewrite bind_some in Hc.
    change (selected_as _ "Game_Total_Sales") with (Some "Game_Total_Sales") in *.
    rewrite bind_some in Hc.
    destruct (orderBy (desc "Game_Total_Sales") (dropDuplicates in_2001))
      as [ordered|] eqn:Ho; [|done].
    exists in_2001, (limit 10 ordered). split; [by rewrite bind_some|]. split.
    + by rewrite bind_some, Hf, !bind_some, Ho.
    + by eapply orderBy_limit_top.
Qed.

(** ** [filter] with a condition *)

Lemma eval_condition_pure E cols id id' r p :
  pure_condition p = true ->
  eval_condition E cols id r p = eval_condition E cols id' r p.
Proof.
  induction p as [a b|a b|p IHp q IHq]; simpl; intros Hp;
    apply andb_prop in Hp as [Ha Hb].
  - by rewrite (eval_pure E cols id id' r a), (eval_pure E cols id id' r b).
  - by rewrite (eval_pure E cols id id' r a), (eval_pure E cols id id' r b).
  - by rewrite IHp, IHq.
Qed.

Lemma filter_zip_snd {A B} (g : B -> bool) (ids : list A) (rs : list B) :
  length ids = length rs ->
  (List.filter (fun ir : A * B => g ir.2) (zip ids rs)).*2 = List.filter g rs.
Proof.
  revert ids. induction rs as [|r rs IH]; intros [|i ids]; simpl; try done.
  intros [= Hl]. destruct (g r); csimpl; by rewrite IH.
Qed.

Lemma filter_where_rows E p df :
  analyze_condition (columns df) p = true ->
  pure_condition p = true ->
  filter_where E p df
  = Some (mkDataFrame (columns df) (List.filter (holds E (columns df) p) (rows df))).
Proof.
  intros Ha Hp. unfold filter_where. rewrite Ha. do 2 f_equal.
  rewrite <- (filter_zip_snd (holds E (columns df) p) (row_ids E (rows df)) (rows df))
    by apply length_row_ids.
  unfold with_ids. f_equal. apply filter_ext. intros [id r]. unfold holds. simpl.
  by rewrite (eval_condition_pure E _ id 0).
Qed.

(** ** Equality of keys and of rows *)

Lemma group_eqb_refl c : group_eqb c c = true.
Proof. destruct c as [x|]; [|done]. simpl. by apply data_eqb_key. Qed.

Lemma group_eqb_key a b :
  group_eqb a b = true <-> data_key <$> a = data_key <$> b.
Proof.
  destruct a as [x|], b as [y|]; simpl; try done.
  rewrite data_eqb_key. split; [by intros ->|by intros [=]].
Qed.

Lemma group_eqb_sym a b : group_eqb a b = group_eqb b a.
Proof.
  destruct (group_eqb a b) eqn:Hab, (group_eqb b a) eqn:Hba; try done.
  - apply group_eqb_key in Hab. symmetry in Hab. apply group_eqb_key in Hab. congruence.
  - apply group_eqb_key in Hba. symmetry in Hba. apply group_eqb_key in Hba. congruence.
Qed.

Lemma group_eqb_trans a b c :
  group_eqb a b = true -> group_eqb b c = true -> group_eqb a c = true.
Proof. rewrite !group_eqb_key. congruence. Qed.

Lemma row_eqb_refl r : row_eqb r r = true.
Proof. induction r as [|c r IH]; simpl; [done|]. by rewrite group_eqb_refl. Qed.

Lemma row_eqb_sym r r' : row_eqb r r' = row_eqb r' r.
Proof.
  revert r'. induction r as [|c r IH]; intros [|c' r']; simpl; try done.
  by rewrite group_eqb_sym, IH.
Qed.

Lemma row_eqb_trans r1 r2 r3 :
  row_eqb r1 r2 = true -> row_eqb r2 r3 = true -> row_eqb r1 r3 = true.
Proof.
  revert r2 r3. induction r1 as [|a r1 IH]; intros [|b r2] [|c r3]; simpl; try done.
  intros [H1 H1']%andb_prop [H2 H2']%andb_prop.
  by rewrite (group_eqb_trans a b c), (IH r2 r3).
Qed.

Lemma row_eqb_cell_at r r' i :
  row_eqb r r' = true -> group_eqb (cell_at i r) (cell_at i r') = true.
Proof.
  revert r' i. induction r as [|c r IH]; intros [|c' r'] i; simpl; try done.
  intros [H1 H2]%andb_prop. destruct i as [|i]; [done|]. by apply (IH r' i).
Qed.

Lemma sql_eq_group E a a' b : group_eqb a a' = true -> sql_eq E a b = sql_eq E a' b.
Proof.
  intros H. assert (forall y, (x ← a; Some (data_eqb x y)) = (x ← a'; Some (data_eqb x y))) as Heq.
  { intros y. destruct a as [x|], a' as [x'|]; simpl in *; try done. f_equal.
    apply data_eqb_key in H.
    destruct (data_eqb x y) eqn:H1, (data_eqb x' y) eqn:H2; try done.
    - apply data_eqb_key in H1. rewrite H in H1. apply data_eqb_key in H1. congruence.
    - apply data_eqb_key in H2. rewrite <- H in H2. apply data_eqb_key in H2. congruence. }
  destruct a as [x|], a' as [x'|]; simpl in H; try done.
  destruct b as [y|]; [|by destruct x, x'].
  specialize (Heq y). simpl in Heq. injection Heq as Heq.
  apply data_eqb_key in H.
  destruct x, x'; simpl in H; try done; simpl; rewrite ?Heq; try done.
  all: try (destruct (Prim2SF f); done).
  all: try (destruct (Prim2SF f), (Prim2SF f0); done).
  injection H as ->. done.
Qed.

(** ** Filtering on a grouping column commutes with the aggregation *)

Lemma filter_fmap_comp {A B} (p : B -> bool) (f : A -> B) l :
  List.filter p (f <$> l) = f <$> List.filter (fun x => p (f x)) l.
Proof.
  induction l as [|x l IH]; csimpl; [done|]. destruct (p (f x)); csimpl; by rewrite IH.
Qed.

Lemma filter_filter_absorb {A} (p q : A -> bool) l :
  (forall x, p x = true -> q x = true) ->
  List.filter p (List.filter q l) = List.filter p l.
Proof.
  intros H. induction l as [|x l IH]; simpl; [done|].
  destruct (q x) eqn:Hq; simpl.
  - destruct (p x); by rewrite IH.
  - destruct (p x) eqn:Hp; [|done]. apply H in Hp. congruence.
Qed.

Lemma elem_of_distinct_rows k ks : k ∈ distinct_rows ks -> k ∈ ks.
Proof.
  induction ks as [|k' ks IH]; simpl; [done|].
  intros [->|Hin]%elem_of_cons; [left|right]. apply IH.
  apply list_elem_of_In, filter_In in Hin as [Hin _]. by apply list_elem_of_In.
Qed.

Section KeyFilter.
Context (Q : Row -> bool).
Hypothesis Q_eqb : forall k k', row_eqb k k' = true -> Q k = Q k'.

Lemma filter_distinct_rows ks :
  List.filter Q (distinct_rows ks) = distinct_rows (List.filter Q ks).
Proof.
  induction ks as [|k ks IH]; simpl; [done|].
  destruct (Q k) eqn:Hk; simpl.
  - f_equal. by rewrite filter_comm, IH.
  - rewrite <- IH. apply filter_filter_absorb.
    intros k' Hk'. destruct (row_eqb k k') eqn:He; [|done].
    apply Q_eqb in He. congruence.
Qed.

Lemma filter_members {A} (key : A -> Row) k rs :
  Q k = true ->
  List.filter (fun r => row_eqb (key r) k) (List.filter (fun r => Q (key r)) rs)
  = List.filter (fun r => row_eqb (key r) k) rs.
Proof.
  intros Hk. apply filter_filter_absorb. intros r Hr. apply Q_eqb in Hr. congruence.
Qed.

Lemma filter_aggregated (Q' : Row -> bool) (key : Row -> Row) (F : list Row -> Row) rs :
  (forall r members, Q' (key r ++ F members) = Q (key r)) ->
  List.filter Q'
    ((fun k => k ++ F (List.filter (fun r => row_eqb (key r) k) rs))
     <$> distinct_rows (key <$> rs))
  = (fun k =>
       k ++ F (List.filter (fun r => row_eqb (key r) k)
                 (List.filter (fun r => Q (key r)) rs)))
    <$> distinct_rows (key <$> List.filter (fun r => Q (key r)) rs).
Proof.
  intros HQ'. rewrite filter_fmap_comp.
  rewrite (filter_ext_in _ Q).
  2: { intros k Hk. apply list_elem_of_In, elem_of_distinct_rows in Hk.
       apply list_elem_of_fmap in Hk as (r & -> & _). apply HQ'. }
  rewrite filter_distinct_rows, filter_fmap_comp.
  apply list_fmap_ext. intros i k Hk. f_equal. f_equal.
  symmetry. apply filter_members.
  apply list_elem_of_lookup_2, elem_of_distinct_rows in Hk.
  apply list_elem_of_fmap in Hk as (r & -> & Hr).
  by apply list_elem_of_In, filter_In in Hr as [_ Hr].
Qed.
End KeyFilter.

Lemma aggregate_unfold aggs keys cols rs :
  aggregate aggs (groupByColumns keys (mkDataFrame cols rs))
  = (ps ← mapM (resolve cols) keys;
     js ← mapM (fun a => resolve cols (agg_source a)) aggs;
     Some (mkDataFrame (keys ++ (agg_alias <$> aggs))
             ((fun k =>
                 k ++ ((fun aj : NamedAggregate * nat =>
                          apply_aggregate aj.1
                            (cell_at aj.2
                             <$> List.filter (fun r => row_eqb (key_of ps r) k) rs))
                       <$> zip aggs js))
              <$> distinct_rows (key_of ps <$> rs)))).
Proof. done. Qed.

(** The test the filter [Publisher == "Activision"] makes on a cell. *)
Lemma holds_equals_lit E cols name i s r :
  resolve cols name = Some i ->
  holds E cols (equals (col name) (lit (DString s))) r
  = match sql_eq E (cell_at i r) (Some (DString s)) with
    | Some (DBool true) => true
    | _ => false
    end.
Proof. intros Hi. unfold holds. simpl. by rewrite Hi. Qed.

(** X7.  The Activision trend sums Activision rows only: filtering the
    publisher after the aggregation on (Year, Publisher), as the cell does,
    gives on every table what aggregating the Activision rows gives, one
    row per year of an Activision row with the sum of [Global_Sales] of
    the Activision rows of that year; both fail when the table lacks one
    of the three columns. *)
Theorem activision_totals_sum_activision_rows (E : Engine) (finalgames : DataFrame) :
  publisher_performance_over_time E finalgames
  = (activision ←
       filter_where E (equals (col "Publisher") (lit (DString "Activision"))) finalgames;
     sums ← aggregate [aliased (sum_of "Global_Sales") "Total Sales"]
                      (groupByColumns ["Year"; "Publisher"] activision);
     orderBy (desc "Year") sums).
Proof.
  unfold publisher_performance_over_time.
  destruct finalgames as [cols rs].
  set (cond := equals (col "Publisher") (lit (DString "Activision"))).
  rewrite aggregate_unfold.
  destruct (resolve cols "Publisher") as [ip|] eqn:Hp.
  2: { unfold filter_where. simpl. rewrite Hp. simpl.
       by destruct (resolve cols "Year"). }
  rewrite (filter_where_rows E cond (mkDataFrame cols rs))
    by (simpl; rewrite ?Hp; done).
  rewrite bind_some, aggregate_unfold. cbn [columns rows].
  destruct (mapM (resolve cols) ["Year"; "Publisher"]) as [ps|] eqn:Hps; [|done].
  rewrite !bind_some.
  destruct (mapM _ [aliased (sum_of "Global_Sales") "Total Sales"]) as [js|]; [|done].
  rewrite !bind_some.
  assert (exists iy, ps = [iy; ip]) as [iy ->].
  { simpl in Hps. rewrite Hp in Hps. destruct (resolve cols "Year") as [iy|]; [|done].
    injection Hps as <-. by exists iy. }
  rewrite filter_where_rows by done. rewrite bind_some. cbn [columns rows].
  do 2 f_equal.
  set (Q := fun k : Row =>
              match sql_eq E (cell_at 1 k) (Some (DString "Activision")) with
              | Some (DBool true) => true
              | _ => false
              end).
  rewrite (filter_ext (holds E cols cond) (fun r => Q (key_of [iy; ip] r)))
    by (intros r; apply (holds_equals_lit E cols "Publisher" ip); done).
  apply (filter_aggregated Q) with
    (key := key_of [iy; ip])
    (F := fun members =>
            (fun aj : NamedAggregate * nat =>
               apply_aggregate aj.1 (cell_at aj.2 <$> members))
            <$> zip [aliased (sum_of "Global_Sales") "Total Sales"] js).
  - intros k k' Hk. unfold Q.
    by rewrite (sql_eq_group E _ (cell_at 1 k')) by by apply row_eqb_cell_at.
  - intros r members. unfold cond.
    by rewrite (holds_equals_lit E _ "Publisher" 1).
Qed.

(** ** The popularity cells *)

Lemma fmap_zip_snd {X C} (f : X -> C) (ids : list Z) (xs : list X) :
  length ids = length xs ->
  (fun ix : Z * X => f ix.2) <$> zip ids xs = f <$> xs.
Proof.
  revert xs. induction ids as [|id ids IH]; intros [|x xs] Hlen; csimpl; try done.
  rewrite IH; [done|]. simpl in Hlen. lia.
Qed.

Lemma group_eqb_text (o o' : option string) :
  group_eqb (DString <$> o) (DString <$> o') = true -> o = o'.
Proof.
  rewrite group_eqb_key. destruct o, o'; simpl; try done. by intros [= ->].
Qed.

Lemma elem_of_distinct c ks : c ∈ distinct ks -> c ∈ ks.
Proof.
  induction ks as [|k ks IH]; simpl; [done|].
  rewrite !elem_of_cons, (list_elem_of_In (List.filter _ _)), filter_In,
    <- list_elem_of_In.
  intros [->|[Hc _]]; auto.
Qed.

Lemma NoDup_list_filter {A} (p : A -> bool) l : NoDup l -> NoDup (List.filter p l).
Proof.
  induction 1 as [|x l Hx Hl IH]; simpl; [constructor|].
  destruct (p x); [|done]. constructor; [|done].
  rewrite list_elem_of_In, filter_In, <- list_elem_of_In. by intros [? _].
Qed.

Lemma NoDup_distinct ks : NoDup (distinct ks).
Proof.
  induction ks as [|k ks IH]; simpl; [constructor|].
  constructor.
  - rewrite list_elem_of_In, filter_In. intros [_ Hk].
    by rewrite group_eqb_refl in Hk.
  - by apply NoDup_list_filter.
Qed.

Lemma distinct_complete (os : list (option string)) o :
  o ∈ os ->
  (DString <$> o : cell) ∈ distinct ((fun o : option string => DString <$> o) <$> os).
Proof.
  induction os as [|o' os IH]; [by intros ?%elem_of_nil|].
  rewrite elem_of_cons. csimpl. intros Ho.
  destruct (group_eqb (DString <$> o') (DString <$> o)) eqn:Hg.
  - apply group_eqb_text in Hg as ->. left.
  - right. rewrite list_elem_of_In, filter_In, <- list_elem_of_In, Hg.
    split; [|done]. destruct Ho as [->|Ho]; [by rewrite group_eqb_refl in Hg|auto].
Qed.

(** Rows made of a text key and a value that depends on the key only are
    distinct exactly when their keys are. *)
Lemma distinct_rows_keyed (t : cell -> cell) (os : list (option string)) :
  distinct_rows ((fun o : option string => [DString <$> o; t (DString <$> o)]) <$> os)
  = (fun c => [c; t c]) <$> distinct ((fun o : option string => DString <$> o) <$> os).
Proof.
  induction os as [|o os IH]; csimpl; [done|].
  f_equal. rewrite IH, filter_fmap_comp. f_equal.
  apply filter_ext_in. intros c Hc.
  apply list_elem_of_In, elem_of_distinct, list_elem_of_fmap in Hc as (o' & -> & _).
  simpl. destruct (group_eqb (DString <$> o) (DString <$> o')) eqn:Hg; [|done].
  apply group_eqb_text in Hg as ->. by rewrite group_eqb_refl.
Qed.

(** A popularity cell on the exported table: the key column [i] and its
    rollup, made distinct and ordered. *)
Lemma popularity_table E recs (cs : list Column) (i : nat) (key : string) :
  forallb (analyze final_header) cs = true ->
  forallb pure cs = true ->
  resolve (output_name <$> cs) key = Some 1%nat ->
  (forall id r,
     eval E final_header 0 (final_row E (corrected_rows E recs) id r) <$> cs
     = [raw_cell i r; rollup i (corrected_rows E recs) (raw_cell i r)]) ->
  exists d,
    (selected ← select E cs (mkDataFrame final_header (final_rows E recs));
     orderBy (desc key) (dropDuplicates selected)) = Some d /\
    NoDup (cell_at 0 <$> rows d) /\
    (forall r, r ∈ recs ->
       [raw_cell i r; rollup i (corrected_rows E recs) (raw_cell i r)] ∈ rows d) /\
    (forall row, row ∈ rows d ->
       exists r, r ∈ recs /\
         row = [raw_cell i r; rollup i (corrected_rows E recs) (raw_cell i r)]).
Proof.
  intros Ha Hp Hkey Hrow. unfold final_rows.
  set (t := rollup i (corrected_rows E recs)) in *.
  rewrite (select_fmap E cs final_header (output_name <$> cs)
             (fun ir => final_row E (corrected_rows E recs) ir.1 ir.2)
             (fun ir => [raw_cell i ir.2; t (raw_cell i ir.2)])
             (zip (rank_ids E recs) (sorted_records E recs)) Ha Hp eq_refl)
    by (by intros [id r]).
  rewrite bind_some. unfold dropDuplicates. cbn [columns rows].
  rewrite (fmap_zip_snd (fun r => [raw_cell i r; t (raw_cell i r)]))
    by by rewrite length_rank_ids, length_sorted_records.
  replace ((fun r => [raw_cell i r; t (raw_cell i r)]) <$> sorted_records E recs)
    with ((fun o : option string => [DString <$> o; t (DString <$> o)])
          <$> ((fun r : list (option string) => mjoin (r !! i)) <$> sorted_records E recs))
    by by rewrite <- list_fmap_compose.
  rewrite distinct_rows_keyed.
  set (D := distinct _).
  unfold orderBy. cbn [columns rows]. rewrite Hkey, bind_some.
  eexists. split; [reflexivity|]. cbn [rows].
  assert (HD : forall c, c ∈ D <-> exists r, r ∈ recs /\ c = raw_cell i r).
  { intros c. subst D. split.
    - intros (o & -> & (r & -> & Hr)%list_elem_of_fmap)%elem_of_distinct%list_elem_of_fmap.
      exists r. split; [|done]. by apply elem_of_stable_sort in Hr.
    - intros (r & Hr & ->). apply distinct_complete, list_elem_of_fmap.
      exists r. split; [done|]. by apply elem_of_stable_sort. }
  split; [|split].
  - rewrite stable_sort_Permutation, <- list_fmap_compose.
    rewrite (list_fmap_ext _ id D) by done.
    rewrite list_fmap_id. apply NoDup_distinct.
  - intros r Hr. rewrite stable_sort_Permutation. apply list_elem_of_fmap.
    exists (raw_cell i r). split; [done|]. apply HD. eauto.
  - intros row. rewrite stable_sort_Permutation.
    intros (c & -> & (r & Hr & ->)%HD)%list_elem_of_fmap. eauto.
Qed.

Lemma lists_totals_limit E recs i n d :
  lists_totals E recs i d -> lists_every_key E recs i d ->
  lists_totals E recs i (limit n d)
  /\ (length (rows (limit n d)) = n \/ lists_every_key E recs i (limit n d)).
Proof.
  intros [Hnd Hrows] Hall. unfold limit, lists_totals, lists_every_key. cbn [rows].
  repeat split.
  - rewrite fmap_take. eapply sublist_NoDup; [done|apply sublist_take].
  - intros row Hrow. apply Hrows. eapply elem_of_sublist; [done|apply sublist_take].
  - destruct (decide (length (rows d) <= n)%nat) as [Hn|Hn].
    + right. by rewrite take_ge.
    + left. rewrite length_take. lia.
Qed.

(** X8. The popularity cells on the table exported for a file: the "Genre
    Popularity" table lists the genre of every record, each once, beside the
    rollup total of the genre; the "Game", "Platform" and "Publisher
    Popularity" tables list names, platforms and publishers of the file,
    none twice, each beside its rollup total, and hold ten rows unless they
    list every one. *)
Theorem popularity_cells_list_each_key_once (E : Engine)
    (recs : list (list (option string))) :
  exists exported,
    finalgames E (read_csv (vgsales recs)) = Some exported /\
    (exists df, all_time_genre E exported = Some df /\
       lists_totals E recs 4 df /\ lists_every_key E recs 4 df) /\
    (exists df, all_time_top_10 E exported = Some df /\
       lists_totals E recs 1 df /\
       (length (rows df) = 10%nat \/ lists_every_key E recs 1 df)) /\
    (exists df, all_time_top_10_platform E exported = Some df /\
       lists_totals E recs 2 df /\
       (length (rows df) = 10%nat \/ lists_every_key E recs 2 df)) /\
    (exists df, all_time_top_10_publisher E exported = Some df /\
       lists_totals E recs 5 df /\
       (length (rows df) = 10%nat \/ lists_every_key E recs 5 df)).
Proof.
  eexists. split; [apply finalgames_vgsales|].
  split; [|split; [|split]].
  - destruct (popularity_table E recs
                [col "Genre"; alias (col "Genre_Total_Sales") "Total Sales"] 4
                "Total Sales") as (d & Hd & Hnd & Hall & Hrows); try done.
    exists d. unfold all_time_genre.
    change (selected_as _ _) with (Some "Total Sales").
    destruct (select E _ _) as [sel|]; [|done].
    rewrite !bind_some in *. done.
  - destruct (popularity_table E recs
                [col "Name"; alias (col "Game_Total_Sales") "Total Sales"] 1
                "Total Sales") as (d & Hd & Hnd & Hall & Hrows); try done.
    exists (limit 10 d). unfold all_time_top_10.
    change (selected_as _ _) with (Some "Total Sales").
    destruct (select E _ _) as [sel|]; [|done].
    rewrite !bind_some in *. rewrite Hd, bind_some.
    split; [done|]. by apply lists_totals_limit.
  - destruct (popularity_table E recs
                [col "Platform"; col "Platform_Total_Sales"] 2
                "Platform_Total_Sales") as (d & Hd & Hnd & Hall & Hrows); try done.
    exists (limit 10 d). unfold all_time_top_10_platform.
    change (selected_as _ _) with (Some "Platform_Total_Sales").
    destruct (select E _ _) as [sel|]; [|done].
    rewrite !bind_some in *. rewrite Hd, bind_some.
    split; [done|]. by apply lists_totals_limit.
  - destruct (popularity_table E recs
                [col "Publisher"; col "Publisher_Total_Sales"] 5
                "Publisher_Total_Sales") as (d & Hd & Hnd & Hall & Hrows); try done.
    exists (limit 10 d). unfold all_time_top_10_publisher.
    change (selected_as _ _) with (Some "Publisher_Total_Sales").
    destruct (select E _ _) as [sel|]; [|done].
    rewrite !bind_some in *. rewrite Hd, bind_some.
    split; [done|]. by apply lists_totals_limit.
Qed.

(** ** The validation cell *)

Lemma sql_eq_text E (o : option string) s :
  match sql_eq E (DString <$> o) (Some (DString s)) with
  | Some (DBool true) => true
  | _ => false
  end = bool_decide (o = Some s).
Proof.
  destruct o as [s'|]; simpl; [|done].
  destruct (data_eqb (DString s') (DString s)) eqn:Heq.
  - apply data_eqb_key in Heq. injection Heq as ->. by rewrite bool_decide_eq_true_2.
  - rewrite bool_decide_eq_false_2; [done|]. intros [= ->].
    assert (data_eqb (DString s) (DString s) = true) by by apply data_eqb_key.
    congruence.
Qed.

(** X9. The validation cell on the table exported for a file shows one row
    for every record whose name is exactly "Just Cause 2", in the order of
    the exported table, with the name and the year of the record: a game
    released on several platforms is shown once for each. *)
Theorem just_cause_2_df_lists_every_record_of_the_name (E : Engine)
    (recs : list (list (option string))) :
  exists exported,
    finalgames E (read_csv (vgsales recs)) = Some exported /\
    just_cause_2_df E exported
    = Some (mkDataFrame ["Name"; "Year"]
              ((fun r => [raw_cell 1 r; cast_cell E DateType (year_text E r)])
               <$> List.filter
                     (fun r => bool_decide (r !! 1%nat = Some (Some "Just Cause 2")))
                     (sorted_records E recs))).
Proof.
  eexists. split; [apply finalgames_vgsales|].
  unfold just_cause_2_df, final_rows.
  rewrite (select_fmap E [col "Name"; col "Year"] final_header ["Name"; "Year"]
             (fun ir => final_row E (corrected_rows E recs) ir.1 ir.2)
             (fun ir => [raw_cell 1 ir.2; cast_cell E DateType (year_text E ir.2)])
             (zip (rank_ids E recs) (sorted_records E recs)))
    by done.
  rewrite bind_some.
  rewrite (fmap_zip_snd (fun r => [raw_cell 1 r; cast_cell E DateType (year_text E r)]))
    by by rewrite length_rank_ids, length_sorted_records.
  rewrite filter_where_rows by done. cbn [columns rows].
  do 2 f_equal. rewrite filter_fmap_comp. f_equal.
  apply filter_ext. intros r.
  rewrite (holds_equals_lit E _ "Name" 0) by done.
  change (cell_at 0 _) with (raw_cell 1 r). unfold raw_cell.
  rewrite sql_eq_text. apply bool_decide_ext.
  destruct (r !! 1%nat) as [[s|]|]; simpl; split; congruence.
Qed.

(** ** A filter between [orderBy] and [limit] *)

Lemma StronglySorted_list_filter {A} (R : A -> A -> Prop) (p : A -> bool) l :
  StronglySorted R l -> StronglySorted R (List.filter p l).
Proof.
  induction 1 as [|x l Hl IH Hx]; simpl; [constructor|].
  destruct (p x); [|done]. constructor; [done|].
  apply Forall_forall. intros y Hy.
  apply list_elem_of_In, filter_In in Hy as [Hy _].
  rewrite Forall_forall in Hx. by apply Hx, list_elem_of_In.
Qed.

Lemma Permutation_list_filter {A} (p : A -> bool) l l' :
  l ≡ₚ l' -> List.filter p l ≡ₚ List.filter p l'.
Proof.
  induction 1 as [|x l l' Hl IH|x y l|l l' l'' H1 IH1 H2 IH2]; simpl.
  - done.
  - destruct (p x); by rewrite IH.
  - destruct (p x), (p y); try done. apply perm_swap.
  - by etrans.
Qed.

Lemma sorted_take_top n o cols (candidates l : list Row) :
  StronglySorted (fun r1 r2 => sorts_before o cols r2 r1 = false) l ->
  candidates ≡ₚ l ->
  top_rows n o (mkDataFrame cols candidates) (mkDataFrame cols (take n l)).
Proof.
  intros Hss Hperm. unfold top_rows. simpl. repeat split.
  - rewrite length_take. by rewrite Hperm.
  - apply StronglySorted_Sorted.
    rewrite <- (take_drop n l) in Hss. by apply StronglySorted_app_1_l in Hss.
  - exists (drop n l). split; [by rewrite take_drop|].
    intros r r' Hr Hr'. rewrite <- (take_drop n l) in Hss.
    by eapply (StronglySorted_app_1_elem_of _ _ _ r r') in Hss.
Qed.

Lemma stable_sort_StronglySorted o cols (rs : list Row) :
  StronglySorted (fun r1 r2 => sorts_before o cols r2 r1 = false)
    (stable_sort (sorts_before o cols) rs).
Proof.
  apply Sorted_StronglySorted; [intros a b c; apply sorts_before_trans|].
  apply (stable_sort_Sorted (sorts_before o cols) (sorts_before_asym o cols)).
Qed.

(** X10.  The two "All time top 10" cells on a table with the columns of
    [vgsales.csv]: the first shows the 10 rows that come first by [Rank],
    ascending, NULLs first; the second, which filters the ordered table
    before it cuts it, shows the 10 Action rows that come first by [Rank]
    (all Action rows when there are fewer), not the Action rows among the
    first 10 of the table. *)
Theorem all_time_top_10_cells_show_the_best_ranked (E : Engine) (rs : list Row) :
  let gamestb := mkDataFrame vgsales_header rs in
  (exists top,
     top_10_highest_sales gamestb = Some top
     /\ top_rows 10 (asc "Rank") gamestb top)
  /\ (exists action top,
        filter_where E (contains (col "Genre") (lit (DString "Action"))) gamestb
        = Some action
        /\ top_10_action_games E gamestb = Some top
        /\ top_rows 10 (asc "Rank") action top).
Proof.
  intros gamestb.
  assert (orderBy (asc "Rank") gamestb
          = Some (mkDataFrame vgsales_header
                    (stable_sort (sorts_before (asc "Rank") vgsales_header) rs))) as Ho
    by reflexivity.
  split.
  - unfold top_10_highest_sales. rewrite Ho, bind_some.
    eexists. split; [done|]. by apply orderBy_limit_top.
  - unfold top_10_action_games. rewrite Ho, bind_some.
    rewrite !filter_where_rows by done. rewrite bind_some. cbn [columns rows].
    do 2 eexists. split; [done|]. split; [done|].
    apply sorted_take_top.
    + apply StronglySorted_list_filter, stable_sort_StronglySorted.
    + apply Permutation_list_filter. symmetry. apply stable_sort_Permutation.
Qed.

(** ** Games released per year *)

Lemma filter_none {A} (p : A -> bool) l :
  (forall x, x ∈ l -> p x = false) -> List.filter p l = [].
Proof.
  induction l as [|x l IH]; simpl; [done|]. intros H.
  rewrite (H x) by left. apply IH. intros y Hy. apply H. by right.
Qed.

(** Every key has one representative among the distinct keys. *)
Lemma distinct_rows_one ks c :
  c ∈ ks -> exists k, List.filter (fun k' => row_eqb k' c) (distinct_rows ks) = [k].
Proof.
  induction ks as [|k0 ks IH]; [by intros ?%elem_of_nil|].
  intros Hc. simpl. destruct (row_eqb k0 c) eqn:Hk0.
  - exists k0. f_equal. apply filter_none. intros x Hx.
    apply list_elem_of_In, filter_In in Hx as [_ Hx].
    destruct (row_eqb x c) eqn:Hxc; [|done].
    rewrite row_eqb_sym in Hxc.
    by rewrite (row_eqb_trans _ _ _ Hk0 Hxc) in Hx.
  - apply elem_of_cons in Hc as [->|Hc]; [by rewrite row_eqb_refl in Hk0|].
    destruct (IH Hc) as [k Hk]. exists k. rewrite <- Hk.
    apply filter_filter_absorb.
    intros x Hx. destruct (row_eqb k0 x) eqn:Hk0x; [|done].
    by rewrite (row_eqb_trans _ _ _ Hk0x Hx) in Hk0.
Qed.

Lemma last_of_split {A} (l1 l2 : list A) x : l2 = [] -> last (l1 ++ x :: l2) = Some x.
Proof. intros ->. by rewrite last_snoc. Qed.

(** X11.  "Games Released Per Year" on a table with the exported layout:
    for every row of the table the result has exactly one row for the year
    of that row (NULL being a year), and it holds the number of distinct
    names, NULL not counted, among the rows of that year; the result has no
    other rows, is in descending order of the year, and the row of the rows
    without a year, if there is one, is the last. *)
Theorem games_released_per_year_counts_names_of_each_year (rs : list Row) :
  exists released,
    games_released_per_year (mkDataFrame final_header rs) = Some released
    /\ (forall r, r ∈ rs ->
          exists year,
            rows_of_key 0 (cell_at 3 r) (rows released)
            = [[year; count_distinct (cell_at 1 <$> rows_of_key 3 (cell_at 3 r) rs)]])
    /\ (forall row, row ∈ rows released ->
          exists r, r ∈ rs /\ cell_at 0 row = cell_at 3 r)
    /\ Sorted (fun r1 r2 => before_desc (cell_at 0 r2) (cell_at 0 r1) = false)
              (rows released)
    /\ (forall r, r ∈ rs -> cell_at 3 r = None ->
          last (rows released)
          = Some [None; count_distinct (cell_at 1 <$> rows_of_key 3 None rs)]).
Proof.
  set (G := fun k : Row =>
              k ++ [count_distinct
                      (cell_at 1 <$> List.filter (fun r => row_eqb (key_of [3%nat] r) k) rs)]).
  set (K := distinct_rows (key_of [3%nat] <$> rs)).
  set (before := fun a b : Row => before_desc (cell_at 0 a) (cell_at 0 b)).
  exists (mkDataFrame ["Year"; "Games Released"] (stable_sort before (G <$> K))).
  split; [reflexivity|]. cbn [rows].
  assert (Hone : forall r, r ∈ rs ->
            exists year,
              rows_of_key 0 (cell_at 3 r) (stable_sort before (G <$> K))
              = [[year; count_distinct (cell_at 1 <$> rows_of_key 3 (cell_at 3 r) rs)]]).
  { intros r Hr.
    destruct (distinct_rows_one (key_of [3%nat] <$> rs) (key_of [3%nat] r)) as [k Hk].
    { apply list_elem_of_fmap. eauto. }
    fold K in Hk.
    assert (k ∈ List.filter (fun k' => row_eqb k' (key_of [3%nat] r)) K) as Hin
      by (rewrite Hk; left).
    apply list_elem_of_In, filter_In in Hin as [Hin Heq].
    apply list_elem_of_In, elem_of_distinct_rows, list_elem_of_fmap in Hin
      as (r0 & -> & Hr0).
    exists (cell_at 3 r0).
    apply Permutation_singleton_r.
    unfold rows_of_key.
    rewrite (Permutation_list_filter _ _ _ (stable_sort_Permutation before (G <$> K))).
    rewrite filter_fmap_comp.
    rewrite (filter_ext_in _ (fun k' => row_eqb k' (key_of [3%nat] r))).
    2: { intros k' Hk'.
         apply list_elem_of_In, elem_of_distinct_rows, list_elem_of_fmap in Hk'
           as (r' & -> & _).
         simpl. by rewrite andb_true_r. }
    rewrite Hk. simpl in Heq. rewrite andb_true_r in Heq.
    assert (List.filter (fun r' => group_eqb (cell_at 3 r') (cell_at 3 r0) && true) rs
            = List.filter (fun r' => group_eqb (cell_at 3 r') (cell_at 3 r)) rs) as Hf.
    { apply filter_ext. intros r'. rewrite andb_true_r.
      destruct (group_eqb (cell_at 3 r') (cell_at 3 r0)) eqn:H1.
      - symmetry. by eapply group_eqb_trans.
      - destruct (group_eqb (cell_at 3 r') (cell_at 3 r)) eqn:H2; [|done].
        rewrite group_eqb_sym in Heq.
        by rewrite (group_eqb_trans _ _ _ H2 Heq) in H1. }
    simpl. unfold G. simpl. by rewrite Hf. }
  assert (Hss : StronglySorted
                  (fun r1 r2 => before_desc (cell_at 0 r2) (cell_at 0 r1) = false)
                  (stable_sort before (G <$> K))).
  { apply Sorted_StronglySorted.
    - intros a b c. apply before_desc_trans.
    - apply (stable_sort_Sorted before). intros a b. apply before_desc_asym. }
  split; [done|]. split; [|split].
  - intros row. rewrite stable_sort_Permutation.
    intros (k & -> & Hk)%list_elem_of_fmap.
    apply elem_of_distinct_rows, list_elem_of_fmap in Hk as (r & -> & Hr). eauto.
  - by apply StronglySorted_Sorted.
  - intros r Hr Hnull. destruct (Hone r Hr) as [year Hyear]. rewrite Hnull in Hyear.
    assert ([year; count_distinct (cell_at 1 <$> rows_of_key 3 None rs)]
            ∈ rows_of_key 0 None (stable_sort before (G <$> K))) as Hin
      by (rewrite Hyear; left).
    apply list_elem_of_In, filter_In in Hin as [Hin Hy].
    destruct year; [done|]. clear Hy.
    apply list_elem_of_In, list_elem_of_split in Hin as (l1 & l2 & Hl).
    rewrite Hl in *. apply last_of_split.
    destruct l2 as [|y l2]; [done|]. exfalso.
    apply StronglySorted_app_1_r, StronglySorted_inv in Hss as [_ Hall].
    apply Forall_cons in Hall as [Hy _].
    unfold rows_of_key in Hyear. rewrite List.filter_app in Hyear. simpl in Hyear.
    destruct (cell_at 0 y) as [v|] eqn:Hv; [done|]. simpl in Hyear.
    apply (f_equal length) in Hyear. rewrite length_app in Hyear. simpl in Hyear. lia.
Qed.

(** ** The top ranked games *)

Lemma filter_rows_closed E c df :
  analyze (columns df) c = true ->
  pure c = true ->
  filter_rows E c df
  = Some (mkDataFrame (columns df)
            (List.filter
               (fun r => match eval E (columns df) 0 r c with
                         | Some (DBool true) => true
                         | _ => false
                         end)
               (rows df))).
Proof.
  intros Ha Hp. unfold filter_rows. rewrite Ha. do 2 f_equal.
  rewrite <- (filter_zip_snd
                (fun r => match eval E (columns df) 0 r c with
                          | Some (DBool true) => true
                          | _ => false
                          end)
                (row_ids E (rows df)) (rows df)) by apply length_row_ids.
  unfold with_ids. f_equal. apply filter_ext. intros [id r]. simpl.
  by rewrite (eval_pure E _ id 0).
Qed.

(** X12.  The "Top Ranked Games" cells on a table with the exported
    layout: [top_ranked_games] holds the 10 rows of the selection that come
    first by [Rank], ascending, NULLs first (all rows when there are
    fewer), in that order, and no row left out sorts strictly before a row
    kept; [top_ranked_games_2010] holds in the same way the first 10 by
    [Rank] of the selected rows the filter keeps.  The filter keeps no row
    whose [Year] is NULL, and of the rows whose [Year] is a date exactly
    those whose date is not before the date Spark reads 2010-01-01 as.  On
    the reference engine, of the two games of 2006 and 2013 the query
    shows the second only, and of a game of 2006 and a game without a year
    it shows none. *)
Theorem top_ranked_games_are_the_best_ranked (E : Engine) (rs : list Row) :
  let finalgames := mkDataFrame final_header rs in
  let cs := [col "Rank"; col "Name"; col "Platform"; col "Global_Sales"; col "Year"] in
  (exists selected top,
     select E cs finalgames = Some selected
     /\ top_ranked_games E finalgames = Some top
     /\ top_rows 10 (asc "Rank") selected top)
  /\ (exists selected since top,
        select E cs finalgames = Some selected
        /\ filter_rows E (ge (col "Year") (lit (DString "2010-01-01"))) selected
           = Some since
        /\ top_ranked_games_2010 E finalgames = Some top
        /\ top_rows 10 (asc "Rank") since top
        /\ (forall r, r ∈ rows since -> r ∈ rows selected /\ cell_at 4 r <> None)
        /\ (forall r d, r ∈ rows selected -> cell_at 4 r = Some (DDate d) ->
              (r ∈ rows since <->
               exists y, cast_string_date E "2010-01-01" = Some y
                         /\ date_compare d y <> Lt)))
  /\ cell_at 1 <$> rows (since_2010_query two_games_file)
     = [Some (DString "Grand Theft Auto V")]
  /\ rows (since_2010_query null_year_file) = [].
Proof.
  intros fg cs. split; [|split; [|split; vm_compute; reflexivity]].
  - assert (columns <$> top_ranked_games E fg
            = Some ["Rank"; "Name"; "Platform"; "Global_Sales"; "Year"]) as Hc
      by reflexivity.
    unfold top_ranked_games in *. fold cs in Hc |- *.
    destruct (select E cs fg) as [selected|] eqn:Hsel; [|done].
    rewrite bind_some in Hc.
    destruct (orderBy (asc "Rank") selected) as [ordered|] eqn:Ho; [|done].
    exists selected, (limit 10 ordered). split; [done|]. split.
    + by rewrite bind_some, Ho.
    + by eapply orderBy_limit_top.
  - assert (columns <$> top_ranked_games_2010 E fg
            = Some ["Rank"; "Name"; "Platform"; "Global_Sales"; "Year"]) as Hc
      by reflexivity.
    unfold top_ranked_games_2010 in *. fold cs in Hc |- *.
    destruct (select E cs fg) as [selected|] eqn:Hsel; [|done].
    rewrite bind_some in Hc.
    pose proof (select_Some E cs fg selected Hsel) as [Hcols _].
    assert (filter_rows E (ge (col "Year") (lit (DString "2010-01-01"))) selected
            = Some (mkDataFrame (columns selected)
                      (List.filter
                         (fun r => match sql_ge E (cell_at 4 r) (Some (DString "2010-01-01")) with
                                   | Some (DBool true) => true
                                   | _ => false
                                   end)
                         (rows selected)))) as Hf.
    { rewrite filter_rows_closed by (rewrite ?Hcols; reflexivity). by rewrite Hcols. }
    rewrite Hf, bind_some in Hc.
    destruct (orderBy (asc "Rank") _) as [ordered|] eqn:Ho; [|done].
    eexists selected, _, (limit 10 ordered). split; [done|]. split; [exact Hf|]. split.
    { by rewrite bind_some, Hf, bind_some, Ho. }
    split; [by eapply orderBy_limit_top|]. cbn [rows]. split.
    + intros r Hr. apply list_elem_of_In, filter_In in Hr as [Hr Hge].
      split; [by apply list_elem_of_In|]. intros Hnull. by rewrite Hnull in Hge.
    + intros r d Hr Hd. rewrite list_elem_of_In, filter_In, <- list_elem_of_In, Hd.
      cbn [sql_ge]. destruct (cast_string_date E "2010-01-01") as [y|]; cbn.
      * split.
        -- intros [_ Hge]. exists y. split; [done|]. by destruct (date_compare d y).
        -- intros (y' & [= <-] & Hge). split; [done|]. by destruct (date_compare d y).
      * split; [by intros [_ ?]|by intros (y' & ? & _)].
Qed.
